(** * DhakaCart backup automation: the Backup Manager and the Backup Verifier

    A shallow embedding of
      - terraform/lambda/backup_manager/index.py
      - terraform/lambda/backup_verifier/index.py
    and the properties of their retention and verification logic.

    Both programs are sequential Python handlers that talk to external
    collaborators: the database control plane (RDS), the object store (S3),
    the secret store, the notification sink (SNS) and, for the verifier, a
    database connection.  The handlers are embedded as computations in a
    state-and-exception monad [Cloud.M] over a [Cloud.World] that holds the
    state of the collaborators.

    Conventions of the embedding:
      - a naive UTC [datetime] is an integer number of microseconds since
        1970-01-01; [timedelta] arithmetic raises [OverflowError] where
        Python's does;
      - an exception is a value of [Py.Exn]; [try]/[except] is
        [Cloud.try_except], and what a computation did to the world before
        it raised is kept;
      - a Python dict used as a map ([event], [os.environ], the credentials)
        is a [gmap string string]; a result dict is a record, or an
        inductive type with one constructor per shape of the dict;
      - the collaborators are fakes that follow the interfaces of section 6
        of the specification: the catalog is a list of snapshot records,
        a listing returns all matching records (at most [MaxRecords] of them
        when the caller gives one), deletion removes the record, a created
        snapshot starts in status [creating] and is completed by the
        platform after a time of its own choice; every request can be made
        to fail through [Cloud.faults];
      - what the client library does on its own side belongs to the
        programs: a call that lacks a required parameter is rejected before
        it is sent, and the waiter decides by its acceptors when to stop;
      - logging has no effect on any outcome and is left out; float-valued
        evidence (sizes in MiB) is kept as the integer it is computed from. *)

From Stdlib Require Import Ascii.
From stdpp Require Import base strings gmap list pretty.

Local Open Scope string_scope.
Local Open Scope Z_scope.

(** ** Python prelude: exceptions, datetime arithmetic, formatting *)

Module Py.

(** The exception classes that the two programs can meet. *)
Inductive Exn : Type :=
| KeyError (key : string)
| ValueError (msg : string)
| UnboundLocalError (name : string)
| OverflowError (msg : string)
| IndexError (msg : string)
| ParamValidationError (msg : string)    (* botocore: rejected before sending *)
| ClientError (operation code : string)  (* botocore.exceptions.ClientError *)
| WaiterError (msg : string)             (* botocore.exceptions.WaiterError *)
| Psycopg2Error (msg : string).          (* psycopg2.Error and subclasses *)

(** [str(e)] *)
Definition exn_str (e : Exn) : string :=
  match e with
  | KeyError k => "'" +:+ k +:+ "'"
  | ValueError m => m
  | UnboundLocalError n =>
      "cannot access local variable '" +:+ n +:+
      "' where it is not associated with a value"
  | OverflowError m => m
  | IndexError m => m
  | ParamValidationError m => m
  | ClientError op code =>
      "An error occurred (" +:+ code +:+ ") when calling the " +:+ op +:+
      " operation"
  | WaiterError m => m
  | Psycopg2Error m => m
  end.

Definition is_psycopg2_error (e : Exn) : bool :=
  match e with Psycopg2Error _ => true | _ => false end.

(** A naive [datetime] is a number of microseconds since 1970-01-01T00:00:00
    (the programs drop the time zone with [.replace(tzinfo=None)] and all
    their datetimes are UTC).  A [timedelta] is a number of microseconds. *)
Definition usec_per_second : Z := 1000000.
Definition usec_per_hour : Z := 3600 * usec_per_second.
Definition usec_per_day : Z := 86400 * usec_per_second.

(** [datetime.min] and [datetime.max] *)
Definition datetime_min : Z := -62135596800 * usec_per_second.
Definition datetime_max : Z := 253402300799 * usec_per_second + 999999.

(** [timedelta(days=d)]: the day count of a timedelta is bounded. *)
Definition timedelta_days (d : Z) : option Z :=
  if (Z.abs d <=? 999999999) then Some (d * usec_per_day) else None.

Definition timedelta_hours (h : Z) : Z := h * usec_per_hour.

(** [dt - delta]: raises [OverflowError] outside [datetime.min, datetime.max] *)
Definition datetime_sub (dt delta : Z) : option Z :=
  let r := dt - delta in
  if (datetime_min <=? r) && (r <=? datetime_max) then Some r else None.

(** Proleptic Gregorian date of a day number counted from 1970-01-01. *)
Definition civil_from_days (days : Z) : Z * Z * Z :=
  let z := days + 719468 in
  let era := z `div` 146097 in
  let doe := z - era * 146097 in
  let yoe := (doe - doe `div` 1460 + doe `div` 36524 - doe `div` 146096) `div` 365 in
  let doy := doe - (365 * yoe + yoe `div` 4 - yoe `div` 100) in
  let mp := (5 * doy + 2) `div` 153 in
  let d := doy - (153 * mp + 2) `div` 5 + 1 in
  let m := if mp <? 10 then mp + 3 else mp - 9 in
  let y := yoe + era * 400 in
  (if m <=? 2 then y + 1 else y, m, d).

(** [str(n).zfill(width)] for a non-negative [n] *)
Definition zfill (width : nat) (n : Z) : string :=
  let s := pretty n in
  String.concat EmptyString (replicate (width - String.length s)%nat "0") +:+ s.

Record Broken := {
  year : Z; month : Z; day : Z; hour : Z; minute : Z; second : Z; usec : Z
}.

Definition broken_down (dt : Z) : Broken :=
  let secs := dt `div` usec_per_second in
  let days := secs `div` 86400 in
  let sod := secs `mod` 86400 in
  let '(y, m, d) := civil_from_days days in
  {| year := y; month := m; day := d;
     hour := sod `div` 3600; minute := (sod `mod` 3600) `div` 60;
     second := sod `mod` 60; usec := dt `mod` usec_per_second |}.

(** [dt.strftime('%Y-%m-%d-%H-%M-%S')] *)
Definition strftime_dashed (dt : Z) : string :=
  let b := broken_down dt in
  zfill 4 (year b) +:+ "-" +:+ zfill 2 (month b) +:+ "-" +:+ zfill 2 (day b)
  +:+ "-" +:+ zfill 2 (hour b) +:+ "-" +:+ zfill 2 (minute b)
  +:+ "-" +:+ zfill 2 (second b).

(** [dt.strftime('%Y/%m/%d')] *)
Definition strftime_date_path (dt : Z) : string :=
  let b := broken_down dt in
  zfill 4 (year b) +:+ "/" +:+ zfill 2 (month b) +:+ "/" +:+ zfill 2 (day b).

(** [dt.strftime('%Y/%m/%d/%H-%M-%S')] *)
Definition strftime_result_path (dt : Z) : string :=
  let b := broken_down dt in
  strftime_date_path dt +:+ "/" +:+ zfill 2 (hour b) +:+ "-" +:+
  zfill 2 (minute b) +:+ "-" +:+ zfill 2 (second b).

(** [dt.isoformat()] of a naive datetime *)
Definition isoformat (dt : Z) : string :=
  let b := broken_down dt in
  zfill 4 (year b) +:+ "-" +:+ zfill 2 (month b) +:+ "-" +:+ zfill 2 (day b)
  +:+ "T" +:+ zfill 2 (hour b) +:+ ":" +:+ zfill 2 (minute b) +:+ ":" +:+
  zfill 2 (second b) +:+
  (if usec b =? 0 then EmptyString else "." +:+ zfill 6 (usec b)).

(** [dt.isoformat()] of a datetime that carries the UTC time zone, as the
    collaborators return them *)
Definition isoformat_utc (dt : Z) : string := isoformat dt +:+ "+00:00".

(** [int(dt.timestamp())]: whole seconds, truncated towards zero *)
Definition int_timestamp (dt : Z) : Z := dt `quot` usec_per_second.

(** [int(s)] on a decimal literal: surrounding blanks, an optional sign,
    digits, with single underscores allowed between digits.  (ASCII input;
    digits of other scripts, which [int] also accepts, are not covered.) *)
Definition is_digit (c : ascii) : bool :=
  let n := nat_of_ascii c in (48 <=? n)%nat && (n <=? 57)%nat.

Definition is_blank (c : ascii) : bool :=
  let n := nat_of_ascii c in
  (n =? 32)%nat || ((9 <=? n)%nat && (n <=? 13)%nat)
  || ((28 <=? n)%nat && (n <=? 31)%nat).

Fixpoint lstrip (s : list ascii) : list ascii :=
  match s with
  | c :: s' => if is_blank c then lstrip s' else s
  | [] => []
  end.

Definition strip (s : list ascii) : list ascii :=
  reverse (lstrip (reverse (lstrip s))).

Definition starts_with_digit (s : list ascii) : bool :=
  match s with
  | c :: _ => is_digit c
  | [] => false
  end.

Fixpoint digits_value (acc : Z) (s : list ascii) : option Z :=
  match s with
  | [] => Some acc
  | c :: s' =>
      if is_digit c
      then digits_value (10 * acc + (Z.of_nat (nat_of_ascii c) - 48)) s'
      else if Ascii.eqb c "_" && starts_with_digit s'
      then digits_value acc s'
      else None
  end.

Definition unsigned_value (s : list ascii) : option Z :=
  if starts_with_digit s then digits_value 0 s else None.

Definition int_of_str (s : string) : option Z :=
  match strip (String.list_ascii_of_string s) with
  | "-"%char :: ds => Z.opp <$> unsigned_value ds
  | "+"%char :: ds => unsigned_value ds
  | ds => unsigned_value ds
  end.

End Py.

(** ** Data model *)

Module Model.

(** Snapshot kind ([SnapshotType]) and lifecycle status. *)
Inductive SnapshotKind : Type := manual | automated.
Inductive SnapshotStatus : Type := creating | available | failed | deleting.

#[export] Instance SnapshotKind_eq_dec : EqDecision SnapshotKind.
Proof. solve_decision. Defined.

#[export] Instance SnapshotStatus_eq_dec : EqDecision SnapshotStatus.
Proof. solve_decision. Defined.

(** One entry of [response['DBSnapshots']]; the tag set is the one that
    [list_tags_for_resource] reports for the snapshot's ARN. *)
Record DBSnapshot : Type := {
  DBSnapshotIdentifier : string;
  DBSnapshotArn : string;
  DBInstanceIdentifier : string;
  SnapshotCreateTime : Z;
  Status : SnapshotStatus;
  AllocatedStorage : Z;
  SnapshotType : SnapshotKind;
  TagList : list (string * string)
}.

Definition with_status (st : SnapshotStatus) (s : DBSnapshot) : DBSnapshot :=
  {| DBSnapshotIdentifier := DBSnapshotIdentifier s;
     DBSnapshotArn := DBSnapshotArn s;
     DBInstanceIdentifier := DBInstanceIdentifier s;
     SnapshotCreateTime := SnapshotCreateTime s;
     Status := st;
     AllocatedStorage := AllocatedStorage s;
     SnapshotType := SnapshotType s;
     TagList := TagList s |}.

(** One entry of [response['Contents']] of the object store. *)
Record S3Object : Type := {
  Key : string;
  Size : Z;
  LastModified : Z
}.

Record ExportTask : Type := {
  ExportTaskIdentifier : string;
  SourceArn : string;
  S3BucketName : string;
  S3Prefix : string;
  KmsKeyId : string
}.

(** Results of the Backup Manager's three actions. *)
Record CreateResult : Type := {
  snapshot_id : string;
  status : SnapshotStatus;
  size : Z
}.

Record CleanupResult : Type := {
  deleted_count : nat;
  deleted_snapshots : list string
}.

Record ExportResult : Type := {
  export_task_id : string;
  export_status : string;
  s3_location : string
}.

Inductive Result : Type :=
| RCreate (r : CreateResult)
| RCleanup (r : CleanupResult)
| RExport (r : ExportResult).

(** Verdicts and the three sub-check results of the Backup Verifier.  Each
    Python result dict has a ['status'] key; the other keys depend on the
    path that built the dict, hence one constructor per path. *)
Inductive Verdict : Type := PASS | FAIL | WARN.

#[export] Instance Verdict_eq_dec : EqDecision Verdict.
Proof. solve_decision. Defined.

Definition verdict_str (v : Verdict) : string :=
  match v with PASS => "PASS" | FAIL => "FAIL" | WARN => "WARN" end.

Inductive DbValue : Type := DbInt (n : Z) | DbText (s : string) | DbNull.

Record SnapshotEvidence : Type := {
  ev_id : string;
  ev_created : string;
  ev_status : SnapshotStatus;
  ev_size_gb : Z
}.

Inductive SnapshotVerification : Type :=
| SnapshotChecked (st : Verdict) (total_recent_snapshots : nat)
    (available_snapshots : nat) (snapshots : list SnapshotEvidence)
| SnapshotCheckFailed (st : Verdict) (error : string).

Inductive ConnectivityTest : Type :=
| ConnectivityChecked (st : Verdict) (db_version table_count product_count : DbValue)
    (write_test : Verdict)
| ConnectivityFailed (st : Verdict) (error : string).

(** Sizes stay in bytes here; the source reports them in MiB, rounded to
    two decimals, as floats. *)
Record ExportEvidence : Type := {
  ev_key : string;
  ev_size : Z;
  ev_last_modified : string
}.

Inductive S3Verification : Type :=
| S3NoExports (st : Verdict) (message : string) (export_count : nat)
| S3Checked (st : Verdict) (recent_export_count : nat) (total_size : Z)
    (latest_exports : list ExportEvidence)
| S3CheckFailed (st : Verdict) (error : string).

(** [d['status']] for each of the three result dicts *)
Definition snapshot_status (r : SnapshotVerification) : Verdict :=
  match r with SnapshotChecked st _ _ _ | SnapshotCheckFailed st _ => st end.

Definition connectivity_status (r : ConnectivityTest) : Verdict :=
  match r with ConnectivityChecked st _ _ _ _ | ConnectivityFailed st _ => st end.

Definition s3_status (r : S3Verification) : Verdict :=
  match r with S3NoExports st _ _ | S3Checked st _ _ _ | S3CheckFailed st _ => st end.

Record VerificationReport : Type := {
  timestamp : string;
  snapshot_verification : SnapshotVerification;
  connectivity_test : ConnectivityTest;
  s3_verification : S3Verification;
  overall_status : Verdict
}.

(** The response envelope: [{'statusCode': ..., 'body': json.dumps({...})}].
    The body is kept as the structure that is serialised. *)
Inductive Body : Type :=
| BodyResult (message : string) (result : Result)
| BodyResults (message : string) (results : VerificationReport)
| BodyError (error : string).

Record Envelope : Type := {
  statusCode : Z;
  body : Body
}.

(** What is published to the notification sink. *)
Inductive Message : Type :=
| MsgResult (r : Result)
| MsgReport (r : VerificationReport)
| MsgText (s : string).

Record Notification : Type := {
  TopicArn : string;
  Subject : string;
  n_subject : string;
  n_message : Message;
  n_timestamp : string;
  n_status : string
}.

Record StoredReport : Type := {
  sr_bucket : string;
  sr_key : string;
  sr_body : VerificationReport
}.

(** The verifier's database probe: connection parameters, statements and
    what the server answers. *)
Record Credentials : Type := {
  host : string; port : string; dbname : string;
  username : string; password : string
}.

Inductive Stmt : Type :=
| SelectVersion
| CountPublicTables
| CountProducts
| CreateTestTable (name : string)
| InsertTestRow (name : string)
| CountTestRows (name : string)
| DropTestTable (name : string)
| Commit.

Inductive DbReply : Type :=
| DbRow (first_column : DbValue)
| DbFailure (msg : string).

End Model.

(** ** The collaborators: control plane, object store, secret store,
       notification sink, database server *)

Module Cloud.
Import Py Model.

(** Requests that can be made to fail from outside (fault injection). *)
Inductive Call : Type :=
| CreateDBSnapshot (id : string)
| DescribeDBSnapshots
| ListTagsForResource (arn : string)
| DeleteDBSnapshot (id : string)
| StartExportTask (task : string)
| ListObjectsV2 (bucket : string)
| PutObject (bucket key : string)
| Publish (topic : string)
| GetSecretValue (arn : string).

Definition call_name (c : Call) : string :=
  match c with
  | CreateDBSnapshot _ => "CreateDBSnapshot"
  | DescribeDBSnapshots => "DescribeDBSnapshots"
  | ListTagsForResource _ => "ListTagsForResource"
  | DeleteDBSnapshot _ => "DeleteDBSnapshot"
  | StartExportTask _ => "StartExportTask"
  | ListObjectsV2 _ => "ListObjectsV2"
  | PutObject _ _ => "PutObject"
  | Publish _ => "Publish"
  | GetSecretValue _ => "GetSecretValue"
  end.

(** The state of everything outside the two programs. *)
Record World : Type := {
  clock : Z;                                  (* what utcnow() reads *)
  environ : gmap string string;               (* os.environ *)
  instances : gmap string Z;                  (* instance id, allocated storage *)
  snapshots : list DBSnapshot;                (* the snapshot catalog *)
  completion : string → option Z;             (* time a snapshot takes to complete *)
  export_tasks : list ExportTask;
  buckets : gmap string (list S3Object);
  stored : list StoredReport;                 (* objects written by put_object *)
  secrets : gmap string (gmap string string);
  db_connect : Credentials → option string;   (* Some msg: the connection fails *)
  db_execute : Stmt → DbReply;
  published : list Notification;
  faults : Call → option string               (* Some code: the request fails *)
}.

Definition set_clock (t : Z) (w : World) : World :=
  {| clock := t; environ := environ w; instances := instances w;
     snapshots := snapshots w; completion := completion w;
     export_tasks := export_tasks w; buckets := buckets w; stored := stored w;
     secrets := secrets w; db_connect := db_connect w;
     db_execute := db_execute w; published := published w;
     faults := faults w |}.

Definition set_snapshots (l : list DBSnapshot) (w : World) : World :=
  {| clock := clock w; environ := environ w; instances := instances w;
     snapshots := l; completion := completion w;
     export_tasks := export_tasks w; buckets := buckets w; stored := stored w;
     secrets := secrets w; db_connect := db_connect w;
     db_execute := db_execute w; published := published w;
     faults := faults w |}.

Definition set_export_tasks (l : list ExportTask) (w : World) : World :=
  {| clock := clock w; environ := environ w; instances := instances w;
     snapshots := snapshots w; completion := completion w;
     export_tasks := l; buckets := buckets w; stored := stored w;
     secrets := secrets w; db_connect := db_connect w;
     db_execute := db_execute w; published := published w;
     faults := faults w |}.

Definition set_stored (l : list StoredReport) (w : World) : World :=
  {| clock := clock w; environ := environ w; instances := instances w;
     snapshots := snapshots w; completion := completion w;
     export_tasks := export_tasks w; buckets := buckets w; stored := l;
     secrets := secrets w; db_connect := db_connect w;
     db_execute := db_execute w; published := published w;
     faults := faults w |}.

Definition set_published (l : list Notification) (w : World) : World :=
  {| clock := clock w; environ := environ w; instances := instances w;
     snapshots := snapshots w; completion := completion w;
     export_tasks := export_tasks w; buckets := buckets w; stored := stored w;
     secrets := secrets w; db_connect := db_connect w;
     db_execute := db_execute w; published := l;
     faults := faults w |}.

Definition set_faults (f : Call → option string) (w : World) : World :=
  {| clock := clock w; environ := environ w; instances := instances w;
     snapshots := snapshots w; completion := completion w;
     export_tasks := export_tasks w; buckets := buckets w; stored := stored w;
     secrets := secrets w; db_connect := db_connect w;
     db_execute := db_execute w; published := published w;
     faults := f |}.

(** *** The monad of the embedding: state passing with exceptions.
    State changes made before an exception is raised are kept, as in
    Python. *)
Inductive Res (A : Type) : Type :=
| Ok (a : A)
| Raise (e : Exn).
Arguments Ok {A} a.
Arguments Raise {A} e.

Definition M (A : Type) : Type := World → Res A * World.

#[export] Instance M_ret : MRet M := λ A a w, (Ok a, w).

#[export] Instance M_bind : MBind M := λ A B f c w,
  match c w with
  | (Ok a, w') => f a w'
  | (Raise e, w') => (Raise e, w')
  end.

Definition raise {A : Type} (e : Exn) : M A := λ w, (Raise e, w).

(** [try: c  except Exception as e: h e] *)
Definition try_except {A : Type} (c : M A) (h : Exn → M A) : M A := λ w,
  match c w with
  | (Ok a, w') => (Ok a, w')
  | (Raise e, w') => h e w'
  end.

(** [try: c  except <class>: h], other exceptions pass through *)
Definition try_except_only {A : Type} (catches : Exn → bool)
    (c : M A) (h : Exn → M A) : M A :=
  try_except c (λ e, if catches e then h e else raise e).

(** Run [c] and hand its outcome to the continuation: used where the
    source's handler depends on how far the [try] body got. *)
Definition attempt {A : Type} (c : M A) : M (Res A) := λ w,
  match c w with (r, w') => (Ok r, w') end.

Definition gets {A : Type} (f : World → A) : M A := λ w, (Ok (f w), w).

Definition modify (f : World → World) : M unit := λ w, (Ok tt, f w).

(** [d[k]] on a dict: [KeyError] when the key is missing. *)
Definition subscript {A : Type} (d : gmap string A) (k : string) : M A :=
  match d !! k with
  | Some v => mret v
  | None => raise (KeyError k)
  end.

(** [os.environ[k]] *)
Definition getenv (k : string) : M string :=
  env ← gets environ; subscript env k.

(** [datetime.utcnow()] *)
Definition utcnow : M Z := gets clock.

Definition of_option {A : Type} (o : option A) (e : Exn) : M A :=
  match o with Some a => mret a | None => raise e end.

(** A request to a collaborator; fails when a fault is injected for it. *)
Definition request (c : Call) : M unit :=
  f ← gets faults;
  match f c with
  | Some code => raise (ClientError (call_name c) code)
  | None => mret tt
  end.

(** *** Database control plane *)

Definition snapshot_arn (id : string) : string :=
  "arn:aws:rds:::snapshot:" +:+ id.

Definition find_snapshot (id : string) (l : list DBSnapshot) : option DBSnapshot :=
  List.find (λ s, bool_decide (DBSnapshotIdentifier s = id)) l.

Definition find_by_arn (arn : string) (l : list DBSnapshot) : option DBSnapshot :=
  List.find (λ s, bool_decide (DBSnapshotArn s = arn)) l.

Definition remove_snapshot (id : string) (l : list DBSnapshot) : list DBSnapshot :=
  filter (λ s, DBSnapshotIdentifier s ≠ id) l.

(** [rds.create_db_snapshot]: the new snapshot starts in status [creating];
    the response describes it as it is at that moment. *)
Definition create_db_snapshot (id instance : string)
    (tags : list (string * string)) : M DBSnapshot :=
  request (CreateDBSnapshot id);;
  insts ← gets instances;
  storage ← of_option (insts !! instance)
    (ClientError "CreateDBSnapshot" "DBInstanceNotFound");
  l ← gets snapshots;
  match find_snapshot id l with
  | Some _ => raise (ClientError "CreateDBSnapshot" "DBSnapshotAlreadyExists")
  | None =>
      now ← gets clock;
      let s := {| DBSnapshotIdentifier := id;
                  DBSnapshotArn := snapshot_arn id;
                  DBInstanceIdentifier := instance;
                  SnapshotCreateTime := now;
                  Status := creating;
                  AllocatedStorage := storage;
                  SnapshotType := manual;
                  TagList := tags |} in
      modify (set_snapshots (l ++ [s]));;
      mret s
  end.

(** [rds.describe_db_snapshots(DBInstanceIdentifier=, SnapshotType=,
    MaxRecords=)]: the catalog entries of that instance and kind, at most
    [MaxRecords] of them when given. *)
Definition describe_db_snapshots (instance : string) (kind : SnapshotKind)
    (max_records : option nat) : M (list DBSnapshot) :=
  request DescribeDBSnapshots;;
  l ← gets snapshots;
  let matching :=
    filter (λ s, DBInstanceIdentifier s = instance ∧ SnapshotType s = kind) l in
  mret (match max_records with Some n => take n matching | None => matching end).

(** [rds.describe_db_snapshots(DBSnapshotIdentifier=)] *)
Definition describe_db_snapshot (id : option string) : M (list DBSnapshot) :=
  match id with
  | None =>
      raise (ParamValidationError
               "Invalid type for parameter DBSnapshotIdentifier, value: None")
  | Some id =>
      request DescribeDBSnapshots;;
      l ← gets snapshots;
      match find_snapshot id l with
      | Some s => mret [s]
      | None => raise (ClientError "DescribeDBSnapshots" "DBSnapshotNotFound")
      end
  end.

(** [rds.list_tags_for_resource(ResourceName=)] *)
Definition list_tags_for_resource (arn : string) : M (list (string * string)) :=
  request (ListTagsForResource arn);;
  l ← gets snapshots;
  match find_by_arn arn l with
  | Some s => mret (TagList s)
  | None => raise (ClientError "ListTagsForResource" "DBSnapshotNotFound")
  end.

(** [rds.delete_db_snapshot(DBSnapshotIdentifier=)] *)
Definition delete_db_snapshot (id : string) : M unit :=
  request (DeleteDBSnapshot id);;
  l ← gets snapshots;
  match find_snapshot id l with
  | Some _ => modify (set_snapshots (remove_snapshot id l))
  | None => raise (ClientError "DeleteDBSnapshot" "DBSnapshotNotFound")
  end.

(** What botocore says when a call leaves out a parameter that the
    operation requires; the call is rejected before anything is sent. *)
Definition missing_required_parameter (name : string) : string :=
  "Parameter validation failed:" +:+
  String "010"%char
    ("Missing required parameter in input: " +:+
     String "034"%char (name +:+ String "034"%char EmptyString)).

(** [rds.start_export_task]: [IamRoleArn] is a required parameter of the
    operation; a call that has it starts the task and returns the task's
    initial status. *)
Definition start_export_task (task source_arn bucket prefix kms : string)
    (iam_role_arn : option string) : M string :=
  match iam_role_arn with
  | None => raise (ParamValidationError (missing_required_parameter "IamRoleArn"))
  | Some _ =>
      request (StartExportTask task);;
      l ← gets export_tasks;
      modify (set_export_tasks
        (l ++ [{| ExportTaskIdentifier := task; SourceArn := source_arn;
                  S3BucketName := bucket; S3Prefix := prefix; KmsKeyId := kms |}]));;
      mret "STARTING"
  end.

(** Time passing: the clock advances and the platform finishes the
    snapshots whose completion time has come. *)
Definition settle (w : World) (s : DBSnapshot) : DBSnapshot :=
  match Status s, completion w (DBSnapshotIdentifier s) with
  | creating, Some d =>
      if SnapshotCreateTime s + d <=? clock w then with_status available s else s
  | _, _ => s
  end.

Definition advance (usecs : Z) (w : World) : World :=
  let w' := set_clock (clock w + usecs) w in
  set_snapshots (settle w' <$> snapshots w') w'.

Definition sleep (seconds : Z) : M unit :=
  modify (advance (seconds * usec_per_second)).

(** The waiter [db_snapshot_completed] of botocore has two acceptors, both
    for success: the error code DBSnapshotNotFound, and the status
    [available] on every snapshot of a response that has one. *)
Definition path_all_available (found : list DBSnapshot) : bool :=
  match found with
  | [] => false
  | _ => forallb (λ s, bool_decide (Status s = available)) found
  end.

(** A poll that fails: the waiter catches the [ClientError]; the code
    DBSnapshotNotFound is accepted as success, any other code ends the wait
    with a [WaiterError].  The world gives a failing request its error code
    only; botocore prints Unknown for the message that is missing. *)
Definition waiter_poll_failed (e : Exn) : M bool :=
  match e with
  | ClientError _ code =>
      if bool_decide (code = "DBSnapshotNotFound") then mret true
      else raise (WaiterError ("Waiter DBSnapshotCompleted failed: " +:+
                               "An error occurred (" +:+ code +:+ "): Unknown"))
  | _ => raise e
  end.

(** [waiter.wait(DBSnapshotIdentifier=, WaiterConfig={'Delay': delay,
    'MaxAttempts': attempts})]: poll until an acceptor matches; give up with
    [WaiterError] after the last attempt. *)
Fixpoint waiter_wait (delay : Z) (attempts : nat) (id : string) : M unit :=
  match attempts with
  | O => raise (WaiterError "Waiter DBSnapshotCompleted failed: Max attempts exceeded")
  | S remaining =>
      try_except
        (found ← describe_db_snapshot (Some id);
         mret (path_all_available found))
        waiter_poll_failed
      ≫= λ success : bool,
        if success then mret tt
        else
          match remaining with
          | O => raise (WaiterError "Waiter DBSnapshotCompleted failed: Max attempts exceeded")
          | S _ => sleep delay;; waiter_wait delay remaining id
          end
  end.

(** *** Object store *)

(** [s3.list_objects_v2(Bucket=, Prefix=)]: the response has a ['Contents']
    key only when some object matches. *)
Definition list_objects_v2 (bucket prefix : string) : M (option (list S3Object)) :=
  request (ListObjectsV2 bucket);;
  bs ← gets buckets;
  objs ← of_option (bs !! bucket) (ClientError "ListObjectsV2" "NoSuchBucket");
  match filter (λ o, String.prefix prefix (Key o)) objs with
  | [] => mret None
  | matching => mret (Some matching)
  end.

(** [s3.put_object(Bucket=, Key=, Body=)] *)
Definition put_object (bucket key : string) (body : VerificationReport) : M unit :=
  request (PutObject bucket key);;
  l ← gets stored;
  modify (set_stored (l ++ [{| sr_bucket := bucket; sr_key := key; sr_body := body |}])).

(** *** Notification sink, secret store *)

Definition publish (n : Notification) : M unit :=
  request (Publish (TopicArn n));;
  l ← gets published;
  modify (set_published (l ++ [n])).

(** [json.loads(secrets.get_secret_value(SecretId=)['SecretString'])] *)
Definition get_secret_value (arn : string) : M (gmap string string) :=
  request (GetSecretValue arn);;
  ss ← gets secrets;
  of_option (ss !! arn) (ClientError "GetSecretValue" "ResourceNotFoundException").

(** *** Database connection *)

(** [psycopg2.connect(...)] *)
Definition connect (c : Credentials) : M unit :=
  f ← gets db_connect;
  match f c with
  | Some msg => raise (Psycopg2Error msg)
  | None => mret tt
  end.

(** [cursor.execute(stmt)], followed by [cursor.fetchone()[0]] where the
    source fetches; [connection.commit()] is the statement [Commit]. *)
Definition execute (q : Stmt) : M DbValue :=
  f ← gets db_execute;
  match f q with
  | DbRow v => mret v
  | DbFailure msg => raise (Psycopg2Error msg)
  end.

End Cloud.

(** ** terraform/lambda/backup_manager/index.py *)

Module BackupManager.
Import Py Model Cloud.

(** The invocation event: a JSON object with string fields. *)
Abbreviation Event := (gmap string string).

Definition send_notification (sns_topic_arn subject : string)
    (message : Message) (status : string) : M unit :=
  try_except
    (now ← utcnow;
     publish {| TopicArn := sns_topic_arn;
                Subject := "[" +:+ status +:+ "] DhakaCart Backup Notification";
                n_subject := subject;
                n_message := message;
                n_timestamp := isoformat now;
                n_status := status |})
    (λ e, mret tt).

Definition create_snapshot (db_instance_id backup_type kms_key_id : string)
    : M CreateResult :=
  now ← utcnow;
  let timestamp := strftime_dashed now in
  let snapshot_id := db_instance_id +:+ "-" +:+ backup_type +:+ "-" +:+ timestamp in
  response ← create_db_snapshot snapshot_id db_instance_id
    [("BackupType", backup_type);
     ("CreatedBy", "automated-backup-system");
     ("Timestamp", timestamp)];
  waiter_wait 30 120 snapshot_id;;
  mret {| snapshot_id := snapshot_id;
          status := Status response;
          size := AllocatedStorage response |}.

(** [tag['Key'] == 'CreatedBy' and tag['Value'] == 'automated-backup-system'] *)
Definition is_ownership_tag (tag : string * string) : bool :=
  bool_decide (tag.1 = "CreatedBy")
  && bool_decide (tag.2 = "automated-backup-system").

(** The [for snapshot in response['DBSnapshots']] loop; [deleted] is the
    list [deleted_snapshots] built so far. *)
Fixpoint cleanup_loop (cutoff_date : Z) (response : list DBSnapshot)
    (deleted : list string) : M (list string) :=
  match response with
  | [] => mret deleted
  | snapshot :: rest =>
      let snapshot_time := SnapshotCreateTime snapshot in
      if snapshot_time <? cutoff_date then
        let snapshot_id := DBSnapshotIdentifier snapshot in
        tags ← list_tags_for_resource (DBSnapshotArn snapshot);
        let is_automated := existsb is_ownership_tag tags in
        if is_automated then
          delete_db_snapshot snapshot_id;;
          cleanup_loop cutoff_date rest (deleted ++ [snapshot_id])
        else cleanup_loop cutoff_date rest deleted
      else cleanup_loop cutoff_date rest deleted
  end.

Definition cleanup_old_snapshots (db_instance_id : string) (retention_days : Z)
    : M CleanupResult :=
  now ← utcnow;
  delta ← of_option (timedelta_days retention_days)
    (OverflowError "days is out of range for timedelta");
  cutoff_date ← of_option (datetime_sub now delta)
    (OverflowError "date value out of range");
  response ← describe_db_snapshots db_instance_id manual None;
  deleted_snapshots ← cleanup_loop cutoff_date response [];
  mret {| deleted_count := length deleted_snapshots;
          deleted_snapshots := deleted_snapshots |}.

(** [response['DBSnapshots'][0]] *)
Definition first_snapshot (l : list DBSnapshot) : M DBSnapshot :=
  of_option (head l) (IndexError "list index out of range").

(** The call of [start_export_task] names the task, the source, the
    bucket, the prefix, the key and [ExportOnly], and no [IamRoleArn]. *)
Definition export_snapshot_to_s3 (snapshot_id : option string)
    (s3_bucket kms_key_id : string) : M ExportResult :=
  now ← utcnow;
  let timestamp := strftime_dashed now in
  let export_task_id := default "None" snapshot_id +:+ "-export-" +:+ timestamp in
  response ← describe_db_snapshot snapshot_id;
  snapshot ← first_snapshot response;
  let snapshot_arn := DBSnapshotArn snapshot in
  now' ← utcnow;
  export_status ← start_export_task export_task_id snapshot_arn s3_bucket
    ("exports/" +:+ strftime_date_path now' +:+ "/") kms_key_id None;
  now'' ← utcnow;
  mret {| export_task_id := export_task_id;
          export_status := export_status;
          s3_location := "s3://" +:+ s3_bucket +:+ "/exports/" +:+
                         strftime_date_path now'' +:+ "/" |}.

(** The handler's [except Exception as e] block.  It reads the local
    variable [sns_topic_arn], which is bound only once the [try] body has
    passed its assignment; [None] stands for the unbound variable. *)
Definition on_exception (sns_topic_arn : option string) (e : Exn) : M Envelope :=
  let error_message := "Backup operation failed: " +:+ exn_str e in
  topic ← of_option sns_topic_arn (UnboundLocalError "sns_topic_arn");
  send_notification topic "Backup operation failed" (MsgText error_message) "ERROR";;
  mret {| statusCode := 500; body := BodyError error_message |}.

(** Lines 22-27 of the [try] body: up to the assignment of [sns_topic_arn]. *)
Definition handler_bindings (event : Event)
    : M (string * string * string * string * string) :=
  let action := default "create_snapshot" (event !! "action") in
  let backup_type := default "manual" (event !! "type") in
  db_instance_id ← getenv "DB_INSTANCE_ID";
  s3_bucket ← getenv "S3_BUCKET";
  sns_topic_arn ← getenv "SNS_TOPIC_ARN";
  mret (action, backup_type, db_instance_id, s3_bucket, sns_topic_arn).

(** The [if action == ...] chain. *)
Definition dispatch (event : Event) (action backup_type db_instance_id
    s3_bucket kms_key_id : string) (retention_days : Z) : M Result :=
  if decide (action = "create_snapshot") then
    r ← create_snapshot db_instance_id backup_type kms_key_id; mret (RCreate r)
  else if decide (action = "cleanup_snapshots") then
    r ← cleanup_old_snapshots db_instance_id retention_days; mret (RCleanup r)
  else if decide (action = "export_snapshot") then
    let snapshot_id := event !! "snapshot_id" in
    r ← export_snapshot_to_s3 snapshot_id s3_bucket kms_key_id; mret (RExport r)
  else raise (ValueError ("Unknown action: " +:+ action)).

(** Lines 28-52 of the [try] body. *)
Definition handler_rest (event : Event) (action backup_type db_instance_id
    s3_bucket sns_topic_arn : string) : M Envelope :=
  kms_key_id ← getenv "KMS_KEY_ID";
  retention_text ← getenv "RETENTION_DAYS";
  retention_days ← of_option (int_of_str retention_text)
    (ValueError ("invalid literal for int() with base 10: '" +:+
                 retention_text +:+ "'"));
  result ← dispatch event action backup_type db_instance_id s3_bucket
    kms_key_id retention_days;
  send_notification sns_topic_arn ("Backup operation successful: " +:+ action)
    (MsgResult result) "SUCCESS";;
  mret {| statusCode := 200;
          body := BodyResult
            ("Backup operation " +:+ action +:+ " completed successfully")
            result |}.

Definition handler (event : Event) : M Envelope :=
  bound ← attempt (handler_bindings event);
  match bound with
  | Raise e => on_exception None e
  | Ok (action, backup_type, db_instance_id, s3_bucket, sns_topic_arn) =>
      try_except
        (handler_rest event action backup_type db_instance_id s3_bucket
           sns_topic_arn)
        (on_exception (Some sns_topic_arn))
  end.

End BackupManager.

(** ** terraform/lambda/backup_verifier/index.py *)

Module BackupVerifier.
Import Py Model Cloud.

Definition get_db_credentials (secret_arn : string) : M (gmap string string) :=
  try_except (get_secret_value secret_arn) (λ e, raise e).

(** [snapshot['SnapshotCreateTime'].replace(tzinfo=None) > cutoff_time] *)
Definition recent_snapshots (cutoff_time : Z) (all_snapshots : list DBSnapshot)
    : list DBSnapshot :=
  filter (λ snapshot, cutoff_time < SnapshotCreateTime snapshot) all_snapshots.

(** [snapshot['Status'] == 'available'] *)
Definition available_snapshots (recent : list DBSnapshot) : list DBSnapshot :=
  filter (λ snapshot, Status snapshot = available) recent.

Definition snapshot_evidence (snapshot : DBSnapshot) : SnapshotEvidence :=
  {| ev_id := DBSnapshotIdentifier snapshot;
     ev_created := isoformat_utc (SnapshotCreateTime snapshot);
     ev_status := Status snapshot;
     ev_size_gb := AllocatedStorage snapshot |}.

Definition verify_recent_snapshots (db_instance_id : string)
    : M SnapshotVerification :=
  try_except
    (now ← utcnow;
     cutoff_time ← of_option (datetime_sub now (timedelta_hours 48))
       (OverflowError "date value out of range");
     automated_response ← describe_db_snapshots db_instance_id automated (Some 20%nat);
     manual_response ← describe_db_snapshots db_instance_id manual (Some 20%nat);
     let all_snapshots := (automated_response ++ manual_response)%list in
     let recent := recent_snapshots cutoff_time all_snapshots in
     let avail := available_snapshots recent in
     mret (SnapshotChecked
             (if (0 <? length avail)%nat then PASS else FAIL)
             (length recent) (length avail)
             (snapshot_evidence <$> take 5 avail)))
    (λ e, mret (SnapshotCheckFailed FAIL (exn_str e))).

(** [test_count == 1] *)
Definition equals_int (v : DbValue) (n : Z) : bool :=
  match v with
  | DbInt m => m =? n
  | _ => false
  end.

Definition test_database_connectivity (db_credentials : gmap string string)
    : M ConnectivityTest :=
  try_except
    (h ← subscript db_credentials "host";
     p ← subscript db_credentials "port";
     d ← subscript db_credentials "dbname";
     u ← subscript db_credentials "username";
     pw ← subscript db_credentials "password";
     connect {| host := h; port := p; dbname := d; username := u; password := pw |};;
     db_version ← execute SelectVersion;
     table_count ← execute CountPublicTables;
     product_count ←
       try_except_only is_psycopg2_error
         (execute CountProducts)
         (λ _, mret (DbText "N/A (table may not exist)"));
     now ← utcnow;
     let test_table_name := "backup_test_" +:+ pretty (int_timestamp now) in
     execute (CreateTestTable test_table_name);;
     execute (InsertTestRow test_table_name);;
     test_count ← execute (CountTestRows test_table_name);
     execute (DropTestTable test_table_name);;
     execute Commit;;
     mret (ConnectivityChecked PASS db_version table_count product_count
             (if equals_int test_count 1 then PASS else FAIL)))
    (λ e, mret (ConnectivityFailed FAIL (exn_str e))).

(** [obj['LastModified'].replace(tzinfo=None) > cutoff_time] *)
Definition recent_exports (cutoff_time : Z) (contents : list S3Object)
    : list S3Object :=
  filter (λ obj, cutoff_time < LastModified obj) contents.

(** [sorted(l, key=lambda x: x['LastModified'], reverse=True)]: newest
    first, objects of equal date in their original order. *)
Fixpoint insert_newest_first (x : S3Object) (l : list S3Object) : list S3Object :=
  match l with
  | [] => [x]
  | y :: l' =>
      if LastModified y <=? LastModified x then x :: y :: l'
      else y :: insert_newest_first x l'
  end.

Definition sorted_newest_first (l : list S3Object) : list S3Object :=
  foldr insert_newest_first [] l.

Definition export_evidence (obj : S3Object) : ExportEvidence :=
  {| ev_key := Key obj;
     ev_size := Size obj;
     ev_last_modified := isoformat_utc (LastModified obj) |}.

Definition verify_s3_backups (s3_bucket : string) : M S3Verification :=
  try_except
    (now ← utcnow;
     delta ← of_option (timedelta_days 7)
       (OverflowError "days is out of range for timedelta");
     cutoff_time ← of_option (datetime_sub now delta)
       (OverflowError "date value out of range");
     response ← list_objects_v2 s3_bucket "exports/";
     match response with
     | None => mret (S3NoExports WARN "No S3 exports found" 0)
     | Some contents =>
         let recent := recent_exports cutoff_time contents in
         mret (S3Checked
                 (if (0 <? length recent)%nat then PASS else WARN)
                 (length recent)
                 (foldr Z.add 0 (Size <$> recent))
                 (export_evidence <$> take 3 (sorted_newest_first recent)))
     end)
    (λ e, mret (S3CheckFailed FAIL (exn_str e))).

Definition store_verification_results (s3_bucket : string)
    (results : VerificationReport) : M unit :=
  try_except
    (now ← utcnow;
     let key := "verification-results/" +:+ strftime_result_path now +:+ ".json" in
     put_object s3_bucket key results)
    (λ e, mret tt).

Definition send_notification (sns_topic_arn subject : string)
    (message : Message) (status : string) : M unit :=
  try_except
    (now ← utcnow;
     publish {| TopicArn := sns_topic_arn;
                Subject := "[" +:+ status +:+ "] DhakaCart Backup Verification";
                n_subject := subject;
                n_message := message;
                n_timestamp := isoformat now;
                n_status := status |})
    (λ e, mret tt).

(** ['PASS' if all([...]) else 'FAIL'] *)
Definition overall (snapshot_verification : SnapshotVerification)
    (connectivity_test : ConnectivityTest) (s3_verification : S3Verification)
    : Verdict :=
  if forallb id
       [bool_decide (snapshot_status snapshot_verification = PASS);
        bool_decide (connectivity_status connectivity_test = PASS);
        bool_decide (s3_status s3_verification = PASS)]
  then PASS else FAIL.

(** The handler's [except Exception as e] block; [None] stands for the
    local variable [sns_topic_arn] being unbound. *)
Definition on_exception (sns_topic_arn : option string) (e : Exn) : M Envelope :=
  let error_message := "Backup verification failed: " +:+ exn_str e in
  topic ← of_option sns_topic_arn (UnboundLocalError "sns_topic_arn");
  send_notification topic "Backup Verification Failed" (MsgText error_message) "ERROR";;
  mret {| statusCode := 500; body := BodyError error_message |}.

(** Lines 23-25 of the [try] body: up to the assignment of [sns_topic_arn]. *)
Definition handler_bindings : M (string * string * string) :=
  db_instance_id ← getenv "DB_INSTANCE_ID";
  s3_bucket ← getenv "S3_BUCKET";
  sns_topic_arn ← getenv "SNS_TOPIC_ARN";
  mret (db_instance_id, s3_bucket, sns_topic_arn).

(** Lines 26-72 of the [try] body. *)
Definition handler_rest (db_instance_id s3_bucket sns_topic_arn : string)
    : M Envelope :=
  secret_arn ← getenv "SECRET_ARN";
  db_credentials ← get_db_credentials secret_arn;
  snapshot_verification ← verify_recent_snapshots db_instance_id;
  connectivity_test ← test_database_connectivity db_credentials;
  s3_verification ← verify_s3_backups s3_bucket;
  now ← utcnow;
  let verification_results :=
    {| timestamp := isoformat now;
       snapshot_verification := snapshot_verification;
       connectivity_test := connectivity_test;
       s3_verification := s3_verification;
       overall_status :=
         overall snapshot_verification connectivity_test s3_verification |} in
  store_verification_results s3_bucket verification_results;;
  send_notification sns_topic_arn
    ("Backup Verification " +:+ verdict_str (overall_status verification_results))
    (MsgReport verification_results)
    (verdict_str (overall_status verification_results));;
  mret {| statusCode := 200;
          body := BodyResults "Backup verification completed"
                    verification_results |}.

Definition handler (event : gmap string string) : M Envelope :=
  bound ← attempt handler_bindings;
  match bound with
  | Raise e => on_exception None e
  | Ok (db_instance_id, s3_bucket, sns_topic_arn) =>
      try_except
        (handler_rest db_instance_id s3_bucket sns_topic_arn)
        (on_exception (Some sns_topic_arn))
  end.

End BackupVerifier.


(** ** Vocabulary of the properties *)

Module Spec.
Import Py Model Cloud.

(** The ownership marker that [create_snapshot] puts on its snapshots. *)
Definition ownership_marker : string * string :=
  ("CreatedBy", "automated-backup-system").

Definition owned (s : DBSnapshot) : Prop := ownership_marker ∈ TagList s.

(** Identifiers and ARNs name one snapshot each. *)
Definition catalog_wf (l : list DBSnapshot) : Prop :=
  NoDup (DBSnapshotIdentifier <$> l) ∧ NoDup (DBSnapshotArn <$> l).

(** What the cleanup loop tests on each listed snapshot. *)
Definition eligible (cutoff : Z) (s : DBSnapshot) : Prop :=
  SnapshotCreateTime s < cutoff ∧ owned s.

#[export] Instance eligible_dec cutoff s : Decision (eligible cutoff s).
Proof. unfold eligible, owned. apply _. Defined.

(** The snapshot is no longer in the catalog of [w]. *)
Definition gone (s : DBSnapshot) (w : World) : Prop :=
  DBSnapshotIdentifier s ∉ (DBSnapshotIdentifier <$> snapshots w).

(** Requests to the result sink: notification and report persistence. *)
Definition is_sink (c : Call) : Prop :=
  match c with
  | Publish _ | PutObject _ _ => True
  | _ => False
  end.

(** Two worlds that differ at most in what the result sink does and holds. *)
Record same_but_sink (w1 w2 : World) : Prop := {
  sbs_clock : clock w1 = clock w2;
  sbs_environ : environ w1 = environ w2;
  sbs_instances : instances w1 = instances w2;
  sbs_snapshots : snapshots w1 = snapshots w2;
  sbs_completion : completion w1 = completion w2;
  sbs_export_tasks : export_tasks w1 = export_tasks w2;
  sbs_buckets : buckets w1 = buckets w2;
  sbs_secrets : secrets w1 = secrets w2;
  sbs_db_connect : db_connect w1 = db_connect w2;
  sbs_db_execute : db_execute w1 = db_execute w2;
  sbs_faults : ∀ c, ¬ is_sink c → faults w1 c = faults w2 c
}.

(** A computation whose outcome and effects outside the sink do not depend
    on the sink. *)
Definition sink_independent {A : Type} (c : M A) : Prop :=
  ∀ w1 w2, same_but_sink w1 w2 →
    (c w1).1 = (c w2).1 ∧ same_but_sink (c w1).2 (c w2).2.

(** A computation that leaves the world as it found it. *)
Definition read_only {A : Type} (c : M A) : Prop := ∀ w, (c w).2 = w.

(** The connection parameters read from the credentials dict. *)
Definition credentials_of (d : gmap string string) : option Credentials :=
  h ← d !! "host"; p ← d !! "port"; n ← d !! "dbname";
  u ← d !! "username"; pw ← d !! "password";
  Some {| host := h; port := p; dbname := n; username := u; password := pw |}.

Definition test_table_name (w : World) : string :=
  "backup_test_" +:+ pretty (int_timestamp (clock w)).

(** The statements of the probe that must succeed ([CountProducts] may fail). *)
Definition probe_script (w : World) : list Stmt :=
  [SelectVersion; CountPublicTables;
   CreateTestTable (test_table_name w); InsertTestRow (test_table_name w);
   CountTestRows (test_table_name w); DropTestTable (test_table_name w);
   Commit].

Definition succeeds (w : World) (q : Stmt) : Prop :=
  ∃ v, db_execute w q = DbRow v.

(** The objects that [list_objects_v2] reports under the export prefix. *)
Definition exports_under (objs : list S3Object) : list S3Object :=
  filter (λ o, String.prefix "exports/" (Key o)) objs.

(** The two pages that [verify_recent_snapshots] reads. *)
Definition listed_for_freshness (db : string) (w : World) : list DBSnapshot :=
  (take 20 (filter (λ s, DBInstanceIdentifier s = db ∧ SnapshotType s = automated)
                   (snapshots w)) ++
   take 20 (filter (λ s, DBInstanceIdentifier s = db ∧ SnapshotType s = manual)
                   (snapshots w)))%list.

(** The poll ceiling of [create_snapshot]: 120 attempts, 30 seconds apart;
    the last poll comes 119 delays after the first. *)
Definition poll_ceiling : Z := Z.of_nat 119 * (30 * usec_per_second).

(** What the waiter raises when its attempts are used up. *)
Definition max_attempts_exceeded : Exn :=
  WaiterError "Waiter DBSnapshotCompleted failed: Max attempts exceeded".

End Spec.

(** ** Concrete worlds *)

Module Scenario.
Import Py Model Cloud.

Definition t0 : Z := 1700000000 * usec_per_second.   (* 2023-11-14T22:13:20 *)

Definition env0 : gmap string string :=
  list_to_map
    [("DB_INSTANCE_ID", "dhakacart-db"); ("S3_BUCKET", "dhakacart-backups");
     ("SNS_TOPIC_ARN", "arn:aws:sns:::backup-alerts"); ("KMS_KEY_ID", "kms-1");
     ("RETENTION_DAYS", "7"); ("SECRET_ARN", "arn:aws:secretsmanager:::db")].

Definition snap (id : string) (age_days : Z) (kind : SnapshotKind)
    (tags : list (string * string)) : DBSnapshot :=
  {| DBSnapshotIdentifier := id;
     DBSnapshotArn := snapshot_arn id;
     DBInstanceIdentifier := "dhakacart-db";
     SnapshotCreateTime := t0 - age_days * usec_per_day;
     Status := available;
     AllocatedStorage := 20;
     SnapshotType := kind;
     TagList := tags |}.

Definition marker : list (string * string) :=
  [("BackupType", "manual"); ("CreatedBy", "automated-backup-system")].

(** Retention horizon 7 days: one owned snapshot of 8 days, one unmarked of
    8 days, one owned of 5 days, one platform snapshot of 8 days, one owned
    snapshot created exactly at the cutoff. *)
Definition catalog0 : list DBSnapshot :=
  [snap "old-owned" 8 manual marker;
   snap "old-foreign" 8 manual [];
   snap "young-owned" 5 manual marker;
   snap "rds:old-platform" 8 automated marker;
   snap "boundary-owned" 7 manual marker].

Definition creds0 : gmap string string :=
  list_to_map
    [("host", "db.internal"); ("port", "5432"); ("dbname", "dhakacart");
     ("username", "backup"); ("password", "secret")].

Definition db0 (round_trip : Z) (q : Stmt) : DbReply :=
  match q with
  | SelectVersion => DbRow (DbText "PostgreSQL 15.4")
  | CountPublicTables => DbRow (DbInt 12)
  | CountProducts => DbFailure "relation products does not exist"
  | CountTestRows _ => DbRow (DbInt round_trip)
  | _ => DbRow DbNull
  end.

Definition objects0 : list S3Object :=
  [{| Key := "exports/2023/11/12/dump.parquet"; Size := 4096;
      LastModified := t0 - 2 * usec_per_day |};
   {| Key := "exports/2023/10/01/dump.parquet"; Size := 2048;
      LastModified := t0 - 44 * usec_per_day |};
   {| Key := "verification-results/2023/11/13/01-00-00.json"; Size := 10;
      LastModified := t0 - usec_per_day |}].

Definition no_faults : Call → option string := λ _, None.

Definition world0 : World :=
  {| clock := t0;
     environ := env0;
     instances := {[ "dhakacart-db" := 20 ]};
     snapshots := catalog0;
     completion := λ _, Some (60 * usec_per_second);
     export_tasks := [];
     buckets := {[ "dhakacart-backups" := objects0 ]};
     stored := [];
     secrets := {[ "arn:aws:secretsmanager:::db" := creds0 ]};
     db_connect := λ _, None;
     db_execute := db0 1;
     published := [];
     faults := no_faults |}.

(** The same world with another environment, database or platform. *)
Definition with_environ (env : gmap string string) (w : World) : World :=
  {| clock := clock w; environ := env; instances := instances w;
     snapshots := snapshots w; completion := completion w;
     export_tasks := export_tasks w; buckets := buckets w; stored := stored w;
     secrets := secrets w; db_connect := db_connect w;
     db_execute := db_execute w; published := published w;
     faults := faults w |}.

Definition with_database (db : Stmt → DbReply) (w : World) : World :=
  {| clock := clock w; environ := environ w; instances := instances w;
     snapshots := snapshots w; completion := completion w;
     export_tasks := export_tasks w; buckets := buckets w; stored := stored w;
     secrets := secrets w; db_connect := db_connect w;
     db_execute := db; published := published w;
     faults := faults w |}.

Definition with_completion (c : string → option Z) (w : World) : World :=
  {| clock := clock w; environ := environ w; instances := instances w;
     snapshots := snapshots w; completion := c;
     export_tasks := export_tasks w; buckets := buckets w; stored := stored w;
     secrets := secrets w; db_connect := db_connect w;
     db_execute := db_execute w; published := published w;
     faults := faults w |}.

(** The environment lacks the instance identifier. *)
Definition world_unconfigured : World :=
  with_environ (delete "DB_INSTANCE_ID" env0) world0.

(** The scratch table reads back no row. *)
Definition world_lost_row : World := with_database (db0 0) world0.

(** The platform never finishes a snapshot. *)
Definition world_stuck : World := with_completion (λ _, None) world0.

(** The sink is down: publishing and storing fail. *)
Definition sink_down (c : Call) : option string :=
  match c with
  | Publish _ | PutObject _ _ => Some "ServiceUnavailable"
  | _ => None
  end.

Definition world_sink_down : World := set_faults sink_down world0.

End Scenario.

(** ** Vocabulary of the further properties *)

Module Behaviour.
Import Py Model Cloud Spec.

(** A computation that leaves the projection [f] of the world as it found
    it, however it ends. *)
Definition preserves {A B : Type} (f : World → B) (c : M A) : Prop :=
  ∀ w, f (c w).2 = f w.

(** A projection of the world that the control plane's updates leave alone. *)
Definition aside {B : Type} (f : World → B) : Prop :=
  (∀ l w, f (set_snapshots l w) = f w) ∧
  (∀ l w, f (set_export_tasks l w) = f w) ∧
  (∀ t w, f (set_clock t w) = f w).

(** The catalog with the statuses blanked out: the platform moves a
    snapshot from [creating] to [available] on its own. *)
Definition identities (w : World) : list DBSnapshot :=
  with_status creating <$> snapshots w.

(** The record that [create_snapshot] asks the platform to create at time
    [now], in status [st]. *)
Definition requested_snapshot (db backup_type : string) (now storage : Z)
    (st : SnapshotStatus) : DBSnapshot :=
  let timestamp := strftime_dashed now in
  let id := db +:+ "-" +:+ backup_type +:+ "-" +:+ timestamp in
  {| DBSnapshotIdentifier := id;
     DBSnapshotArn := snapshot_arn id;
     DBInstanceIdentifier := db;
     SnapshotCreateTime := now;
     Status := st;
     AllocatedStorage := storage;
     SnapshotType := manual;
     TagList := [("BackupType", backup_type);
                 ("CreatedBy", "automated-backup-system");
                 ("Timestamp", timestamp)] |}.

(** The notification that the manager's [send_notification] publishes in
    the world [w]. *)
Definition manager_notification (w : World) (topic subject : string)
    (message : Message) (status : string) : Notification :=
  {| TopicArn := topic;
     Subject := "[" +:+ status +:+ "] DhakaCart Backup Notification";
     n_subject := subject; n_message := message;
     n_timestamp := isoformat (clock w); n_status := status |}.

(** The notification that the verifier's [send_notification] publishes in
    the world [w]. *)
Definition verifier_notification (w : World) (topic subject : string)
    (message : Message) (status : string) : Notification :=
  {| TopicArn := topic;
     Subject := "[" +:+ status +:+ "] DhakaCart Backup Verification";
     n_subject := subject; n_message := message;
     n_timestamp := isoformat (clock w); n_status := status |}.

(** The key under which [store_verification_results] writes in the world
    [w]. *)
Definition result_key (w : World) : string :=
  "verification-results/" +:+ strftime_result_path (clock w) +:+ ".json".

(** Every object is at least as new as all the objects after it. *)
Fixpoint newest_first (l : list S3Object) : Prop :=
  match l with
  | [] => True
  | x :: l' =>
      (∀ y, y ∈ l' → LastModified y ≤ LastModified x) ∧ newest_first l'
  end.

(** What a run of the manager for [action] may have done between the
    worlds [w] and [w']: nothing to the stored reports; the clock moved
    forward by at most the poll ceiling; only the export action adds export
    tasks, and at most one; only the creation action moves the clock or adds
    to the catalog, and at most one snapshot; only the cleanup action takes
    snapshots out of the catalog. *)
Definition own_resource (action : string) (w w' : World) : Prop :=
  stored w' = stored w ∧
  clock w ≤ clock w' ≤ clock w + poll_ceiling ∧
  (action ≠ "export_snapshot" → export_tasks w' = export_tasks w) ∧
  (action ≠ "create_snapshot" →
     clock w' = clock w ∧ snapshots w' `sublist_of` snapshots w) ∧
  (action ≠ "cleanup_snapshots" →
     ∃ new, identities w' = (identities w ++ new)%list ∧ (length new ≤ 1)%nat) ∧
  (action = "export_snapshot" →
     snapshots w' = snapshots w ∧
     ∃ t, export_tasks w' = (export_tasks w ++ t)%list ∧ (length t ≤ 1)%nat).

End Behaviour.

(** * Properties *)

(** ** Running the monad *)

Section Running.
Import Py Model Cloud.

Lemma bind_run {A B : Type} (c : M A) (k : A → M B) (w : World) :
  (c ≫= k) w =
    match c w with
    | (Ok a, w') => k a w'
    | (Raise e, w') => (Raise e, w')
    end.
Proof. reflexivity. Qed.

Lemma request_run (c : Call) (w : World) :
  request c w =
    match faults w c with
    | Some code => (Raise (ClientError (call_name c) code), w)
    | None => (Ok (), w)
    end.
Proof. unfold request, gets. rewrite bind_run. by destruct (faults w c). Qed.

Lemma timedelta_days_Some (d delta : Z) :
  timedelta_days d = Some delta → delta = d * usec_per_day.
Proof. unfold timedelta_days. case_match; congruence. Qed.

Lemma datetime_sub_Some (dt delta r : Z) :
  datetime_sub dt delta = Some r →
  r = dt - delta ∧ datetime_min ≤ r ≤ datetime_max.
Proof.
  unfold datetime_sub. cbn zeta. case_match eqn:E; [|done].
  intros [= <-]. apply andb_true_iff in E as [?%Z.leb_le ?%Z.leb_le]. done.
Qed.

Lemma datetime_sub_in_range (dt delta : Z) :
  datetime_min ≤ dt - delta ≤ datetime_max →
  datetime_sub dt delta = Some (dt - delta).
Proof.
  intros [H1 H2]. unfold datetime_sub. cbn zeta.
  apply Z.leb_le in H1, H2. by rewrite H1, H2.
Qed.

End Running.

(** Unfold the monad's operations where they are applied to a world. *)
Ltac munfold :=
  repeat (progress (unfold mbind, Cloud.M_bind, mret, Cloud.M_ret, Cloud.gets,
                      Cloud.modify, Cloud.raise, Cloud.of_option;
                    cbn beta iota)).

(** One step of a run that is known to return: the first computation of
    the bind returned [a] and left the world [w1]. *)
Ltac bind_inv H a w1 E :=
  rewrite bind_run in H;
  lazymatch type of H with
  | (match ?c ?w with _ => _ end) = _ =>
      destruct (c w) as [[a|?] w1] eqn:E; [|discriminate H]
  end.

(** Membership in a list that is written out. *)
Ltac in_list :=
  repeat first [apply list_elem_of_here | apply list_elem_of_further].

(** ** The snapshot catalog *)

Section Catalog.
Import Py Model Cloud Spec.

Lemma filter_all {A : Type} (P : A → Prop) `{!∀ x, Decision (P x)} (l : list A) :
  (∀ x, x ∈ l → P x) → filter P l = l.
Proof.
  induction l as [|a l IH]; intros Hall; [done|].
  rewrite filter_cons_True by (apply Hall; left). f_equal. apply IH.
  intros x Hx. apply Hall. by right.
Qed.

Lemma filter_none {A : Type} (P : A → Prop) `{!∀ x, Decision (P x)} (l : list A) :
  (∀ x, x ∈ l → ¬ P x) → filter P l = [].
Proof.
  induction l as [|a l IH]; intros Hall; [done|].
  rewrite filter_cons_False by (apply Hall; left). apply IH.
  intros x Hx. apply Hall. by right.
Qed.

Lemma find_by_arn_elem (s : DBSnapshot) (l : list DBSnapshot) :
  NoDup (DBSnapshotArn <$> l) → s ∈ l → find_by_arn (DBSnapshotArn s) l = Some s.
Proof.
  induction l as [|x l IH]; intros Hnd Hin; [by apply not_elem_of_nil in Hin|].
  rewrite fmap_cons in Hnd. apply NoDup_cons in Hnd as [Hx Hnd].
  cbn. case_bool_decide as Heq.
  - apply elem_of_cons in Hin as [->|Hin]; [done|].
    exfalso. apply Hx. rewrite Heq. by apply list_elem_of_fmap_2.
  - apply elem_of_cons in Hin as [->|Hin]; [done|]. by apply IH.
Qed.

Lemma find_snapshot_elem (s : DBSnapshot) (l : list DBSnapshot) :
  NoDup (DBSnapshotIdentifier <$> l) → s ∈ l →
  find_snapshot (DBSnapshotIdentifier s) l = Some s.
Proof.
  induction l as [|x l IH]; intros Hnd Hin; [by apply not_elem_of_nil in Hin|].
  rewrite fmap_cons in Hnd. apply NoDup_cons in Hnd as [Hx Hnd].
  cbn. case_bool_decide as Heq.
  - apply elem_of_cons in Hin as [->|Hin]; [done|].
    exfalso. apply Hx. rewrite Heq. by apply list_elem_of_fmap_2.
  - apply elem_of_cons in Hin as [->|Hin]; [done|]. by apply IH.
Qed.

(** In a well-formed catalog the identifier determines the snapshot. *)
Lemma same_identifier (x y : DBSnapshot) (l : list DBSnapshot) :
  catalog_wf l → x ∈ l → y ∈ l →
  DBSnapshotIdentifier x = DBSnapshotIdentifier y → x = y.
Proof.
  intros [Hids _] Hx Hy Heq.
  pose proof (find_snapshot_elem x _ Hids Hx) as Hfx.
  pose proof (find_snapshot_elem y _ Hids Hy) as Hfy.
  rewrite Heq in Hfx. congruence.
Qed.

Lemma NoDup_fmap_filter {B : Type} (f : DBSnapshot → B) (P : DBSnapshot → Prop)
    `{!∀ x, Decision (P x)} (l : list DBSnapshot) :
  NoDup (f <$> l) → NoDup (f <$> filter P l).
Proof.
  induction l as [|x l IH]; [done|]. rewrite fmap_cons, NoDup_cons.
  intros [Hx Hnd]. rewrite filter_cons. case_decide; [|by apply IH].
  rewrite fmap_cons, NoDup_cons. split; [|by apply IH].
  intros (y & Hy & [_ Hin]%list_elem_of_filter)%list_elem_of_fmap.
  apply Hx. rewrite Hy. by apply list_elem_of_fmap_2.
Qed.

Lemma catalog_wf_filter (P : DBSnapshot → Prop) `{!∀ x, Decision (P x)}
    (l : list DBSnapshot) :
  catalog_wf l → catalog_wf (filter P l).
Proof. intros [H1 H2]. split; by apply NoDup_fmap_filter. Qed.

Lemma catalog_wf_remove (id : string) (l : list DBSnapshot) :
  catalog_wf l → catalog_wf (remove_snapshot id l).
Proof. apply catalog_wf_filter. Qed.

Lemma remove_snapshot_elem (id : string) (x : DBSnapshot) (l : list DBSnapshot) :
  x ∈ remove_snapshot id l ↔ DBSnapshotIdentifier x ≠ id ∧ x ∈ l.
Proof. unfold remove_snapshot. by rewrite list_elem_of_filter. Qed.

Lemma elem_not_gone (s : DBSnapshot) (w : World) : s ∈ snapshots w → ¬ gone s w.
Proof. intros Hin Hg. apply Hg. by apply list_elem_of_fmap_2. Qed.

Lemma is_ownership_tag_spec (tags : list (string * string)) :
  existsb BackupManager.is_ownership_tag tags = true ↔ ownership_marker ∈ tags.
Proof.
  rewrite existsb_exists. split.
  - intros ([k v] & Hin & H). apply list_elem_of_In in Hin.
    unfold BackupManager.is_ownership_tag in H. cbn in H.
    apply andb_true_iff in H as [H1 H2].
    apply bool_decide_eq_true in H1, H2. subst. exact Hin.
  - intros H. exists ownership_marker. split; [by apply list_elem_of_In|done].
Qed.

Lemma list_tags_run (arn : string) (w : World) :
  list_tags_for_resource arn w =
    match faults w (ListTagsForResource arn) with
    | Some code => (Raise (ClientError "ListTagsForResource" code), w)
    | None =>
        match find_by_arn arn (snapshots w) with
        | Some s => (Ok (TagList s), w)
        | None => (Raise (ClientError "ListTagsForResource" "DBSnapshotNotFound"), w)
        end
    end.
Proof.
  unfold list_tags_for_resource. rewrite bind_run, request_run.
  destruct (faults w _); [done|]. munfold. by destruct (find_by_arn _ _).
Qed.

Lemma delete_run (id : string) (w : World) :
  delete_db_snapshot id w =
    match faults w (DeleteDBSnapshot id) with
    | Some code => (Raise (ClientError "DeleteDBSnapshot" code), w)
    | None =>
        match find_snapshot id (snapshots w) with
        | Some _ => (Ok (), set_snapshots (remove_snapshot id (snapshots w)) w)
        | None => (Raise (ClientError "DeleteDBSnapshot" "DBSnapshotNotFound"), w)
        end
    end.
Proof.
  unfold delete_db_snapshot. rewrite bind_run, request_run.
  destruct (faults w _); [done|]. munfold. by destruct (find_snapshot _ _).
Qed.

Lemma describe_run (instance : string) (kind : SnapshotKind)
    (max_records : option nat) (w : World) :
  describe_db_snapshots instance kind max_records w =
    match faults w DescribeDBSnapshots with
    | Some code => (Raise (ClientError "DescribeDBSnapshots" code), w)
    | None =>
        let matching :=
          filter (λ s, DBInstanceIdentifier s = instance ∧ SnapshotType s = kind)
                 (snapshots w) in
        (Ok (match max_records with Some n => take n matching | None => matching end), w)
    end.
Proof.
  unfold describe_db_snapshots. rewrite bind_run, request_run.
  by destruct (faults w _).
Qed.

End Catalog.

(** ** Retention: [cleanup_old_snapshots] *)

Section Retention.
Import Py Model Cloud Spec BackupManager.

(** The loop, when it runs to its end. *)
Lemma cleanup_loop_ok (cutoff : Z) (resp : list DBSnapshot) :
  ∀ deleted w r w',
    catalog_wf (snapshots w) →
    NoDup (DBSnapshotIdentifier <$> resp) →
    (∀ s, s ∈ resp → s ∈ snapshots w) →
    cleanup_loop cutoff resp deleted w = (Ok r, w') →
    r = (deleted ++ (DBSnapshotIdentifier <$> filter (eligible cutoff) resp))%list ∧
    snapshots w' =
      filter (λ x, DBSnapshotIdentifier x ∉
                     (DBSnapshotIdentifier <$> filter (eligible cutoff) resp))
             (snapshots w).
Proof.
  induction resp as [|s rest IH]; intros deleted w r w' Hwf Hnd Hsub Hrun.
  - cbn in Hrun. injection Hrun as <- <-. rewrite app_nil_r. split; [done|].
    cbn. symmetry. apply filter_all. intros x _. apply not_elem_of_nil.
  - rewrite fmap_cons in Hnd. apply NoDup_cons in Hnd as [Hs Hnd].
    assert (Hin : s ∈ snapshots w) by (apply Hsub; left).
    assert (Hrest : ∀ x, x ∈ rest → x ∈ snapshots w)
      by (intros; apply Hsub; by right).
    cbn [cleanup_loop] in Hrun.
    destruct (Z.ltb_spec (SnapshotCreateTime s) cutoff) as [Hlt|Hge].
    + rewrite bind_run, list_tags_run in Hrun.
      destruct (faults w (ListTagsForResource _)); [done|].
      rewrite (find_by_arn_elem s) in Hrun by (done || apply Hwf).
      destruct (existsb is_ownership_tag (TagList s)) eqn:Hown.
      * rewrite bind_run, delete_run in Hrun.
        destruct (faults w (DeleteDBSnapshot _)); [done|].
        rewrite (find_snapshot_elem s) in Hrun by (done || apply Hwf).
        apply IH in Hrun as [-> Hcat]; cbn [snapshots set_snapshots] in *.
        -- apply is_ownership_tag_spec in Hown.
           rewrite filter_cons_True by done. rewrite fmap_cons.
           split; [by rewrite <- app_assoc|].
           rewrite Hcat. unfold remove_snapshot. rewrite list_filter_filter.
           apply list_filter_iff. intros x. rewrite not_elem_of_cons. tauto.
        -- by apply catalog_wf_remove.
        -- done.
        -- intros x Hx. apply remove_snapshot_elem. split; [|by apply Hrest].
           intros Heq. apply Hs. rewrite <- Heq. by apply list_elem_of_fmap_2.
      * apply IH in Hrun as [-> Hcat]; try done.
        assert (¬ eligible cutoff s) as Hne.
        { intros [_ Ho]. apply is_ownership_tag_spec in Ho. congruence. }
        rewrite filter_cons_False by done. done.
    + apply IH in Hrun as [-> Hcat]; try done.
      assert (¬ eligible cutoff s) as Hne by (intros [Ho _]; lia).
      rewrite filter_cons_False by done. done.
Qed.

(** The loop, however it ends: what left the catalog was listed and eligible. *)
Lemma cleanup_loop_safe (cutoff : Z) (resp : list DBSnapshot) :
  ∀ deleted w o w',
    catalog_wf (snapshots w) →
    NoDup (DBSnapshotIdentifier <$> resp) →
    (∀ s, s ∈ resp → s ∈ snapshots w) →
    cleanup_loop cutoff resp deleted w = (o, w') →
    ∀ x, x ∈ snapshots w →
      x ∈ snapshots w' ∨ (x ∈ resp ∧ eligible cutoff x).
Proof.
  induction resp as [|s rest IH]; intros deleted w o w' Hwf Hnd Hsub Hrun x Hx.
  - cbn in Hrun. injection Hrun as <- <-. by left.
  - rewrite fmap_cons in Hnd. apply NoDup_cons in Hnd as [Hs Hnd].
    assert (Hin : s ∈ snapshots w) by (apply Hsub; left).
    assert (Hrest : ∀ y, y ∈ rest → y ∈ snapshots w)
      by (intros; apply Hsub; by right).
    assert (Hweak : x ∈ snapshots w' ∨ x ∈ rest ∧ eligible cutoff x →
                    x ∈ snapshots w' ∨ x ∈ s :: rest ∧ eligible cutoff x).
    { intros [?|[? ?]]; [by left|right; split; [by right|done]]. }
    cbn [cleanup_loop] in Hrun.
    destruct (Z.ltb_spec (SnapshotCreateTime s) cutoff) as [Hlt|Hge];
      [|by apply Hweak; eapply IH].
    rewrite bind_run, list_tags_run in Hrun.
    destruct (faults w (ListTagsForResource _));
      [injection Hrun as <- <-; by left|].
    rewrite (find_by_arn_elem s) in Hrun by (done || apply Hwf).
    destruct (existsb is_ownership_tag (TagList s)) eqn:Hown;
      [|by apply Hweak; eapply IH].
    apply is_ownership_tag_spec in Hown.
    rewrite bind_run, delete_run in Hrun.
    destruct (faults w (DeleteDBSnapshot _));
      [injection Hrun as <- <-; by left|].
    rewrite (find_snapshot_elem s) in Hrun by (done || apply Hwf).
    destruct (decide (DBSnapshotIdentifier x = DBSnapshotIdentifier s)) as [Heq|Hne].
    + right. assert (x = s) as -> by (by eapply same_identifier).
      split; [left|done].
    + apply Hweak. eapply IH; [| | |exact Hrun|]; cbn [snapshots set_snapshots].
      * by apply catalog_wf_remove.
      * done.
      * intros y Hy. apply remove_snapshot_elem. split; [|by apply Hrest].
        intros Heq. apply Hs. rewrite <- Heq. by apply list_elem_of_fmap_2.
      * by apply remove_snapshot_elem.
Qed.


Lemma cleanup_run (db : string) (retention_days : Z) (w : World) :
  cleanup_old_snapshots db retention_days w =
    match timedelta_days retention_days with
    | None => (Raise (OverflowError "days is out of range for timedelta"), w)
    | Some delta =>
        match datetime_sub (clock w) delta with
        | None => (Raise (OverflowError "date value out of range"), w)
        | Some cutoff =>
            match faults w DescribeDBSnapshots with
            | Some code => (Raise (ClientError "DescribeDBSnapshots" code), w)
            | None =>
                match cleanup_loop cutoff
                        (filter (λ s, DBInstanceIdentifier s = db
                                      ∧ SnapshotType s = manual)
                                (snapshots w)) [] w with
                | (Ok d, w') =>
                    (Ok {| deleted_count := length d; deleted_snapshots := d |}, w')
                | (Raise e, w') => (Raise e, w')
                end
            end
        end
    end.
Proof.
  unfold cleanup_old_snapshots, utcnow. munfold.
  destruct (timedelta_days _); [|done].
  destruct (datetime_sub _ _); [|done].
  rewrite describe_run. destruct (faults w _); [done|]. reflexivity.
Qed.

(** What a cleanup run can take away, however it ends. *)
Lemma cleanup_safe (db : string) (retention_days : Z) (w : World)
    (o : Res CleanupResult) (w' : World) (x : DBSnapshot) :
  catalog_wf (snapshots w) →
  cleanup_old_snapshots db retention_days w = (o, w') →
  x ∈ snapshots w →
  x ∈ snapshots w' ∨
  (DBInstanceIdentifier x = db ∧ SnapshotType x = manual ∧
   eligible (clock w - retention_days * usec_per_day) x).
Proof.
  intros Hwf Hrun Hin. rewrite cleanup_run in Hrun.
  destruct (timedelta_days _) as [delta|] eqn:Hdelta;
    [|injection Hrun as <- <-; by left].
  apply timedelta_days_Some in Hdelta as ->.
  destruct (datetime_sub _ _) as [c|] eqn:Hc;
    [|injection Hrun as <- <-; by left].
  apply datetime_sub_Some in Hc as [-> _].
  destruct (faults w DescribeDBSnapshots); [injection Hrun as <- <-; by left|].
  destruct (cleanup_loop _ _ _ _) as [o1 w1] eqn:Hloop.
  assert (w' = w1) as -> by (destruct o1; congruence).
  eapply cleanup_loop_safe in Hloop as [?|[[[? ?] _]%list_elem_of_filter ?]];
    [by left|by right|done|by apply NoDup_fmap_filter, Hwf| |done].
  by intros y [_ ?]%list_elem_of_filter.
Qed.

(** What a completed cleanup run has done. *)
Lemma cleanup_ok (db : string) (retention_days : Z) (w : World)
    (r : CleanupResult) (w' : World) :
  catalog_wf (snapshots w) →
  cleanup_old_snapshots db retention_days w = (Ok r, w') →
  let resp := filter (λ s, DBInstanceIdentifier s = db ∧ SnapshotType s = manual)
                     (snapshots w) in
  let taken := DBSnapshotIdentifier <$>
                 filter (eligible (clock w - retention_days * usec_per_day)) resp in
  deleted_snapshots r = taken ∧
  deleted_count r = length taken ∧
  snapshots w' = filter (λ x, DBSnapshotIdentifier x ∉ taken) (snapshots w) ∧
  is_Some (timedelta_days retention_days) ∧
  datetime_min ≤ clock w - retention_days * usec_per_day ≤ datetime_max.
Proof.
  intros Hwf Hrun resp taken. rewrite cleanup_run in Hrun.
  destruct (timedelta_days _) as [delta|] eqn:Hdelta; [|done].
  apply timedelta_days_Some in Hdelta as ->.
  destruct (datetime_sub _ _) as [c|] eqn:Hc; [|done].
  apply datetime_sub_Some in Hc as [-> Hrange].
  destruct (faults w DescribeDBSnapshots); [done|].
  destruct (cleanup_loop _ _ _ _) as [[d|e] w1] eqn:Hloop; [|done].
  injection Hrun as <- <-.
  apply cleanup_loop_ok in Hloop as [-> Hcat];
    [|done|by apply NoDup_fmap_filter, Hwf|by intros y [_ ?]%list_elem_of_filter].
  cbn [deleted_snapshots deleted_count]. rewrite app_nil_l. done.
Qed.

(** A listed identifier is that of an eligible manual snapshot of the
    instance. *)
Lemma taken_spec (db : string) (cutoff : Z) (l : list DBSnapshot) (s : DBSnapshot) :
  catalog_wf l → s ∈ l →
  DBSnapshotIdentifier s ∈
    (DBSnapshotIdentifier <$>
       filter (eligible cutoff)
         (filter (λ s, DBInstanceIdentifier s = db ∧ SnapshotType s = manual) l))
  ↔ (DBInstanceIdentifier s = db ∧ SnapshotType s = manual ∧ eligible cutoff s).
Proof.
  intros Hwf Hin. split.
  - intros (y & Hy & [? [[? ?] Hyin]%list_elem_of_filter]%list_elem_of_filter)%list_elem_of_fmap.
    assert (s = y) as <- by (by eapply same_identifier). done.
  - intros (? & ? & ?). apply list_elem_of_fmap_2.
    apply list_elem_of_filter. split; [done|]. by apply list_elem_of_filter.
Qed.

End Retention.

(** ** The verifier's three checks *)

Section Checks.
Import Py Model Cloud Spec BackupVerifier.

Lemma try_except_run {A : Type} (c : M A) (h : Exn → M A) (w : World) :
  try_except c h w =
    match c w with
    | (Ok a, w') => (Ok a, w')
    | (Raise e, w') => h e w'
    end.
Proof. reflexivity. Qed.

Lemma execute_run (q : Stmt) (w : World) :
  execute q w =
    match db_execute w q with
    | DbRow v => (Ok v, w)
    | DbFailure msg => (Raise (Psycopg2Error msg), w)
    end.
Proof. unfold execute. munfold. by destruct (db_execute w q). Qed.

Lemma connect_run (c : Credentials) (w : World) :
  connect c w =
    match db_connect w c with
    | Some msg => (Raise (Psycopg2Error msg), w)
    | None => (Ok (), w)
    end.
Proof. unfold connect. munfold. by destruct (db_connect w c). Qed.

Lemma list_objects_run (bucket prefix : string) (w : World) :
  list_objects_v2 bucket prefix w =
    match faults w (ListObjectsV2 bucket) with
    | Some code => (Raise (ClientError "ListObjectsV2" code), w)
    | None =>
        match buckets w !! bucket with
        | None => (Raise (ClientError "ListObjectsV2" "NoSuchBucket"), w)
        | Some objs =>
            match filter (λ o, String.prefix prefix (Key o)) objs with
            | [] => (Ok None, w)
            | o :: l => (Ok (Some (o :: l)), w)
            end
        end
    end.
Proof.
  unfold list_objects_v2. rewrite bind_run, request_run.
  destruct (faults w _); [done|]. munfold.
  destruct (buckets w !! bucket); [|done]. by destruct (filter _ _).
Qed.

Lemma verify_s3_run (bucket : string) (w : World) :
  verify_s3_backups bucket w =
    (Ok match datetime_sub (clock w) (7 * usec_per_day) with
        | None => S3CheckFailed FAIL "date value out of range"
        | Some cutoff_time =>
            match faults w (ListObjectsV2 bucket) with
            | Some code =>
                S3CheckFailed FAIL (exn_str (ClientError "ListObjectsV2" code))
            | None =>
                match buckets w !! bucket with
                | None =>
                    S3CheckFailed FAIL
                      (exn_str (ClientError "ListObjectsV2" "NoSuchBucket"))
                | Some objs =>
                    match exports_under objs with
                    | [] => S3NoExports WARN "No S3 exports found" 0
                    | contents =>
                        let recent := recent_exports cutoff_time contents in
                        S3Checked
                          (if (0 <? length recent)%nat then PASS else WARN)
                          (length recent)
                          (foldr Z.add 0 (Size <$> recent))
                          (export_evidence <$> take 3 (sorted_newest_first recent))
                    end
                end
            end
        end, w).
Proof.
  unfold verify_s3_backups. rewrite try_except_run. unfold utcnow.
  rewrite bind_run. unfold gets at 1. cbn beta iota.
  change (timedelta_days 7) with (Some (7 * usec_per_day)).
  rewrite bind_run. unfold of_option at 1. unfold mret at 1, M_ret.
  cbn beta iota. rewrite bind_run.
  destruct (datetime_sub _ _) as [cutoff|]; [|done].
  unfold of_option, mret, M_ret. cbn beta iota.
  rewrite bind_run, list_objects_run.
  destruct (faults w _); [done|].
  destruct (buckets w !! bucket); [|done].
  unfold exports_under. by destruct (filter _ _).
Qed.

Lemma verify_recent_run (db : string) (w : World) :
  verify_recent_snapshots db w =
    (Ok match datetime_sub (clock w) (timedelta_hours 48) with
        | None => SnapshotCheckFailed FAIL "date value out of range"
        | Some cutoff_time =>
            match faults w DescribeDBSnapshots with
            | Some code =>
                SnapshotCheckFailed FAIL
                  (exn_str (ClientError "DescribeDBSnapshots" code))
            | None =>
                let recent :=
                  recent_snapshots cutoff_time (listed_for_freshness db w) in
                let avail := available_snapshots recent in
                SnapshotChecked
                  (if (0 <? length avail)%nat then PASS else FAIL)
                  (length recent) (length avail)
                  (snapshot_evidence <$> take 5 avail)
            end
        end, w).
Proof.
  unfold verify_recent_snapshots. rewrite try_except_run. unfold utcnow.
  rewrite bind_run. unfold gets at 1. cbn beta iota. rewrite bind_run.
  destruct (datetime_sub _ _) as [cutoff|]; [|done].
  unfold of_option, mret, M_ret. cbn beta iota.
  rewrite bind_run, describe_run.
  destruct (faults w DescribeDBSnapshots) eqn:Hf; [done|]. cbn beta iota zeta.
  rewrite bind_run, describe_run, Hf. reflexivity.
Qed.

Lemma subscript_run {A : Type} (d : gmap string A) (k : string) (w : World) :
  subscript d k w =
    match d !! k with
    | Some v => (Ok v, w)
    | None => (Raise (KeyError k), w)
    end.
Proof. unfold subscript. by destruct (d !! k). Qed.

(** Computations that leave the collaborators' world as it is. *)
Lemma read_only_ret {A : Type} (a : A) : read_only (mret a : M A).
Proof. by intros w. Qed.

Lemma read_only_raise {A : Type} (e : Exn) : read_only (raise e : M A).
Proof. by intros w. Qed.

Lemma read_only_bind {A B : Type} (c : M A) (k : A → M B) :
  read_only c → (∀ a, read_only (k a)) → read_only (c ≫= k).
Proof.
  intros Hc Hk w. rewrite bind_run. specialize (Hc w).
  destruct (c w) as [[a|e] w1]; cbn in Hc; subst; [apply Hk|done].
Qed.

Lemma read_only_try_except {A : Type} (c : M A) (h : Exn → M A) :
  read_only c → (∀ e, read_only (h e)) → read_only (try_except c h).
Proof.
  intros Hc Hh w. rewrite try_except_run. specialize (Hc w).
  destruct (c w) as [[a|e] w1]; cbn in Hc; subst; [done|apply Hh].
Qed.

Lemma read_only_gets {A : Type} (f : World → A) : read_only (gets f).
Proof. by intros w. Qed.

Lemma read_only_of_option {A : Type} (o : option A) (e : Exn) :
  read_only (of_option o e).
Proof. by destruct o. Qed.

Lemma read_only_subscript {A : Type} (d : gmap string A) (k : string) :
  read_only (subscript d k).
Proof. intros w. rewrite subscript_run. by destruct (d !! k). Qed.

Lemma read_only_request (c : Call) : read_only (request c).
Proof. intros w. rewrite request_run. by destruct (faults w c). Qed.

Lemma read_only_execute (q : Stmt) : read_only (execute q).
Proof. intros w. rewrite execute_run. by destruct (db_execute w q). Qed.

Lemma read_only_connect (c : Credentials) : read_only (connect c).
Proof. intros w. rewrite connect_run. by destruct (db_connect w c). Qed.

Lemma read_only_getenv (k : string) : read_only (getenv k).
Proof.
  apply read_only_bind; [apply read_only_gets|intros; apply read_only_subscript].
Qed.

Lemma read_only_get_secret_value (arn : string) : read_only (get_secret_value arn).
Proof.
  apply read_only_bind; [apply read_only_request|intros _].
  apply read_only_bind; [apply read_only_gets|intros; apply read_only_of_option].
Qed.

Lemma read_only_get_db_credentials (arn : string) :
  read_only (get_db_credentials arn).
Proof.
  apply read_only_try_except;
    [apply read_only_get_secret_value|intros; apply read_only_raise].
Qed.

Lemma read_only_test_database_connectivity (creds : gmap string string) :
  read_only (test_database_connectivity creds).
Proof.
  unfold test_database_connectivity, try_except_only, utcnow.
  repeat first
    [ apply read_only_subscript | apply read_only_connect
    | apply read_only_execute | apply read_only_gets
    | apply read_only_ret | apply read_only_raise
    | apply read_only_try_except; [|intros ?]
    | apply read_only_bind; [|intros ?]
    | match goal with |- read_only (if ?b then _ else _) => destruct b end ].
Qed.

End Checks.

(** ** The verifier's handler *)

Section VerifierHandler.
Import Py Model Cloud Spec BackupVerifier.

Lemma read_only_run {A : Type} (c : M A) (w w' : World) (r : Res A) :
  read_only c → c w = (r, w') → w' = w.
Proof. intros Hc Hrun. specialize (Hc w). by rewrite Hrun in Hc. Qed.

Lemma verifier_send_notification_returns (topic subject : string)
    (message : Message) (status : string) (w : World) :
  ∃ w', send_notification topic subject message status w = (Ok (), w').
Proof.
  unfold send_notification. rewrite try_except_run.
  match goal with
  | |- context [match ?c w with _ => _ end] => destruct (c w) as [[[]|e] w1]
  end; eauto.
Qed.

Lemma store_verification_results_returns (bucket : string)
    (results : VerificationReport) (w : World) :
  ∃ w', store_verification_results bucket results w = (Ok (), w').
Proof.
  unfold store_verification_results. rewrite try_except_run.
  match goal with
  | |- context [match ?c w with _ => _ end] => destruct (c w) as [[[]|e] w1]
  end; eauto.
Qed.

Lemma read_only_verify_recent_snapshots (db : string) :
  read_only (verify_recent_snapshots db).
Proof. intros w. by rewrite verify_recent_run. Qed.

Lemma read_only_verify_s3_backups (bucket : string) :
  read_only (verify_s3_backups bucket).
Proof. intros w. by rewrite verify_s3_run. Qed.

Lemma read_only_verifier_bindings : read_only handler_bindings.
Proof.
  unfold handler_bindings.
  repeat first [apply read_only_getenv | apply read_only_ret
               | apply read_only_bind; [|intros ?]].
Qed.

(** A verification run that gets as far as the report: the three checks ran
    on the world the handler was started in, and the overall verdict was
    computed from their results. *)
Lemma handler_rest_report (db s3 sns : string) (w w' : World) (env : Envelope) :
  handler_rest db s3 sns w = (Ok env, w') →
  ∃ rep creds,
    env = {| statusCode := 200;
             body := BodyResults "Backup verification completed" rep |} ∧
    verify_recent_snapshots db w = (Ok (snapshot_verification rep), w) ∧
    test_database_connectivity creds w = (Ok (connectivity_test rep), w) ∧
    verify_s3_backups s3 w = (Ok (s3_verification rep), w) ∧
    overall_status rep =
      overall (snapshot_verification rep) (connectivity_test rep)
              (s3_verification rep).
Proof.
  intros H. unfold handler_rest in H.
  bind_inv H secret_arn w1 E1.
  apply (read_only_run _ _ _ _ (read_only_getenv _)) in E1 as ->.
  bind_inv H creds w2 E2.
  apply (read_only_run _ _ _ _ (read_only_get_db_credentials _)) in E2 as ->.
  bind_inv H sv w3 E3.
  pose proof (read_only_run _ _ _ _ (read_only_verify_recent_snapshots _) E3)
    as ->.
  bind_inv H ct w4 E4.
  pose proof (read_only_run _ _ _ _ (read_only_test_database_connectivity _) E4)
    as ->.
  bind_inv H s3v w5 E5.
  pose proof (read_only_run _ _ _ _ (read_only_verify_s3_backups _) E5) as ->.
  rewrite bind_run in H. unfold utcnow, gets in H. cbn beta iota in H.
  rewrite bind_run in H.
  destruct (store_verification_results_returns s3
              {| timestamp := isoformat (clock w);
                 snapshot_verification := sv; connectivity_test := ct;
                 s3_verification := s3v;
                 overall_status := overall sv ct s3v |} w) as [w6 Hstore].
  cbn zeta in H. rewrite Hstore in H. rewrite bind_run in H.
  match type of H with
  | context [send_notification ?a ?b ?c ?d w6] =>
      destruct (verifier_send_notification_returns a b c d w6) as [w7 Hsend];
      rewrite Hsend in H
  end.
  injection H as <- <-.
  eexists _, creds. split; [reflexivity|]. done.
Qed.

Lemma verifier_handler_report (event : gmap string string) (w w' : World)
    (env : Envelope) (msg : string) (rep : VerificationReport) :
  handler event w = (Ok env, w') →
  body env = BodyResults msg rep →
  ∃ db s3 creds,
    verify_recent_snapshots db w = (Ok (snapshot_verification rep), w) ∧
    test_database_connectivity creds w = (Ok (connectivity_test rep), w) ∧
    verify_s3_backups s3 w = (Ok (s3_verification rep), w) ∧
    overall_status rep =
      overall (snapshot_verification rep) (connectivity_test rep)
              (s3_verification rep).
Proof.
  intros H Hbody. unfold handler in H. rewrite bind_run in H.
  unfold attempt in H.
  destruct (handler_bindings w) as [[[[db s3] sns]|e] w1] eqn:Hb.
  - apply (read_only_run _ _ _ _ read_only_verifier_bindings) in Hb as ->.
    rewrite try_except_run in H.
    destruct (handler_rest db s3 sns w) as [[env1|e] w2] eqn:Hrest.
    + injection H as <- <-.
      apply handler_rest_report in Hrest as (rep' & creds & -> & ? & ? & ? & ?).
      cbn in Hbody. injection Hbody as <- <-. eauto 10.
    + unfold on_exception in H. rewrite bind_run in H. cbn in H.
      rewrite bind_run in H.
      match type of H with
      | context [send_notification ?a ?b ?c ?d w2] =>
          destruct (verifier_send_notification_returns a b c d w2) as [w3 Hsend];
          rewrite Hsend in H
      end.
      injection H as <- <-. done.
  - discriminate H.
Qed.

End VerifierHandler.

(** ** Snapshot creation and the bounded wait *)

Section Lifecycle.
Import Py Model Cloud Spec BackupManager.

Lemma create_db_snapshot_run (id instance : string)
    (tags : list (string * string)) (w : World) :
  create_db_snapshot id instance tags w =
    match faults w (CreateDBSnapshot id) with
    | Some code => (Raise (ClientError "CreateDBSnapshot" code), w)
    | None =>
        match instances w !! instance with
        | None => (Raise (ClientError "CreateDBSnapshot" "DBInstanceNotFound"), w)
        | Some storage =>
            match find_snapshot id (snapshots w) with
            | Some _ =>
                (Raise (ClientError "CreateDBSnapshot" "DBSnapshotAlreadyExists"), w)
            | None =>
                let s := {| DBSnapshotIdentifier := id;
                            DBSnapshotArn := snapshot_arn id;
                            DBInstanceIdentifier := instance;
                            SnapshotCreateTime := clock w;
                            Status := creating;
                            AllocatedStorage := storage;
                            SnapshotType := manual;
                            TagList := tags |} in
                (Ok s, set_snapshots (snapshots w ++ [s]) w)
            end
        end
    end.
Proof.
  unfold create_db_snapshot. rewrite bind_run, request_run.
  destruct (faults w _); [done|]. munfold.
  destruct (instances w !! instance); [|done].
  by destruct (find_snapshot id (snapshots w)).
Qed.

Lemma describe_db_snapshot_run (id : string) (w : World) :
  describe_db_snapshot (Some id) w =
    match faults w DescribeDBSnapshots with
    | Some code => (Raise (ClientError "DescribeDBSnapshots" code), w)
    | None =>
        match find_snapshot id (snapshots w) with
        | Some s => (Ok [s], w)
        | None => (Raise (ClientError "DescribeDBSnapshots" "DBSnapshotNotFound"), w)
        end
    end.
Proof.
  unfold describe_db_snapshot. rewrite bind_run, request_run.
  destruct (faults w _); [done|]. munfold. by destruct (find_snapshot _ _).
Qed.

Lemma find_snapshot_app_new (id : string) (l : list DBSnapshot) (s : DBSnapshot) :
  find_snapshot id l = None → DBSnapshotIdentifier s = id →
  find_snapshot id (l ++ [s]) = Some s.
Proof.
  intros Hnone Hid. induction l as [|x l IH]; cbn in *.
  - by rewrite bool_decide_eq_true_2.
  - destruct (bool_decide (DBSnapshotIdentifier x = id)); [done|]. by apply IH.
Qed.

Lemma settle_identifier (w : World) (s : DBSnapshot) :
  DBSnapshotIdentifier (settle w s) = DBSnapshotIdentifier s.
Proof.
  unfold settle. destruct (Status s); try done.
  destruct (completion w _); [|done]. by case_match.
Qed.

Lemma find_snapshot_settle (w : World) (id : string) (l : list DBSnapshot) :
  find_snapshot id (settle w <$> l) = settle w <$> find_snapshot id l.
Proof.
  induction l as [|x l IH]; [done|]. cbn. rewrite settle_identifier.
  destruct (bool_decide (DBSnapshotIdentifier x = id)); [done|]. exact IH.
Qed.

Lemma find_snapshot_identifier (id : string) (l : list DBSnapshot) (s : DBSnapshot) :
  find_snapshot id l = Some s → DBSnapshotIdentifier s = id.
Proof.
  intros [_ H]%find_some. by apply bool_decide_eq_true in H.
Qed.

Lemma waiter_wait_S (delay : Z) (n : nat) (id : string) :
  waiter_wait delay (S n) id =
    (try_except
       (found ← describe_db_snapshot (Some id);
        mret (path_all_available found))
       waiter_poll_failed
     ≫= λ success : bool,
       if success then mret ()
       else
         match n with
         | O => raise (WaiterError "Waiter DBSnapshotCompleted failed: Max attempts exceeded")
         | S _ => sleep delay;; waiter_wait delay n id
         end).
Proof. reflexivity. Qed.

(** One round of the wait: a failing poll ends it, with success for the
    code DBSnapshotNotFound; so does a snapshot that is not in the catalog
    or is available; otherwise the wait sleeps and polls again, unless this
    was its last attempt. *)
Lemma waiter_wait_run (delay : Z) (n : nat) (id : string) (w : World) :
  waiter_wait delay (S n) id w =
    match faults w DescribeDBSnapshots with
    | Some code =>
        if bool_decide (code = "DBSnapshotNotFound") then (Ok (), w)
        else (Raise (WaiterError ("Waiter DBSnapshotCompleted failed: " +:+
                                  "An error occurred (" +:+ code +:+
                                  "): Unknown")), w)
    | None =>
        match find_snapshot id (snapshots w) with
        | None => (Ok (), w)
        | Some s =>
            if bool_decide (Status s = available) then (Ok (), w)
            else
              match n with
              | O => (Raise max_attempts_exceeded, w)
              | S _ => waiter_wait delay n id (advance (delay * usec_per_second) w)
              end
        end
    end.
Proof.
  rewrite waiter_wait_S, bind_run, try_except_run, bind_run,
    describe_db_snapshot_run.
  destruct (faults w DescribeDBSnapshots) as [code|].
  { cbn [waiter_poll_failed]. by destruct (bool_decide (code = _)). }
  destruct (find_snapshot id (snapshots w)) as [s|];
    [|cbn [waiter_poll_failed]; by rewrite bool_decide_eq_true_2].
  unfold mret at 1, M_ret at 1. cbn beta iota.
  cbn [path_all_available forallb]. rewrite andb_true_r.
  destruct (bool_decide (Status s = available)); [done|].
  destruct n as [|m]; [done|].
  rewrite bind_run. reflexivity.
Qed.

(** A snapshot that is in the catalog stays there while the wait goes on. *)
Lemma waiter_wait_keeps (delay : Z) (id : string) (attempts : nat) :
  ∀ w, is_Some (find_snapshot id (snapshots w)) →
       is_Some (find_snapshot id (snapshots (waiter_wait delay attempts id w).2)).
Proof.
  induction attempts as [|n IH]; intros w Hin; [done|].
  rewrite waiter_wait_run.
  destruct (faults w DescribeDBSnapshots) as [code|];
    [by destruct (bool_decide (code = _))|].
  destruct (find_snapshot id (snapshots w)) as [s|] eqn:Hfind; [|done].
  destruct (bool_decide (Status s = available));
    [cbn [snd]; by rewrite Hfind|].
  destruct n as [|m]; [cbn [snd]; by rewrite Hfind|].
  apply IH. unfold advance. cbn [snapshots set_snapshots set_clock].
  rewrite find_snapshot_settle, Hfind. by eexists.
Qed.

(** A wait on a snapshot of the catalog that returns, with no poll
    answered DBSnapshotNotFound, has seen the snapshot available and leaves
    it so. *)
Lemma waiter_wait_ok (delay : Z) (id : string) (attempts : nat) :
  ∀ w w', waiter_wait delay attempts id w = (Ok (), w') →
    is_Some (find_snapshot id (snapshots w)) →
    faults w DescribeDBSnapshots ≠ Some "DBSnapshotNotFound" →
    ∃ s, find_snapshot id (snapshots w') = Some s ∧ Status s = available.
Proof.
  induction attempts as [|n IH]; intros w w' H Hin Hnf; [done|].
  rewrite waiter_wait_run in H.
  destruct (faults w DescribeDBSnapshots) as [code|] eqn:Hf.
  { case_bool_decide as Hcode; [by subst code|done]. }
  rewrite <- Hf in Hnf.
  destruct (find_snapshot id (snapshots w)) as [s|] eqn:Hfind;
    [|by destruct Hin].
  case_bool_decide as Hst.
  - injection H as <-. eauto.
  - destruct n as [|m]; [done|].
    apply IH in H; [done| |exact Hnf].
    unfold advance. cbn [snapshots set_snapshots set_clock].
    rewrite find_snapshot_settle, Hfind. by eexists.
Qed.

(** Polling a snapshot that is available returns at once. *)
Lemma waiter_wait_available (delay : Z) (id : string) (n : nat) (w : World)
    (s : DBSnapshot) :
  faults w DescribeDBSnapshots = None →
  find_snapshot id (snapshots w) = Some s → Status s = available →
  waiter_wait delay (S n) id w = (Ok (), w).
Proof.
  intros Hf Hfind Hst.
  rewrite waiter_wait_run, Hf, Hfind.
  by rewrite bool_decide_eq_true_2.
Qed.

(** The wait on a snapshot that the platform completes [d] after its
    creation: it returns if the completion falls within the remaining
    polls, and gives up otherwise. *)
Lemma waiter_wait_due (delay d : Z) (id : string) (n : nat) :
  ∀ w s,
    0 ≤ delay →
    faults w DescribeDBSnapshots = None →
    find_snapshot id (snapshots w) = Some s →
    Status s = creating →
    completion w id = Some d →
    clock w < SnapshotCreateTime s + d →
    ∃ w', waiter_wait delay (S n) id w =
            (if decide (SnapshotCreateTime s + d
                        ≤ clock w + Z.of_nat n * (delay * usec_per_second))
             then Ok () else Raise max_attempts_exceeded, w') ∧
          ∃ s', find_snapshot id (snapshots w') = Some s' ∧
                (Status s' = available ∨ Status s' = creating).
Proof.
  induction n as [|m IH]; intros w s Hdelay Hf Hfind Hst Hc Hdue.
  - exists w.
    rewrite waiter_wait_run, Hf, Hfind.
    rewrite bool_decide_eq_false_2 by congruence.
    rewrite decide_False by lia. eauto.
  - rewrite waiter_wait_run, Hf, Hfind.
    rewrite bool_decide_eq_false_2 by congruence.
    set (w1 := advance (delay * usec_per_second) w).
    assert (Hclock : clock w1 = clock w + delay * usec_per_second) by done.
    assert (Hfind1 : find_snapshot id (snapshots w1) = Some (settle w1 s)).
    { unfold w1, advance. cbn [snapshots set_snapshots set_clock].
      by rewrite find_snapshot_settle, Hfind. }
    pose proof (find_snapshot_identifier _ _ _ Hfind) as Hid.
    assert (Hsettle : settle w1 s =
              if SnapshotCreateTime s + d <=? clock w1
              then with_status available s else s).
    { unfold settle. rewrite Hst, Hid.
      change (completion w1 id) with (completion w id). by rewrite Hc. }
    destruct (Z.leb_spec (SnapshotCreateTime s + d) (clock w1)) as [Hnow|Hlater].
    + exists w1. rewrite (waiter_wait_available _ _ _ _ (settle w1 s));
        [|done|done|by rewrite Hsettle].
      rewrite decide_True by nia. split; [done|].
      exists (settle w1 s). split; [done|]. left. by rewrite Hsettle.
    + rewrite Hsettle in Hfind1.
      destruct (IH w1 s Hdelay Hf Hfind1 Hst Hc Hlater) as (w' & Hrun & Hs').
      exists w'. rewrite Hrun. split; [|done].
      destruct (decide (_ ≤ clock w1 + _)), (decide (_ ≤ clock w + _));
        try done; exfalso; nia.
Qed.

(** The wait on a snapshot that the platform never completes. *)
Lemma waiter_wait_stuck (delay : Z) (id : string) (n : nat) :
  ∀ w s,
    faults w DescribeDBSnapshots = None →
    find_snapshot id (snapshots w) = Some s →
    Status s = creating →
    completion w id = None →
    ∃ w', waiter_wait delay n id w = (Raise max_attempts_exceeded, w') ∧
          find_snapshot id (snapshots w') = Some s.
Proof.
  induction n as [|m IH]; intros w s Hf Hfind Hst Hc; [by exists w|].
  rewrite waiter_wait_run, Hf, Hfind.
  rewrite bool_decide_eq_false_2 by congruence.
  destruct m as [|k]; [by exists w|].
  set (w1 := advance (delay * usec_per_second) w).
  pose proof (find_snapshot_identifier _ _ _ Hfind) as Hid.
  assert (Hsettle : settle w1 s = s).
  { unfold settle. rewrite Hst, Hid.
    change (completion w1 id) with (completion w id). by rewrite Hc. }
  apply (IH w1 s); [exact Hf| |exact Hst|exact Hc].
  unfold w1, advance. cbn [snapshots set_snapshots set_clock].
  rewrite find_snapshot_settle, Hfind. cbn. f_equal. exact Hsettle.
Qed.

(** However the wait gives up, it raises the waiter's own error. *)
Lemma waiter_wait_raises (delay : Z) (id : string) (n : nat) :
  ∀ w e w', waiter_wait delay n id w = (Raise e, w') →
    ∃ reason, e = WaiterError ("Waiter DBSnapshotCompleted failed: " +:+ reason).
Proof.
  induction n as [|n IH]; intros w e w' H.
  - injection H as <- <-. by exists "Max attempts exceeded".
  - rewrite waiter_wait_run in H.
    destruct (faults w DescribeDBSnapshots) as [code|].
    { case_bool_decide; [done|]. injection H as <- <-. by eexists. }
    destruct (find_snapshot id (snapshots w)); [|done].
    case_bool_decide; [done|].
    destruct n as [|m]; [injection H as <- <-; by exists "Max attempts exceeded"|].
    by eapply IH.
Qed.

End Lifecycle.

(** ** Independence from the result sink *)

Section Sink.
Import Py Model Cloud Spec.

Lemma same_but_sink_refl (w : World) : same_but_sink w w.
Proof. by split. Qed.

Lemma same_but_sink_sym (w1 w2 : World) :
  same_but_sink w1 w2 → same_but_sink w2 w1.
Proof. intros []. split; try done. intros c Hc. symmetry. auto. Qed.

Lemma same_but_sink_trans (w1 w2 w3 : World) :
  same_but_sink w1 w2 → same_but_sink w2 w3 → same_but_sink w1 w3.
Proof.
  intros [? ? ? ? ? ? ? ? ? ? F1] [? ? ? ? ? ? ? ? ? ? F2].
  split; try congruence.
  intros c Hc. by rewrite F1, F2.
Qed.

Lemma si_ret {A : Type} (a : A) : sink_independent (mret a : M A).
Proof. by intros w1 w2 H. Qed.

Lemma si_raise {A : Type} (e : Exn) : sink_independent (raise e : M A).
Proof. by intros w1 w2 H. Qed.

Lemma si_bind {A B : Type} (c : M A) (k : A → M B) :
  sink_independent c → (∀ a, sink_independent (k a)) →
  sink_independent (c ≫= k).
Proof.
  intros Hc Hk w1 w2 H. rewrite !bind_run.
  destruct (Hc w1 w2 H) as [Hr Hw].
  destruct (c w1) as [[a1|e1] v1], (c w2) as [[a2|e2] v2];
    cbn in Hr, Hw; simplify_eq; [by apply Hk|done].
Qed.

Lemma si_try_except {A : Type} (c : M A) (h : Exn → M A) :
  sink_independent c → (∀ e, sink_independent (h e)) →
  sink_independent (try_except c h).
Proof.
  intros Hc Hh w1 w2 H. rewrite !try_except_run.
  destruct (Hc w1 w2 H) as [Hr Hw].
  destruct (c w1) as [[a1|e1] v1], (c w2) as [[a2|e2] v2];
    cbn in Hr, Hw; simplify_eq; [done|by apply Hh].
Qed.

Lemma si_attempt {A : Type} (c : M A) :
  sink_independent c → sink_independent (attempt c).
Proof.
  intros Hc w1 w2 H. unfold attempt. destruct (Hc w1 w2 H) as [Hr Hw].
  destruct (c w1) as [r1 v1], (c w2) as [r2 v2]; cbn in *. by subst.
Qed.

Lemma si_gets {A : Type} (f : World → A) :
  (∀ w1 w2, same_but_sink w1 w2 → f w1 = f w2) → sink_independent (gets f).
Proof. intros Hf w1 w2 H. unfold gets. cbn. by rewrite (Hf w1 w2 H). Qed.

Lemma si_modify (f : World → World) :
  (∀ w1 w2, same_but_sink w1 w2 → same_but_sink (f w1) (f w2)) →
  sink_independent (modify f).
Proof. intros Hf w1 w2 H. unfold modify. cbn. split; [done|by apply Hf]. Qed.

Lemma si_of_option {A : Type} (o : option A) (e : Exn) :
  sink_independent (of_option o e).
Proof. destruct o; [apply si_ret|apply si_raise]. Qed.

Lemma si_subscript {A : Type} (d : gmap string A) (k : string) :
  sink_independent (subscript d k).
Proof. unfold subscript. destruct (d !! k); [apply si_ret|apply si_raise]. Qed.

Lemma si_request (c : Call) : ¬ is_sink c → sink_independent (request c).
Proof.
  intros Hc w1 w2 H. rewrite !request_run. rewrite (sbs_faults _ _ H c Hc).
  by destruct (faults w2 c).
Qed.

Lemma si_set_snapshots (l : list DBSnapshot) :
  sink_independent (modify (set_snapshots l)).
Proof. apply si_modify. intros w1 w2 []. by split. Qed.

Lemma si_set_export_tasks (l : list ExportTask) :
  sink_independent (modify (set_export_tasks l)).
Proof. apply si_modify. intros w1 w2 []. by split. Qed.

Lemma si_sleep (seconds : Z) : sink_independent (sleep seconds).
Proof.
  apply si_modify. intros [] [] []. cbn in *. subst.
  unfold advance. split; cbn; done.
Qed.

(** A computation that can only touch the sink and always returns. *)
Lemma si_sink_only (c : M ()) :
  (∀ w, (c w).1 = Ok () ∧ same_but_sink w (c w).2) → sink_independent c.
Proof.
  intros Hc w1 w2 H. destruct (Hc w1) as [-> H1], (Hc w2) as [-> H2].
  split; [done|].
  eapply same_but_sink_trans; [|exact H2].
  eapply same_but_sink_trans; [|exact H]. by apply same_but_sink_sym.
Qed.

Lemma publish_sink_only (n : Notification) (w : World) :
  same_but_sink w (publish n w).2.
Proof.
  unfold publish. rewrite bind_run, request_run.
  destruct (faults w _); [apply same_but_sink_refl|]. by split.
Qed.

Lemma put_object_sink_only (bucket key : string) (body : VerificationReport)
    (w : World) :
  same_but_sink w (put_object bucket key body w).2.
Proof.
  unfold put_object. rewrite bind_run, request_run.
  destruct (faults w _); [apply same_but_sink_refl|]. by split.
Qed.

(** [try: <utcnow; one sink request>  except Exception: pass] *)
Lemma swallowed_sink_only (k : Z → M ()) :
  (∀ t w, same_but_sink w (k t w).2) →
  ∀ w, (try_except (now ← utcnow; k now) (λ _, mret ()) w).1 = Ok () ∧
       same_but_sink w (try_except (now ← utcnow; k now) (λ _, mret ()) w).2.
Proof.
  intros Hk w. rewrite try_except_run, bind_run. unfold utcnow, gets.
  cbn beta iota. specialize (Hk (clock w) w).
  by destruct (k (clock w) w) as [[[]|e] w1].
Qed.

Lemma manager_send_notification_sink_only (topic subject : string)
    (message : Message) (status : string) (w : World) :
  (BackupManager.send_notification topic subject message status w).1 = Ok () ∧
  same_but_sink w (BackupManager.send_notification topic subject message status w).2.
Proof. apply swallowed_sink_only. intros; apply publish_sink_only. Qed.

Lemma verifier_send_notification_sink_only (topic subject : string)
    (message : Message) (status : string) (w : World) :
  (BackupVerifier.send_notification topic subject message status w).1 = Ok () ∧
  same_but_sink w (BackupVerifier.send_notification topic subject message status w).2.
Proof. apply swallowed_sink_only. intros; apply publish_sink_only. Qed.

Lemma store_verification_results_sink_only (bucket : string)
    (results : VerificationReport) (w : World) :
  (BackupVerifier.store_verification_results bucket results w).1 = Ok () ∧
  same_but_sink w (BackupVerifier.store_verification_results bucket results w).2.
Proof. apply swallowed_sink_only. intros; apply put_object_sink_only. Qed.

End Sink.

Create HintDb si discriminated.

#[export] Hint Resolve same_but_sink_refl si_ret si_raise si_of_option
  si_subscript si_set_snapshots si_set_export_tasks si_sleep : si.

#[export] Hint Extern 1 (Spec.sink_independent (Cloud.request _)) =>
  apply si_request; intros [] : si.

#[export] Hint Extern 1 (Spec.sink_independent (Cloud.gets _)) =>
  apply si_gets; intros ? ? []; assumption : si.

#[export] Hint Extern 1 (Spec.sink_independent (BackupManager.send_notification _ _ _ _)) =>
  apply si_sink_only; intros; apply manager_send_notification_sink_only : si.

#[export] Hint Extern 1 (Spec.sink_independent (BackupVerifier.send_notification _ _ _ _)) =>
  apply si_sink_only; intros; apply verifier_send_notification_sink_only : si.

#[export] Hint Extern 1 (Spec.sink_independent (BackupVerifier.store_verification_results _ _)) =>
  apply si_sink_only; intros; apply store_verification_results_sink_only : si.

(** Decompose a computation along its binds and case distinctions. *)
Ltac si :=
  repeat first
    [ solve [auto 1 with si]
    | apply si_ret
    | apply si_raise
    | apply si_bind; [|intros ?]
    | apply si_try_except; [|intros ?]
    | apply si_attempt
    | match goal with
      | |- Spec.sink_independent (match ?x with _ => _ end) => destruct x
      | |- Spec.sink_independent (if ?x then _ else _) => destruct x
      end
    | progress cbn zeta ].

Section SinkPrograms.
Import Py Model Cloud Spec.

Lemma si_getenv (k : string) : sink_independent (getenv k).
Proof. unfold getenv. si. Qed.

Lemma si_describe_db_snapshots (instance : string) (kind : SnapshotKind)
    (max_records : option nat) :
  sink_independent (describe_db_snapshots instance kind max_records).
Proof. unfold describe_db_snapshots. si. Qed.

Lemma si_describe_db_snapshot (id : option string) :
  sink_independent (describe_db_snapshot id).
Proof. unfold describe_db_snapshot. si. Qed.

Lemma si_create_db_snapshot (id instance : string) (tags : list (string * string)) :
  sink_independent (create_db_snapshot id instance tags).
Proof. unfold create_db_snapshot. si. Qed.

Lemma si_list_tags_for_resource (arn : string) :
  sink_independent (list_tags_for_resource arn).
Proof. unfold list_tags_for_resource. si. Qed.

Lemma si_delete_db_snapshot (id : string) :
  sink_independent (delete_db_snapshot id).
Proof. unfold delete_db_snapshot. si. Qed.

Lemma si_start_export_task (task source_arn bucket prefix kms : string)
    (iam_role_arn : option string) :
  sink_independent
    (start_export_task task source_arn bucket prefix kms iam_role_arn).
Proof. unfold start_export_task. si. Qed.

Lemma si_list_objects_v2 (bucket prefix : string) :
  sink_independent (list_objects_v2 bucket prefix).
Proof. unfold list_objects_v2. si. Qed.

Lemma si_get_secret_value (arn : string) : sink_independent (get_secret_value arn).
Proof. unfold get_secret_value. si. Qed.

Lemma si_connect (c : Credentials) : sink_independent (connect c).
Proof. unfold connect. si. Qed.

Lemma si_execute (q : Stmt) : sink_independent (execute q).
Proof. unfold execute. si. Qed.

End SinkPrograms.

#[export] Hint Resolve si_getenv si_describe_db_snapshots si_describe_db_snapshot
  si_create_db_snapshot si_list_tags_for_resource si_delete_db_snapshot
  si_start_export_task si_list_objects_v2 si_get_secret_value si_connect
  si_execute : si.

Section SinkManager.
Import Py Model Cloud Spec BackupManager.

Lemma si_waiter_wait (delay : Z) (attempts : nat) (id : string) :
  sink_independent (waiter_wait delay attempts id).
Proof.
  induction attempts as [|n IH]; [apply si_raise|].
  rewrite waiter_wait_S. apply si_bind.
  - apply si_try_except; [si|].
    intros e. unfold waiter_poll_failed. si.
  - intros success. si.
Qed.

Lemma si_cleanup_loop (cutoff : Z) (response : list DBSnapshot) :
  ∀ deleted, sink_independent (cleanup_loop cutoff response deleted).
Proof.
  induction response as [|s rest IH]; intros deleted; [apply si_ret|].
  cbn [cleanup_loop]. si; apply IH.
Qed.

#[local] Hint Resolve si_waiter_wait si_cleanup_loop : si.

Lemma si_create_snapshot (db backup_type kms : string) :
  sink_independent (create_snapshot db backup_type kms).
Proof. unfold create_snapshot, utcnow. si. Qed.

Lemma si_cleanup_old_snapshots (db : string) (retention_days : Z) :
  sink_independent (cleanup_old_snapshots db retention_days).
Proof. unfold cleanup_old_snapshots, utcnow. si. Qed.

Lemma si_export_snapshot_to_s3 (snapshot_id : option string) (s3 kms : string) :
  sink_independent (export_snapshot_to_s3 snapshot_id s3 kms).
Proof. unfold export_snapshot_to_s3, first_snapshot, utcnow. si. Qed.

#[local] Hint Resolve si_create_snapshot si_cleanup_old_snapshots
  si_export_snapshot_to_s3 : si.

Lemma si_dispatch (event : gmap string string)
    (action backup_type db s3 kms : string) (days : Z) :
  sink_independent (dispatch event action backup_type db s3 kms days).
Proof. unfold dispatch. repeat case_decide; si. Qed.

Lemma si_manager_on_exception (sns : option string) (e : Exn) :
  sink_independent (on_exception sns e).
Proof. unfold on_exception. si. Qed.

#[local] Hint Resolve si_dispatch si_manager_on_exception : si.

Lemma si_manager_handler (event : gmap string string) :
  sink_independent (handler event).
Proof.
  unfold handler. apply si_bind.
  - apply si_attempt. unfold handler_bindings. si.
  - intros [[[[[action bt] db] s3] sns]|e]; [|si].
    apply si_try_except; [|si]. unfold handler_rest. si.
Qed.

End SinkManager.

Section SinkVerifier.
Import Py Model Cloud Spec BackupVerifier.

Lemma si_verify_recent_snapshots (db : string) :
  sink_independent (verify_recent_snapshots db).
Proof. unfold verify_recent_snapshots, utcnow. si. Qed.

Lemma si_test_database_connectivity (creds : gmap string string) :
  sink_independent (test_database_connectivity creds).
Proof. unfold test_database_connectivity, try_except_only, utcnow. si. Qed.

Lemma si_verify_s3_backups (bucket : string) :
  sink_independent (verify_s3_backups bucket).
Proof. unfold verify_s3_backups, utcnow. si. Qed.

Lemma si_verifier_on_exception (sns : option string) (e : Exn) :
  sink_independent (on_exception sns e).
Proof. unfold on_exception. si. Qed.

#[local] Hint Resolve si_verify_recent_snapshots si_test_database_connectivity
  si_verify_s3_backups si_verifier_on_exception : si.

Lemma si_verifier_handler (event : gmap string string) :
  sink_independent (handler event).
Proof.
  unfold handler. apply si_bind.
  - apply si_attempt. unfold handler_bindings. si.
  - intros [[[db s3] sns]|e]; [|si].
    apply si_try_except; [|si].
    unfold handler_rest, get_db_credentials, utcnow. si.
Qed.

End SinkVerifier.

(** Neither handler depends on the sink for what it returns. *)
Lemma handlers_sink_independent (event : gmap string string) :
  Spec.sink_independent (BackupManager.handler event) ∧
  Spec.sink_independent (BackupVerifier.handler event).
Proof. split; [apply si_manager_handler|apply si_verifier_handler]. Qed.

(** ** The response envelope *)

Section Envelope.
Import Py Model Cloud Spec.

Lemma manager_on_exception_unbound (e : Exn) (w : World) :
  BackupManager.on_exception None e w =
    (Raise (UnboundLocalError "sns_topic_arn"), w).
Proof. reflexivity. Qed.

Lemma verifier_on_exception_unbound (e : Exn) (w : World) :
  BackupVerifier.on_exception None e w =
    (Raise (UnboundLocalError "sns_topic_arn"), w).
Proof. reflexivity. Qed.

Lemma manager_on_exception_bound (sns : string) (e : Exn) (w : World) :
  ∃ w', BackupManager.on_exception (Some sns) e w =
          (Ok {| statusCode := 500;
                 body := BodyError ("Backup operation failed: " +:+ exn_str e) |},
           w').
Proof.
  unfold BackupManager.on_exception. rewrite bind_run. cbn. rewrite bind_run.
  match goal with
  | |- context [BackupManager.send_notification ?a ?b ?c ?d w] =>
      destruct (manager_send_notification_sink_only a b c d w) as [Hr _];
      destruct (BackupManager.send_notification a b c d w) as [r w1]
  end.
  cbn in Hr. subst r. by exists w1.
Qed.

Lemma verifier_on_exception_bound (sns : string) (e : Exn) (w : World) :
  ∃ w', BackupVerifier.on_exception (Some sns) e w =
          (Ok {| statusCode := 500;
                 body := BodyError ("Backup verification failed: " +:+ exn_str e) |},
           w').
Proof.
  unfold BackupVerifier.on_exception. rewrite bind_run. cbn. rewrite bind_run.
  match goal with
  | |- context [BackupVerifier.send_notification ?a ?b ?c ?d w] =>
      destruct (verifier_send_notification_sink_only a b c d w) as [Hr _];
      destruct (BackupVerifier.send_notification a b c d w) as [r w1]
  end.
  cbn in Hr. subst r. by exists w1.
Qed.

Lemma manager_handler_rest_status (event : gmap string string)
    (action backup_type db s3 sns : string) (w w' : World) (env : Envelope) :
  BackupManager.handler_rest event action backup_type db s3 sns w = (Ok env, w') →
  statusCode env = 200.
Proof.
  intros H. unfold BackupManager.handler_rest in H.
  bind_inv H kms w1 E1. bind_inv H text w2 E2. bind_inv H days w3 E3.
  bind_inv H res w4 E4. bind_inv H u w5 E5. by injection H as <- <-.
Qed.

Lemma read_only_manager_bindings (event : gmap string string) :
  read_only (BackupManager.handler_bindings event).
Proof.
  unfold BackupManager.handler_bindings.
  repeat first [apply read_only_getenv | apply read_only_ret
               | apply read_only_bind; [|intros ?]].
Qed.

(** The manager's handler returns an envelope exactly when its [try] body
    gets past the assignment of [sns_topic_arn]; before that, the [except]
    block itself raises. *)
Lemma manager_handler_outcome (event : gmap string string) (w : World) :
  match (BackupManager.handler_bindings event w).1 with
  | Ok _ =>
      ∃ env w', BackupManager.handler event w = (Ok env, w') ∧
                (statusCode env = 200 ∨ statusCode env = 500)
  | Raise _ =>
      BackupManager.handler event w = (Raise (UnboundLocalError "sns_topic_arn"), w)
  end.
Proof.
  unfold BackupManager.handler. rewrite bind_run. unfold attempt.
  pose proof (read_only_manager_bindings event w) as Hw.
  destruct (BackupManager.handler_bindings event w)
    as [[[[[[action bt] db] s3] sns]|e] w1]; cbn in Hw; subst w1; cbn [fst].
  - rewrite try_except_run.
    destruct (BackupManager.handler_rest _ _ _ _ _ _ w) as [[env|e] w2] eqn:Hrest.
    + exists env, w2. split; [done|]. left.
      by eapply manager_handler_rest_status.
    + destruct (manager_on_exception_bound sns e w2) as [w3 ->].
      eexists _, w3. split; [done|]. by right.
  - reflexivity.
Qed.

Lemma verifier_handler_outcome (event : gmap string string) (w : World) :
  match (BackupVerifier.handler_bindings w).1 with
  | Ok _ =>
      ∃ env w', BackupVerifier.handler event w = (Ok env, w') ∧
                (statusCode env = 200 ∨ statusCode env = 500)
  | Raise _ =>
      BackupVerifier.handler event w = (Raise (UnboundLocalError "sns_topic_arn"), w)
  end.
Proof.
  unfold BackupVerifier.handler. rewrite bind_run. unfold attempt.
  pose proof (read_only_verifier_bindings w) as Hw.
  destruct BackupVerifier.handler_bindings
    as [[[[db s3] sns]|e] w1]; cbn in Hw; subst w1; cbn [fst].
  - rewrite try_except_run.
    destruct (BackupVerifier.handler_rest _ _ _ w) as [[env|e] w2] eqn:Hrest.
    + exists env, w2. split; [done|]. left.
      apply handler_rest_report in Hrest as (rep & creds & -> & _). done.
    + destruct (verifier_on_exception_bound sns e w2) as [w3 ->].
      eexists _, w3. split; [done|]. by right.
  - reflexivity.
Qed.

(** The three variables read before [sns_topic_arn] is bound. *)
Lemma manager_bindings_need (event : gmap string string) (w : World) :
  (∃ e, (BackupManager.handler_bindings event w).1 = Raise e) ↔
  environ w !! "DB_INSTANCE_ID" = None ∨ environ w !! "S3_BUCKET" = None
  ∨ environ w !! "SNS_TOPIC_ARN" = None.
Proof.
  unfold BackupManager.handler_bindings, getenv. munfold.
  rewrite !subscript_run.
  destruct (environ w !! "DB_INSTANCE_ID"); cbn;
    [|split; [by left|by eexists]].
  rewrite !subscript_run.
  destruct (environ w !! "S3_BUCKET"); cbn;
    [|split; [by right; left|by eexists]].
  rewrite !subscript_run.
  destruct (environ w !! "SNS_TOPIC_ARN"); cbn;
    [|split; [by right; right|by eexists]].
  split; [by intros [e ?]|by intros [?|[?|?]]].
Qed.

End Envelope.

(** ** Runs of the manager *)

Section ManagerRuns.
Import Py Model Cloud Spec Behaviour BackupManager.

Lemma create_snapshot_run (db backup_type kms : string) (w : World) :
  create_snapshot db backup_type kms w =
    let timestamp := strftime_dashed (clock w) in
    let id := db +:+ "-" +:+ backup_type +:+ "-" +:+ timestamp in
    match create_db_snapshot id db
            [("BackupType", backup_type);
             ("CreatedBy", "automated-backup-system");
             ("Timestamp", timestamp)] w with
    | (Ok response, w1) =>
        match waiter_wait 30 120 id w1 with
        | (Ok _, w2) =>
            (Ok {| snapshot_id := id; status := Status response;
                   size := AllocatedStorage response |}, w2)
        | (Raise e, w2) => (Raise e, w2)
        end
    | (Raise e, w1) => (Raise e, w1)
    end.
Proof. reflexivity. Qed.

Lemma getenv_run (k : string) (w : World) :
  getenv k w = match environ w !! k with
               | Some v => (Ok v, w)
               | None => (Raise (KeyError k), w)
               end.
Proof. unfold getenv. rewrite bind_run. unfold gets. cbn. apply subscript_run. Qed.

Lemma manager_send_notification_run (topic subject : string)
    (message : Message) (status : string) (w : World) :
  send_notification topic subject message status w =
    (Ok (),
     match faults w (Publish topic) with
     | Some _ => w
     | None =>
         set_published
           (published w ++ [manager_notification w topic subject message status])%list w
     end).
Proof.
  unfold send_notification, utcnow, publish. rewrite try_except_run, bind_run.
  unfold gets at 1. cbn beta iota. rewrite bind_run, request_run. cbn.
  by destruct (faults w (Publish topic)).
Qed.

Lemma manager_send_notification_world (t s : string) (m : Message)
    (st : string) (v : World) :
  ∃ pub, (send_notification t s m st v).2
         = set_published (published v ++ pub)%list v ∧ (length pub ≤ 1)%nat.
Proof.
  rewrite manager_send_notification_run. cbn [snd].
  destruct (faults v (Publish t)).
  - exists []. split; [|cbn; lia]. destruct v. unfold set_published. cbn.
    by rewrite app_nil_r.
  - eexists [_]. split; [done|]. cbn. lia.
Qed.

Lemma manager_handler_rest_run (event : gmap string string)
    (action bt db s3 sns : string) (w : World) :
  handler_rest event action bt db s3 sns w =
    match environ w !! "KMS_KEY_ID" with
    | None => (Raise (KeyError "KMS_KEY_ID"), w)
    | Some kms =>
        match environ w !! "RETENTION_DAYS" with
        | None => (Raise (KeyError "RETENTION_DAYS"), w)
        | Some text =>
            match int_of_str text with
            | None =>
                (Raise (ValueError ("invalid literal for int() with base 10: '"
                                    +:+ text +:+ "'")), w)
            | Some days =>
                match dispatch event action bt db s3 kms days w with
                | (Raise e, w1) => (Raise e, w1)
                | (Ok result, w1) =>
                    (Ok {| statusCode := 200;
                           body := BodyResult
                             ("Backup operation " +:+ action +:+
                              " completed successfully") result |},
                     (send_notification sns
                        ("Backup operation successful: " +:+ action)
                        (MsgResult result) "SUCCESS" w1).2)
                end
            end
        end
    end.
Proof.
  unfold handler_rest. rewrite bind_run, getenv_run.
  destruct (environ w !! "KMS_KEY_ID") as [kms|]; [|done].
  rewrite bind_run, getenv_run.
  destruct (environ w !! "RETENTION_DAYS") as [text|]; [|done].
  rewrite bind_run. destruct (int_of_str text) as [days|]; [|done].
  cbn [of_option]. unfold mret at 1, M_ret at 1. cbn beta iota.
  rewrite bind_run.
  destruct (dispatch event action bt db s3 kms days w) as [[result|e] w1]; [|done].
  rewrite bind_run, manager_send_notification_run. done.
Qed.

Lemma manager_handler_run (event : gmap string string) (w : World) :
  handler event w =
    match environ w !! "DB_INSTANCE_ID", environ w !! "S3_BUCKET",
          environ w !! "SNS_TOPIC_ARN" with
    | Some db, Some s3, Some sns =>
        match handler_rest event (default "create_snapshot" (event !! "action"))
                (default "manual" (event !! "type")) db s3 sns w with
        | (Ok env, w1) => (Ok env, w1)
        | (Raise e, w1) =>
            (Ok {| statusCode := 500;
                   body := BodyError ("Backup operation failed: " +:+ exn_str e) |},
             (send_notification sns "Backup operation failed"
                (MsgText ("Backup operation failed: " +:+ exn_str e)) "ERROR" w1).2)
        end
    | _, _, _ => (Raise (UnboundLocalError "sns_topic_arn"), w)
    end.
Proof.
  unfold handler. rewrite bind_run. unfold attempt, handler_bindings.
  rewrite bind_run, getenv_run.
  destruct (environ w !! "DB_INSTANCE_ID") as [db|]; [|done].
  rewrite bind_run, getenv_run.
  destruct (environ w !! "S3_BUCKET") as [s3|]; [|done].
  rewrite bind_run, getenv_run.
  destruct (environ w !! "SNS_TOPIC_ARN") as [sns|]; [|done].
  unfold mret at 1, M_ret at 1. cbn beta iota. rewrite try_except_run.
  destruct (handler_rest _ _ _ _ _ _ w) as [[env|e] w1]; [done|].
  unfold on_exception. rewrite bind_run. cbn [of_option].
  unfold mret at 1, M_ret at 1. cbn beta iota.
  rewrite bind_run, manager_send_notification_run. done.
Qed.

Lemma dispatch_unknown (event : gmap string string)
    (action bt db s3 kms : string) (days : Z) (w : World) :
  action ∉ ["create_snapshot"; "cleanup_snapshots"; "export_snapshot"] →
  dispatch event action bt db s3 kms days w =
    (Raise (ValueError ("Unknown action: " +:+ action)), w).
Proof.
  intros Hnot. unfold dispatch.
  rewrite !decide_False; [done|intros ->; apply Hnot; in_list..].
Qed.

(** The export never gets as far as a request to start the task: the call
    of [start_export_task] lacks a required parameter. *)
Lemma export_run (snapshot_id : option string) (s3 kms : string) (w : World) :
  export_snapshot_to_s3 snapshot_id s3 kms w =
    (Raise
       match snapshot_id with
       | None =>
           ParamValidationError
             "Invalid type for parameter DBSnapshotIdentifier, value: None"
       | Some id =>
           match faults w DescribeDBSnapshots with
           | Some code => ClientError "DescribeDBSnapshots" code
           | None =>
               match find_snapshot id (snapshots w) with
               | None => ClientError "DescribeDBSnapshots" "DBSnapshotNotFound"
               | Some _ =>
                   ParamValidationError (missing_required_parameter "IamRoleArn")
               end
           end
       end, w).
Proof.
  unfold export_snapshot_to_s3, utcnow. rewrite bind_run. unfold gets at 1.
  cbn beta iota zeta. rewrite bind_run.
  destruct snapshot_id as [id|]; [|done].
  rewrite describe_db_snapshot_run.
  destruct (faults w DescribeDBSnapshots); [done|].
  destruct (find_snapshot id (snapshots w)) as [s|]; [|done].
  rewrite bind_run. cbn. rewrite bind_run. unfold gets at 1. cbn beta iota.
  rewrite bind_run. reflexivity.
Qed.

(** A creation call raises a [ClientError] of the creation request or the
    waiter's error. *)
Lemma create_snapshot_raises (db backup_type kms : string) (w w' : World)
    (e : Exn) :
  create_snapshot db backup_type kms w = (Raise e, w') →
  (∃ code, e = ClientError "CreateDBSnapshot" code) ∨
  (∃ reason, e = WaiterError ("Waiter DBSnapshotCompleted failed: " +:+ reason)).
Proof.
  rewrite create_snapshot_run. cbn zeta. rewrite create_db_snapshot_run.
  intros H.
  destruct (faults w (CreateDBSnapshot _));
    [injection H as <- <-; left; by eexists|].
  destruct (instances w !! db);
    [|injection H as <- <-; left; by eexists].
  destruct (find_snapshot _ (snapshots w));
    [injection H as <- <-; left; by eexists|].
  cbn beta iota zeta in H.
  destruct (waiter_wait 30 120 _ _) as [[[]|e1] w2] eqn:Hwait; [done|].
  injection H as <- <-. right. by eapply waiter_wait_raises.
Qed.

End ManagerRuns.

(** ** Claims on retention *)

Section RetentionClaims.
Import Py Model Cloud Spec BackupManager Scenario.

(** Retention horizon 7 days.  The snapshot of 8 days with the ownership
    marker is deleted; the one of 8 days without the marker, the one of 5
    days with the marker, the platform's own snapshot of 8 days and the one
    created exactly 7 days ago are retained. *)
Example retention_scenario :
  (cleanup_old_snapshots "dhakacart-db" 7 world0).1 =
    Ok {| deleted_count := 1; deleted_snapshots := ["old-owned"] |} ∧
  DBSnapshotIdentifier <$>
    snapshots (cleanup_old_snapshots "dhakacart-db" 7 world0).2 =
    ["old-foreign"; "young-owned"; "rds:old-platform"; "boundary-owned"].
Proof. vm_compute. split; reflexivity. Qed.

(** A tag lookup that fails cuts the run short: the snapshot it was made
    for stays in the catalog although it is old enough and owned, and the
    rest of the listing is not looked at. *)
Example aborted_cleanup_scenario :
  let w := set_faults
             (λ c, match c with
                   | ListTagsForResource "arn:aws:rds:::snapshot:old-owned" =>
                       Some "Throttling"
                   | _ => None
                   end) world0 in
  (cleanup_old_snapshots "dhakacart-db" 7 w).1 =
    Raise (ClientError "ListTagsForResource" "Throttling") ∧
  snapshots (cleanup_old_snapshots "dhakacart-db" 7 w).2 = catalog0.
Proof. vm_compute. split; reflexivity. Qed.

(** C1.  In every cleanup invocation only snapshots that were created
    strictly before the cutoff (now minus the retention horizon), carry the
    ownership marker and are manual leave the catalog, whether the run
    completes or is cut short by a failing request; in particular automated
    snapshots and unmarked manual snapshots are never deleted, whatever
    their age.  When the invocation completes, a snapshot of the instance
    is deleted, and listed in the result, if and only if it satisfies the
    three conditions. *)
Theorem cleanup_deletes_exactly_expired_owned_manual
    (db : string) (retention_days : Z) (w : World)
    (o : Res CleanupResult) (w' : World) (s : DBSnapshot) :
  catalog_wf (snapshots w) →
  cleanup_old_snapshots db retention_days w = (o, w') →
  s ∈ snapshots w →
  let cutoff := clock w - retention_days * usec_per_day in
  let marked :=
    SnapshotCreateTime s < cutoff ∧ owned s ∧ SnapshotType s = manual in
  (gone s w' → DBInstanceIdentifier s = db ∧ marked) ∧
  (SnapshotType s = automated → ¬ gone s w') ∧
  (¬ owned s → ¬ gone s w') ∧
  (∀ r, o = Ok r → DBInstanceIdentifier s = db →
     (gone s w' ↔ marked) ∧
     (DBSnapshotIdentifier s ∈ deleted_snapshots r ↔ marked) ∧
     deleted_count r = length (deleted_snapshots r)).
Proof.
  intros Hwf Hrun Hin cutoff marked.
  assert (Hsafe : gone s w' → DBInstanceIdentifier s = db ∧ marked).
  { intros Hg.
    destruct (cleanup_safe _ _ _ _ _ s Hwf Hrun Hin) as [Hstay|(? & ? & ? & ?)].
    - by apply elem_not_gone in Hg.
    - done. }
  split; [exact Hsafe|].
  split; [intros Hauto [_ (_ & _ & ?)]%Hsafe; congruence|].
  split; [intros Hno [_ (_ & ? & _)]%Hsafe; done|].
  intros r -> Hdb.
  destruct (cleanup_ok _ _ _ _ _ Hwf Hrun) as (Hlist & Hcount & Hcat & _).
  pose proof (taken_spec db (clock w - retention_days * usec_per_day) _ s
                Hwf Hin) as Htaken.
  assert (Hiff : DBSnapshotIdentifier s ∈ deleted_snapshots r ↔ marked).
  { rewrite Hlist, Htaken. unfold marked, cutoff, eligible. tauto. }
  split; [|split; [exact Hiff|by rewrite Hcount, Hlist]].
  split; [by intros [_ ?]%Hsafe|].
  intros Hm%Hiff. unfold gone. rewrite Hcat.
  intros (y & Hy & [Hny _]%list_elem_of_filter)%list_elem_of_fmap.
  apply Hny. rewrite <- Hy, <- Hlist. done.
Qed.

(** Retention horizon 7 days: the owned manual snapshot of 8 days is
    deleted, the platform's own snapshot of the same age is not. *)
Lemma cleanup_scenario :
  gone (snap "old-owned" 8 manual marker)
       (cleanup_old_snapshots "dhakacart-db" 7 world0).2 ∧
  ¬ gone (snap "rds:old-platform" 8 automated marker)
         (cleanup_old_snapshots "dhakacart-db" 7 world0).2.
Proof.
  assert (Hwf : catalog_wf (snapshots world0))
    by (split; apply (bool_decide_unpack _); vm_compute; exact I).
  assert (Hrun : cleanup_old_snapshots "dhakacart-db" 7 world0 =
                 ((cleanup_old_snapshots "dhakacart-db" 7 world0).1,
                  (cleanup_old_snapshots "dhakacart-db" 7 world0).2))
    by (vm_compute; reflexivity).
  split.
  - assert (Hin : snap "old-owned" 8 manual marker ∈ snapshots world0)
      by (cbn; left).
    destruct (cleanup_deletes_exactly_expired_owned_manual
                _ _ _ _ _ _ Hwf Hrun Hin) as (_ & _ & _ & Hexact).
    destruct (Hexact {| deleted_count := 1; deleted_snapshots := ["old-owned"] |})
      as ([_ Hgone] & _); [vm_compute; reflexivity..|].
    apply Hgone. split; [vm_compute; reflexivity|].
    split; [|reflexivity]. apply (bool_decide_unpack _); vm_compute; exact I.
  - assert (Hin : snap "rds:old-platform" 8 automated marker ∈ snapshots world0)
      by (cbn; do 3 right; left).
    destruct (cleanup_deletes_exactly_expired_owned_manual
                _ _ _ _ _ _ Hwf Hrun Hin) as (_ & Hauto & _).
    apply Hauto. reflexivity.
Defined.


(** The first run has to complete: a first run that a failing tag lookup
    cuts short leaves the expired snapshot in the catalog, and a second run
    at the same reference time deletes it. *)
Example second_cleanup_after_aborted_run :
  let throttled c :=
    match c with
    | ListTagsForResource "arn:aws:rds:::snapshot:old-owned" => Some "Throttling"
    | _ => None
    end in
  let run1 := cleanup_old_snapshots "dhakacart-db" 7 (set_faults throttled world0) in
  let w2 := set_faults no_faults run1.2 in
  let run2 := cleanup_old_snapshots "dhakacart-db" 7 w2 in
  run1.1 = Raise (ClientError "ListTagsForResource" "Throttling") ∧
  snapshots w2 = snapshots run1.2 ∧ clock w2 = clock world0 ∧
  run2.1 = Ok {| deleted_count := 1; deleted_snapshots := ["old-owned"] |}.
Proof. vm_compute. repeat split; reflexivity. Qed.




(** A second run one microsecond later: the snapshot created exactly at
    the first cutoff lies between the two cutoffs. *)
Example second_cleanup_newly_expired_scenario :
  let w1 := (cleanup_old_snapshots "dhakacart-db" 7 world0).2 in
  let s := snap "boundary-owned" 7 manual marker in
  s ∈ snapshots world0 ∧ owned s ∧
  clock world0 - 7 * usec_per_day ≤ SnapshotCreateTime s
    < clock (set_clock (clock w1 + 1) w1) - 7 * usec_per_day.
Proof.
  cbv zeta. split; [cbn; do 4 right; left|].
  split; [unfold owned, ownership_marker; cbn; in_list|].
  vm_compute. split; [discriminate|reflexivity].
Qed.

End RetentionClaims.

(** ** Claims on the verifier's checks *)

Section CheckClaims.
Import Py Model Cloud Spec BackupVerifier Scenario.

(** C6.  When the listing request succeeds, the export-freshness check
    reports WARN if the store has no object under the exports/ prefix, WARN
    if it has objects there but none modified within the last 7 days, and
    PASS if at least one was modified within the last 7 days. *)
Theorem export_freshness_verdict
    (bucket : string) (w : World) (objs : list S3Object) :
  faults w (ListObjectsV2 bucket) = None →
  buckets w !! bucket = Some objs →
  datetime_min ≤ clock w - 7 * usec_per_day ≤ datetime_max →
  let cutoff_time := clock w - 7 * usec_per_day in
  ∃ r, verify_s3_backups bucket w = (Ok r, w) ∧
    (exports_under objs = [] → s3_status r = WARN) ∧
    (exports_under objs ≠ [] →
     (∀ obj, obj ∈ exports_under objs → ¬ cutoff_time < LastModified obj) →
     s3_status r = WARN) ∧
    ((∃ obj, obj ∈ exports_under objs ∧ cutoff_time < LastModified obj) →
     s3_status r = PASS).
Proof.
  intros Hf Hb Hrange cutoff_time. eexists. split.
  { rewrite verify_s3_run, Hf, Hb, datetime_sub_in_range by done. reflexivity. }
  fold cutoff_time. destruct (exports_under objs) as [|o l] eqn:Hex.
  - split; [done|]. split; [done|].
    intros (obj & Hin & _). by apply not_elem_of_nil in Hin.
  - cbn zeta. split; [done|]. split.
    + intros _ Hold. unfold recent_exports.
      rewrite filter_none by exact Hold. reflexivity.
    + intros (obj & Hin & Hnew).
      assert (Hrec : obj ∈ recent_exports cutoff_time (o :: l))
        by (apply list_elem_of_filter; done).
      destruct (recent_exports cutoff_time (o :: l)); [|reflexivity].
      by apply not_elem_of_nil in Hrec.
Qed.

(** One export of two days ago under the prefix: PASS. *)
Lemma export_freshness_scenario :
  ∃ r, verify_s3_backups "dhakacart-backups" world0 = (Ok r, world0) ∧
       s3_status r = PASS.
Proof.
  destruct (export_freshness_verdict "dhakacart-backups" world0 objects0)
    as (r & Hrun & _ & _ & Hpass).
  - reflexivity.
  - reflexivity.
  - vm_compute. split; discriminate.
  - exists r. split; [exact Hrun|]. apply Hpass.
    exists {| Key := "exports/2023/11/12/dump.parquet"; Size := 4096;
              LastModified := t0 - 2 * usec_per_day |}.
    split; [vm_compute; left|vm_compute; reflexivity].
Defined.

(** C3, as stated, fails: with a connection and queries that all succeed
    and a scratch table that reads back no row, the connectivity
    sub-verdict is PASS; the count only sets the [write_test] entry. *)
Lemma connectivity_passes_without_round_trip :
  db_execute world_lost_row (CountTestRows (test_table_name world_lost_row))
    = DbRow (DbInt 0) ∧
  (test_database_connectivity creds0 world_lost_row).1 =
    Ok (ConnectivityChecked PASS (DbText "PostgreSQL 15.4") (DbInt 12)
          (DbText "N/A (table may not exist)") FAIL) ∧
  connectivity_status
    (ConnectivityChecked PASS (DbText "PostgreSQL 15.4") (DbInt 12)
       (DbText "N/A (table may not exist)") FAIL) = PASS.
Proof. vm_compute. repeat split; reflexivity. Qed.

(** C3, amended.  In every run of the connectivity check in which the
    connection and the queries succeed, the sub-verdict is PASS whatever
    the scratch-table round-trip count is; the count decides the
    [write_test] entry of the evidence, which is PASS if the count equals
    exactly 1 and FAIL otherwise. *)
Theorem connectivity_verdict_and_write_test
    (creds : gmap string string) (c : Credentials) (w : World) :
  credentials_of creds = Some c →
  db_connect w c = None →
  (∀ q, q ∈ probe_script w → succeeds w q) →
  ∃ db_version table_count product_count test_count write_test,
    db_execute w (CountTestRows (test_table_name w)) = DbRow test_count ∧
    test_database_connectivity creds w =
      (Ok (ConnectivityChecked PASS db_version table_count product_count
             write_test), w) ∧
    (write_test = PASS ↔ test_count = DbInt 1) ∧
    (write_test = FAIL ↔ test_count ≠ DbInt 1).
Proof.
  intros Hc Hconn Hall.
  unfold credentials_of in Hc.
  destruct (creds !! "host") as [h|] eqn:Hh; [|done].
  destruct (creds !! "port") as [p|] eqn:Hp; [|done].
  destruct (creds !! "dbname") as [d|] eqn:Hd; [|done].
  destruct (creds !! "username") as [u|] eqn:Hu; [|done].
  destruct (creds !! "password") as [pw|] eqn:Hpw; [|done].
  cbn in Hc. injection Hc as <-.
  assert (Hscript : ∀ q, q ∈ probe_script w → ∃ v, db_execute w q = DbRow v)
    by exact Hall.
  unfold probe_script, test_table_name in Hscript.
  destruct (Hscript SelectVersion) as [db_version Hq1]; [in_list|].
  destruct (Hscript CountPublicTables) as [table_count Hq2]; [in_list|].
  destruct (Hscript (CreateTestTable ("backup_test_" +:+ pretty (int_timestamp (clock w)))))
    as [v3 Hq3]; [in_list|].
  destruct (Hscript (InsertTestRow ("backup_test_" +:+ pretty (int_timestamp (clock w)))))
    as [v4 Hq4]; [in_list|].
  destruct (Hscript (CountTestRows ("backup_test_" +:+ pretty (int_timestamp (clock w)))))
    as [test_count Hq5]; [in_list|].
  destruct (Hscript (DropTestTable ("backup_test_" +:+ pretty (int_timestamp (clock w)))))
    as [v6 Hq6]; [in_list|].
  destruct (Hscript Commit) as [v7 Hq7]; [in_list|].
  assert (Hproducts : ∃ product_count,
            try_except_only is_psycopg2_error (execute CountProducts)
              (λ _, mret (DbText "N/A (table may not exist)")) w
            = (Ok product_count, w)).
  { unfold try_except_only. rewrite try_except_run, execute_run.
    destruct (db_execute w CountProducts); cbn; eauto. }
  destruct Hproducts as [product_count Hproducts].
  exists db_version, table_count, product_count, test_count,
    (if equals_int test_count 1 then PASS else FAIL).
  split; [exact Hq5|]. split.
  - unfold test_database_connectivity, utcnow. rewrite try_except_run.
    repeat (rewrite bind_run;
            rewrite ?subscript_run, ?connect_run, ?execute_run, ?Hh, ?Hp, ?Hd,
              ?Hu, ?Hpw, ?Hconn, ?Hq1, ?Hq2, ?Hproducts;
            unfold gets; cbn beta iota;
            rewrite ?execute_run, ?Hq3, ?Hq4, ?Hq5, ?Hq6, ?Hq7;
            cbn beta iota).
    reflexivity.
  - destruct test_count as [n| |]; cbn; try (split; split; congruence).
    destruct (Z.eqb_spec n 1) as [->|Hne]; split; split; congruence.
Qed.

(** The round trip reads back one row: PASS with a passing write test. *)
Lemma connectivity_scenario :
  ∃ db_version table_count product_count,
    test_database_connectivity creds0 world0 =
      (Ok (ConnectivityChecked PASS db_version table_count product_count PASS),
       world0).
Proof.
  destruct (connectivity_verdict_and_write_test creds0
              {| host := "db.internal"; port := "5432"; dbname := "dhakacart";
                 username := "backup"; password := "secret" |} world0)
    as (v & t & p & n & wt & Hn & Hrun & Hpass & _).
  - vm_compute; reflexivity.
  - reflexivity.
  - intros q Hq. unfold probe_script in Hq.
    repeat (apply elem_of_cons in Hq as [->|Hq]; [vm_compute; eauto|]).
    by apply not_elem_of_nil in Hq.
  - exists v, t, p. rewrite Hrun. do 2 f_equal. f_equal. apply Hpass.
    vm_compute in Hn. congruence.
Defined.

(** C2.  In every verification run that produces a report, the three
    sub-verdicts in the report are those of the three checks, and the
    overall verdict is PASS if and only if all three are PASS; as soon as
    one of them is FAIL or WARN the overall verdict is FAIL. *)
Theorem overall_verdict_is_conjunction
    (event : gmap string string) (w w' : World) (env : Envelope)
    (msg : string) (rep : VerificationReport) :
  handler event w = (Ok env, w') →
  body env = BodyResults msg rep →
  let sv := snapshot_status (snapshot_verification rep) in
  let cv := connectivity_status (connectivity_test rep) in
  let xv := s3_status (s3_verification rep) in
  (∃ db s3 creds,
     verify_recent_snapshots db w = (Ok (snapshot_verification rep), w) ∧
     test_database_connectivity creds w = (Ok (connectivity_test rep), w) ∧
     verify_s3_backups s3 w = (Ok (s3_verification rep), w)) ∧
  (overall_status rep = PASS ↔ sv = PASS ∧ cv = PASS ∧ xv = PASS) ∧
  (sv ∈ [FAIL; WARN] ∨ cv ∈ [FAIL; WARN] ∨ xv ∈ [FAIL; WARN] →
   overall_status rep = FAIL).
Proof.
  intros Hrun Hbody sv cv xv.
  destruct (verifier_handler_report _ _ _ _ _ _ Hrun Hbody)
    as (db & s3 & creds & H1 & H2 & H3 & Hall).
  split; [by exists db, s3, creds|].
  rewrite Hall. unfold overall. fold sv cv xv. cbn [forallb id].
  split.
  - destruct sv, cv, xv; cbn; split; (done || intros (? & ? & ?); done).
  - intros Hbad. destruct sv, cv, xv; cbn; try done;
      exfalso; destruct Hbad as [Hb|[Hb|Hb]];
      repeat (apply elem_of_cons in Hb as [Hb|Hb]; [done|]);
      by apply not_elem_of_nil in Hb.
Qed.

(** The base scenario has no snapshot of the last 48 hours: the snapshot
    check fails, and so does the run. *)
Lemma overall_verdict_scenario :
  match (handler ∅ world0).1 with
  | Ok env =>
      match body env with
      | BodyResults _ rep => overall_status rep = FAIL
      | _ => False
      end
  | Raise _ => False
  end.
Proof.
  destruct (handler ∅ world0) as [[env|e] w'] eqn:Hrun;
    [|vm_compute in Hrun; discriminate].
  cbn [fst].
  destruct (body env) as [m r|m rep|err] eqn:Hbody;
    [vm_compute in Hrun; injection Hrun as <- <-; vm_compute in Hbody;
     discriminate| |
     vm_compute in Hrun; injection Hrun as <- <-; vm_compute in Hbody;
     discriminate].
  destruct (overall_verdict_is_conjunction _ _ _ _ _ _ Hrun Hbody)
    as (_ & _ & Hfail).
  apply Hfail. left.
  vm_compute in Hrun. injection Hrun as <- <-.
  vm_compute in Hbody. injection Hbody as <- <-.
  vm_compute. left.
Defined.

(** C5.  A record dated exactly at the cutoff is not selected: a snapshot
    created exactly at the retention cutoff is retained by cleanup and is
    not listed as deleted; a snapshot created exactly 48 hours before the
    freshness check, or an export object modified exactly 7 days before it,
    does not count as recent. *)
Theorem boundary_records_are_excluded
    (db : string) (retention_days : Z) (w : World)
    (o : Res CleanupResult) (w' : World) (s : DBSnapshot) :
  catalog_wf (snapshots w) →
  BackupManager.cleanup_old_snapshots db retention_days w = (o, w') →
  s ∈ snapshots w →
  SnapshotCreateTime s = clock w - retention_days * usec_per_day →
  (s ∈ snapshots w' ∧ ¬ gone s w' ∧
   ∀ r, o = Ok r → DBSnapshotIdentifier s ∉ deleted_snapshots r) ∧
  (∀ cutoff_time all x,
     SnapshotCreateTime x = cutoff_time → x ∉ recent_snapshots cutoff_time all) ∧
  (∀ v db',
     faults v DescribeDBSnapshots = None →
     datetime_min ≤ clock v - timedelta_hours 48 ≤ datetime_max →
     (∀ x, x ∈ listed_for_freshness db' v →
           SnapshotCreateTime x = clock v - timedelta_hours 48) →
     verify_recent_snapshots db' v = (Ok (SnapshotChecked FAIL 0 0 []), v)) ∧
  (∀ cutoff_time contents obj,
     LastModified obj = cutoff_time → obj ∉ recent_exports cutoff_time contents) ∧
  (∀ v bucket objs,
     faults v (ListObjectsV2 bucket) = None →
     buckets v !! bucket = Some objs →
     datetime_min ≤ clock v - 7 * usec_per_day ≤ datetime_max →
     exports_under objs ≠ [] →
     (∀ obj, obj ∈ exports_under objs →
             LastModified obj = clock v - 7 * usec_per_day) →
     verify_s3_backups bucket v = (Ok (S3Checked WARN 0 0 []), v)).
Proof.
  intros Hwf Hrun Hin Htime. split; [|split; [|split; [|split]]].
  - assert (Hstay : s ∈ snapshots w').
    { destruct (cleanup_safe _ _ _ _ _ s Hwf Hrun Hin)
        as [?|(_ & _ & Hlt & _)]; [done|lia]. }
    split; [done|]. split; [by apply elem_not_gone|].
    intros r ->.
    destruct (cleanup_ok _ _ _ _ _ Hwf Hrun) as (-> & _).
    intros (_ & _ & Hlt & _)%taken_spec; [lia|done..].
  - intros cutoff_time all x Hx [Hlt _]%list_elem_of_filter. lia.
  - intros v db' Hf Hrange Hall.
    rewrite verify_recent_run, datetime_sub_in_range, Hf by done. cbn zeta.
    unfold recent_snapshots. rewrite filter_none; [done|].
    intros x Hx. rewrite (Hall x Hx). lia.
  - intros cutoff_time contents obj Hobj [Hlt _]%list_elem_of_filter. lia.
  - intros v bucket objs Hf Hb Hrange Hne Hall.
    rewrite verify_s3_run, datetime_sub_in_range, Hf, Hb by done.
    destruct (exports_under objs) as [|x l] eqn:Hex; [done|]. cbn zeta.
    unfold recent_exports. rewrite filter_none; [done|].
    intros y Hy. rewrite (Hall y Hy). lia.
Qed.

(** Retention horizon 7 days: the owned snapshot created exactly 7 days ago
    is still in the catalog after cleanup. *)
Lemma boundary_scenario :
  snap "boundary-owned" 7 manual marker
    ∈ snapshots (BackupManager.cleanup_old_snapshots "dhakacart-db" 7 world0).2.
Proof.
  assert (Hwf : catalog_wf (snapshots world0))
    by (split; apply (bool_decide_unpack _); vm_compute; exact I).
  assert (Hrun : BackupManager.cleanup_old_snapshots "dhakacart-db" 7 world0 =
                 ((BackupManager.cleanup_old_snapshots "dhakacart-db" 7 world0).1,
                  (BackupManager.cleanup_old_snapshots "dhakacart-db" 7 world0).2))
    by (vm_compute; reflexivity).
  assert (Hin : snap "boundary-owned" 7 manual marker ∈ snapshots world0)
    by (cbn; in_list).
  assert (Htime : SnapshotCreateTime (snap "boundary-owned" 7 manual marker) =
                  clock world0 - 7 * usec_per_day) by reflexivity.
  destruct (boundary_records_are_excluded _ _ _ _ _ _ Hwf Hrun Hin Htime)
    as ((Hstay & _) & _).
  exact Hstay.
Defined.

End CheckClaims.

(** ** Claims on the manager *)

Section ManagerClaims.
Import Py Model Cloud Spec BackupManager Scenario.

(** C8, as stated, fails: the record returned by a successful
    [create_snapshot] carries the status of the creation response, read
    before the wait.  Here the snapshot is available once the wait is over
    and the returned status is still [creating]. *)
Lemma create_snapshot_reports_creation_status :
  let run := create_snapshot "dhakacart-db" "manual" "kms-1" world0 in
  run.1 = Ok {| snapshot_id := "dhakacart-db-manual-2023-11-14-22-13-20";
                status := creating; size := 20 |} ∧
  Status <$> find_snapshot "dhakacart-db-manual-2023-11-14-22-13-20"
               (snapshots run.2) = Some available.
Proof. vm_compute. split; reflexivity. Qed.

(** C8, amended.  Every successful [create_snapshot] call returns the
    generated identifier (instance, kind and UTC timestamp), the status
    that the creation response reported, which is [creating] and not the
    final status, and the allocated size of that response; by then the
    snapshot is in the catalog, and it is available there unless the polls
    were answered DBSnapshotNotFound, which the waiter takes for success.
    When the snapshot does not become available within the 120 polls that
    are 30 seconds apart, the call raises the waiter's error and returns no
    record; when it does, the call returns. *)
Theorem create_snapshot_result (db backup_type kms : string) (w : World) :
  let id := db +:+ "-" +:+ backup_type +:+ "-" +:+ strftime_dashed (clock w) in
  (∀ r w', create_snapshot db backup_type kms w = (Ok r, w') →
     snapshot_id r = id ∧ status r = creating ∧
     instances w !! db = Some (size r) ∧
     ∃ s, find_snapshot id (snapshots w') = Some s ∧
          (faults w DescribeDBSnapshots ≠ Some "DBSnapshotNotFound" →
           Status s = available)) ∧
  (faults w (CreateDBSnapshot id) = None →
   faults w DescribeDBSnapshots = None →
   is_Some (instances w !! db) →
   find_snapshot id (snapshots w) = None →
   (completion w id = None ∨ (∃ d, completion w id = Some d ∧ poll_ceiling < d) →
    ∃ w', create_snapshot db backup_type kms w =
            (Raise max_attempts_exceeded, w')) ∧
   (∀ d, completion w id = Some d → 0 < d ≤ poll_ceiling →
    ∃ r w', create_snapshot db backup_type kms w = (Ok r, w'))).
Proof.
  intros id. rewrite create_snapshot_run. cbn zeta. fold id.
  rewrite create_db_snapshot_run. split.
  - intros r w' H.
    destruct (faults w (CreateDBSnapshot id)); [done|].
    destruct (instances w !! db) as [storage|]; [|done].
    destruct (find_snapshot id (snapshots w)) eqn:Hfresh; [done|].
    cbn beta iota zeta in H.
    set (new := {| DBSnapshotIdentifier := id; Status := creating |}) in H.
    set (w0 := set_snapshots (snapshots w ++ [new]) w) in H.
    assert (Hin : is_Some (find_snapshot id (snapshots w0))).
    { exists new. unfold w0. cbn [snapshots set_snapshots].
      by apply find_snapshot_app_new. }
    pose proof (waiter_wait_keeps 30 id 120 w0 Hin) as [s Hs].
    destruct (waiter_wait 30 120 id w0) as [[[]|e] w1] eqn:Hwait; [|done].
    injection H as <- <-. cbn. repeat split; try done.
    exists s. split; [exact Hs|]. intros Hnf.
    destruct (waiter_wait_ok _ _ _ _ _ Hwait Hin Hnf) as (s' & Hs' & Hst).
    cbn [snd] in Hs. congruence.
  - intros -> Hf [storage ->] Hfresh. rewrite Hfresh. cbn beta iota zeta.
    set (s := {| DBSnapshotIdentifier := id; Status := creating |}).
    set (w1 := set_snapshots (snapshots w ++ [s]) w).
    assert (Hfind : find_snapshot id (snapshots w1) = Some s)
      by (by apply find_snapshot_app_new).
    split.
    + intros [Hnone|(d & Hd & Hlate)].
      * destruct (waiter_wait_stuck 30 id 120 w1 s) as (w' & Hrun & _);
          [done..|].
        exists w'. by rewrite Hrun.
      * assert (0 < poll_ceiling) by done.
        destruct (waiter_wait_due 30 d id 119 w1 s) as (w' & Hrun & _);
          [lia|done..| |].
        { change (clock w1 < clock w + d). change (clock w1) with (clock w). lia. }
        exists w'. rewrite Hrun. rewrite decide_False; [done|].
        unfold poll_ceiling in Hlate.
        change (SnapshotCreateTime s) with (clock w).
        change (clock w1) with (clock w).
        set (c := Z.of_nat 119 * (30 * usec_per_second)) in *. lia.
    + intros d Hd [Hpos Hsoon].
      destruct (waiter_wait_due 30 d id 119 w1 s) as (w' & Hrun & _);
        [lia|done..| |].
      { change (clock w1 < clock w + d). change (clock w1) with (clock w). lia. }
      eexists _, w'. rewrite Hrun. rewrite decide_True; [done|].
      unfold poll_ceiling in Hsoon.
      change (SnapshotCreateTime s) with (clock w).
      change (clock w1) with (clock w).
      set (c := Z.of_nat 119 * (30 * usec_per_second)) in *. lia.
Qed.

(** The platform takes a minute: the call returns, with status [creating];
    the platform never finishes: the call raises. *)
Lemma create_snapshot_scenario :
  (∃ w', create_snapshot "dhakacart-db" "manual" "kms-1" world0 =
           (Ok {| snapshot_id := "dhakacart-db-manual-2023-11-14-22-13-20";
                  status := creating; size := 20 |}, w')) ∧
  (∃ w', create_snapshot "dhakacart-db" "manual" "kms-1" world_stuck =
           (Raise max_attempts_exceeded, w')).
Proof.
  split.
  - destruct (create_snapshot "dhakacart-db" "manual" "kms-1" world0)
      as [[r|e] w'] eqn:Hrun; [|vm_compute in Hrun; discriminate].
    destruct (create_snapshot_result "dhakacart-db" "manual" "kms-1" world0)
      as [Hok _].
    destruct (Hok r w' Hrun) as (Hid & Hst & Hsize & _).
    exists w'. destruct r as [i st sz]. cbn in Hid, Hst, Hsize.
    vm_compute in Hid, Hsize. injection Hsize as <-. by subst.
  - destruct (create_snapshot_result "dhakacart-db" "manual" "kms-1" world_stuck)
      as [_ Htimeout].
    destruct Htimeout as [Hraise _]; [reflexivity|reflexivity|
      vm_compute; eauto|vm_compute; reflexivity|].
    apply Hraise. by left.
Defined.

(** C4: the instance identifier is missing from the configuration.  Both
    handlers reach their [except] block before [sns_topic_arn] is bound,
    and the block's use of that variable raises: the invoking platform gets
    an exception, not the 500 envelope. *)
Theorem handlers_raise_without_instance_id :
  (BackupManager.handler ∅ world_unconfigured).1
    = Raise (UnboundLocalError "sns_topic_arn") ∧
  (BackupVerifier.handler ∅ world_unconfigured).1
    = Raise (UnboundLocalError "sns_topic_arn").
Proof. vm_compute. split; reflexivity. Qed.

(** What the handler does with the event depends on the action, the type
    and the snapshot identifier that it reads from it. *)
Lemma handler_reads (event event' : gmap string string) (w : World) :
  default "create_snapshot" (event !! "action")
    = default "create_snapshot" (event' !! "action") →
  default "manual" (event !! "type") = default "manual" (event' !! "type") →
  event !! "snapshot_id" = event' !! "snapshot_id" →
  handler event w = handler event' w.
Proof.
  intros Ha Ht Hs. unfold handler. rewrite !bind_run. unfold attempt.
  unfold handler_bindings. rewrite Ha, Ht.
  match goal with
  | |- context [match ?c w with _ => _ end] =>
      destruct (c w) as [[[[[[action bt] db] s3] sns]|e] w1]; [|done]
  end.
  rewrite !try_except_run. unfold handler_rest. rewrite !bind_run.
  destruct (getenv "KMS_KEY_ID" w1) as [[kms|e] w2]; [|done].
  rewrite !bind_run.
  destruct (getenv "RETENTION_DAYS" w2) as [[text|e] w3]; [|done].
  rewrite !bind_run.
  destruct (of_option _ _ w3) as [[days|e] w4]; [|done].
  rewrite !bind_run.
  assert (dispatch event action bt db s3 kms days =
          dispatch event' action bt db s3 kms days) as ->; [|done].
  unfold dispatch. by rewrite Hs.
Qed.

(** C10.  An event without an [action] field is handled as a
    [create_snapshot] request, and without a [type] field the kind is
    [manual].  With the configuration complete, the handler runs
    [create_snapshot] for the configured instance and that kind: when the
    creation returns, the handler answers with the 200 envelope that
    carries its result; when it raises, with the 500 envelope that carries
    its error, which is never the unknown-action error.  In every world the
    handler does on such an event what it does on the event with the
    action written out. *)
Theorem absent_action_defaults_to_create_snapshot
    (event : gmap string string) (w : World)
    (db s3 sns kms text : string) (days : Z) :
  event !! "action" = None →
  environ w !! "DB_INSTANCE_ID" = Some db →
  environ w !! "S3_BUCKET" = Some s3 →
  environ w !! "SNS_TOPIC_ARN" = Some sns →
  environ w !! "KMS_KEY_ID" = Some kms →
  environ w !! "RETENTION_DAYS" = Some text →
  int_of_str text = Some days →
  let backup_type := default "manual" (event !! "type") in
  (event !! "type" = None → backup_type = "manual") ∧
  handler event w =
    match create_snapshot db backup_type kms w with
    | (Ok r, w1) =>
        (Ok {| statusCode := 200;
               body := BodyResult
                 "Backup operation create_snapshot completed successfully"
                 (RCreate r) |},
         (send_notification sns "Backup operation successful: create_snapshot"
            (MsgResult (RCreate r)) "SUCCESS" w1).2)
    | (Raise e, w1) =>
        (Ok {| statusCode := 500;
               body := BodyError ("Backup operation failed: " +:+ exn_str e) |},
         (send_notification sns "Backup operation failed"
            (MsgText ("Backup operation failed: " +:+ exn_str e)) "ERROR" w1).2)
    end ∧
  (∀ env w', handler event w = (Ok env, w') →
     ∀ action, body env ≠
       BodyError ("Backup operation failed: Unknown action: " +:+ action)) ∧
  handler event w = handler (<["action" := "create_snapshot"]> event) w.
Proof.
  intros Hnone Hdb Hs3 Hsns Hkms Htext Hdays backup_type.
  assert (Hrun : handler event w =
    match create_snapshot db backup_type kms w with
    | (Ok r, w1) =>
        (Ok {| statusCode := 200;
               body := BodyResult
                 "Backup operation create_snapshot completed successfully"
                 (RCreate r) |},
         (send_notification sns "Backup operation successful: create_snapshot"
            (MsgResult (RCreate r)) "SUCCESS" w1).2)
    | (Raise e, w1) =>
        (Ok {| statusCode := 500;
               body := BodyError ("Backup operation failed: " +:+ exn_str e) |},
         (send_notification sns "Backup operation failed"
            (MsgText ("Backup operation failed: " +:+ exn_str e)) "ERROR" w1).2)
    end).
  { rewrite manager_handler_run, Hdb, Hs3, Hsns, Hnone.
    cbn [default]. fold backup_type.
    rewrite manager_handler_rest_run, Hkms, Htext, Hdays.
    unfold dispatch. rewrite decide_True by done. rewrite bind_run.
    by destruct (create_snapshot db backup_type kms w) as [[r|e] w1]. }
  split; [intros Hty; unfold backup_type; by rewrite Hty|].
  split; [exact Hrun|]. split.
  - intros env w' H action. rewrite Hrun in H.
    destruct (create_snapshot db backup_type kms w) as [[r|e] w1] eqn:Hcreate;
      injection H as <- <-; cbn [body]; [done|].
    intros [= Heq].
    destruct (create_snapshot_raises _ _ _ _ _ _ Hcreate) as [[code ->]|[reason ->]];
      discriminate Heq.
  - apply handler_reads.
    + by rewrite Hnone, lookup_insert_eq.
    + by rewrite lookup_insert_ne.
    + by rewrite lookup_insert_ne.
Qed.

(** The empty event in the base scenario: the handler answers with the
    result of the creation, and the new snapshot is in the catalog. *)
Lemma empty_event_scenario :
  (handler ∅ world0).1 =
    Ok {| statusCode := 200;
          body := BodyResult
            "Backup operation create_snapshot completed successfully"
            (RCreate {| snapshot_id := "dhakacart-db-manual-2023-11-14-22-13-20";
                        status := creating; size := 20 |}) |} ∧
  is_Some (find_snapshot "dhakacart-db-manual-2023-11-14-22-13-20"
             (snapshots (handler ∅ world0).2)).
Proof.
  destruct (absent_action_defaults_to_create_snapshot ∅ world0
              "dhakacart-db" "dhakacart-backups" "arn:aws:sns:::backup-alerts"
              "kms-1" "7" 7) as (_ & Heq & _);
    [reflexivity..|].
  rewrite Heq. vm_compute. split; [reflexivity|by eexists].
Defined.

(** An action that is not known, with the configuration complete: the
    500 envelope. *)
Example unknown_action_envelope :
  (handler {[ "action" := "rotate_keys" ]} world0).1 =
    Ok {| statusCode := 500;
          body := BodyError
            "Backup operation failed: Unknown action: rotate_keys" |}.
Proof. vm_compute. reflexivity. Qed.

(** The retention horizon is not a number: the 500 envelope. *)
Example bad_retention_envelope :
  (handler {[ "action" := "cleanup_snapshots" ]}
     (with_environ (<["RETENTION_DAYS" := "a week"]> env0) world0)).1 =
    Ok {| statusCode := 500;
          body := BodyError
            "Backup operation failed: invalid literal for int() with base 10: 'a week'" |}.
Proof. vm_compute. reflexivity. Qed.

End ManagerClaims.

(** ** Claims on the result sink *)

Section SinkClaims.
Import Py Model Cloud Spec Scenario.

(** C9.  Emitting the notification and persisting the verification report
    never raise, whatever the sink does; and what either handler returns or
    raises (status code, verdict, result), as well as what it does to the
    snapshot catalog and the export tasks, is the same whether the sink's
    requests fail or not. *)
Theorem sink_failures_are_swallowed
    (event : gmap string string) (w : World) (f1 f2 : Call → option string) :
  (∀ c, ¬ is_sink c → f1 c = f2 c) →
  let m1 := BackupManager.handler event (set_faults f1 w) in
  let m2 := BackupManager.handler event (set_faults f2 w) in
  let v1 := BackupVerifier.handler event (set_faults f1 w) in
  let v2 := BackupVerifier.handler event (set_faults f2 w) in
  (m1.1 = m2.1 ∧ snapshots m1.2 = snapshots m2.2 ∧
   export_tasks m1.2 = export_tasks m2.2) ∧
  (v1.1 = v2.1 ∧ snapshots v1.2 = snapshots v2.2) ∧
  (∀ topic subject message status u,
     (BackupManager.send_notification topic subject message status u).1 = Ok () ∧
     (BackupVerifier.send_notification topic subject message status u).1 = Ok ()) ∧
  (∀ bucket results u,
     (BackupVerifier.store_verification_results bucket results u).1 = Ok ()).
Proof.
  intros Hagree m1 m2 v1 v2.
  assert (Hsame : same_but_sink (set_faults f1 w) (set_faults f2 w))
    by (by split).
  destruct (si_manager_handler event _ _ Hsame) as [Hm [? ? ? ? ? ?]].
  destruct (si_verifier_handler event _ _ Hsame) as [Hv [? ? ? ? ? ?]].
  repeat split; try done.
  - apply manager_send_notification_sink_only.
  - apply verifier_send_notification_sink_only.
  - apply store_verification_results_sink_only.
Qed.

(** With the sink down, the empty event still gets its 200 envelope. *)
Lemma sink_down_scenario :
  (BackupManager.handler ∅ world_sink_down).1 =
    Ok {| statusCode := 200;
          body := BodyResult
            "Backup operation create_snapshot completed successfully"
            (RCreate {| snapshot_id := "dhakacart-db-manual-2023-11-14-22-13-20";
                        status := creating; size := 20 |}) |} ∧
  published (BackupManager.handler ∅ world_sink_down).2 = [].
Proof.
  destruct (sink_failures_are_swallowed ∅ world0 sink_down no_faults)
    as ((Hm & _) & _).
  - intros [] Hc; try reflexivity; by destruct Hc.
  - split; [|vm_compute; reflexivity].
    change world_sink_down with (set_faults sink_down world0).
    rewrite Hm. vm_compute. reflexivity.
Defined.

End SinkClaims.

(** * Further properties *)

(** ** What a computation leaves alone *)

Section Frame.
Import Py Model Cloud Spec Behaviour.
Context {B : Type} (f : World → B).

Lemma pres_ret {A : Type} (a : A) : preserves f (mret a : M A).
Proof. by intros w. Qed.

Lemma pres_raise {A : Type} (e : Exn) : preserves f (raise e : M A).
Proof. by intros w. Qed.

Lemma pres_bind {A C : Type} (c : M A) (k : A → M C) :
  preserves f c → (∀ a, preserves f (k a)) → preserves f (c ≫= k).
Proof.
  intros Hc Hk w. rewrite bind_run. specialize (Hc w).
  destruct (c w) as [[a|e] w1]; cbn in Hc; [|done].
  rewrite <- Hc. apply Hk.
Qed.

Lemma pres_try_except {A : Type} (c : M A) (h : Exn → M A) :
  preserves f c → (∀ e, preserves f (h e)) → preserves f (try_except c h).
Proof.
  intros Hc Hh w. rewrite try_except_run. specialize (Hc w).
  destruct (c w) as [[a|e] w1]; cbn in Hc; [done|].
  rewrite <- Hc. apply Hh.
Qed.

Lemma pres_attempt {A : Type} (c : M A) : preserves f c → preserves f (attempt c).
Proof. intros Hc w. unfold attempt. specialize (Hc w). by destruct (c w). Qed.

Lemma pres_read_only {A : Type} (c : M A) : read_only c → preserves f c.
Proof. intros Hc w. by rewrite Hc. Qed.

Lemma pres_modify (g : World → World) :
  (∀ w, f (g w) = f w) → preserves f (modify g).
Proof. intros Hg w. apply Hg. Qed.

End Frame.

(** Go through a program by its structure; what is left are the updates of
    the world. *)
Ltac pres :=
  repeat first
    [ assumption
    | simple apply pres_ret
    | simple apply pres_raise
    | simple apply pres_read_only;
        first [simple apply read_only_gets | simple apply read_only_of_option
              | simple apply read_only_subscript | simple apply read_only_request
              | simple apply read_only_execute | simple apply read_only_connect
              | simple apply read_only_getenv
              | simple apply read_only_get_secret_value ]
    | simple apply pres_modify; intros ?; reflexivity
    | simple apply pres_bind; [|intros ?]
    | simple apply pres_try_except; [|intros ?]
    | simple apply pres_attempt
    | match goal with
      | |- Behaviour.preserves _ (match ?x with _ => _ end) => destruct x
      | |- Behaviour.preserves _ (if ?x then _ else _) => destruct x
      end
    | progress cbn zeta ].

Section FramePrograms.
Import Py Model Cloud Spec Behaviour BackupManager.

Lemma pres_waiter_wait {B : Type} (f : World → B) (delay : Z) (n : nat)
    (id : string) :
  (∀ u w, f (advance u w) = f w) →
  preserves f (waiter_wait delay n id).
Proof.
  intros Hadv. induction n as [|n IH]; [apply pres_raise|].
  rewrite waiter_wait_S. unfold describe_db_snapshot, sleep.
  apply pres_bind.
  - apply pres_try_except; [pres|].
    intros e. unfold waiter_poll_failed. pres.
  - intros success. pres. apply pres_modify. intros ?. apply Hadv.
Qed.

Lemma pres_cleanup_loop {B : Type} (f : World → B) (cutoff : Z)
    (resp : list DBSnapshot) :
  (∀ l w, f (set_snapshots l w) = f w) →
  ∀ deleted, preserves f (cleanup_loop cutoff resp deleted).
Proof.
  intros Hset. induction resp as [|s rest IH]; intros deleted; [apply pres_ret|].
  cbn [cleanup_loop]. unfold list_tags_for_resource, delete_db_snapshot.
  pres; try apply IH; try (apply pres_modify; intros ?; apply Hset).
Qed.

Lemma aside_advance {B : Type} (f : World → B) (u : Z) (w : World) :
  aside f → f (advance u w) = f w.
Proof. intros (Hs & _ & Hc). unfold advance. by rewrite Hs, Hc. Qed.

Lemma pres_create_snapshot {B : Type} (f : World → B) (db bt kms : string) :
  (∀ l w, f (set_snapshots l w) = f w) →
  (∀ u w, f (advance u w) = f w) →
  preserves f (create_snapshot db bt kms).
Proof.
  intros Hs Ha. unfold create_snapshot, utcnow, create_db_snapshot.
  pres; try (apply pres_modify; intros ?; apply Hs).
  by apply pres_waiter_wait.
Qed.

Lemma pres_cleanup_old_snapshots {B : Type} (f : World → B) (db : string)
    (d : Z) :
  (∀ l w, f (set_snapshots l w) = f w) →
  preserves f (cleanup_old_snapshots db d).
Proof.
  intros Hs. unfold cleanup_old_snapshots, utcnow, describe_db_snapshots.
  pres. by apply pres_cleanup_loop.
Qed.

Lemma pres_export_snapshot_to_s3 {B : Type} (f : World → B)
    (id : option string) (s3 kms : string) :
  (∀ l w, f (set_export_tasks l w) = f w) →
  preserves f (export_snapshot_to_s3 id s3 kms).
Proof.
  intros He. unfold export_snapshot_to_s3, utcnow, describe_db_snapshot,
    first_snapshot, start_export_task.
  pres; try (apply pres_modify; intros ?; apply He).
Qed.

Lemma pres_dispatch {B : Type} (f : World → B) (event : gmap string string)
    (action bt db s3 kms : string) (days : Z) :
  aside f → preserves f (dispatch event action bt db s3 kms days).
Proof.
  intros Ha. unfold dispatch. repeat case_decide; pres.
  - apply pres_create_snapshot; [apply Ha|]. intros. by apply aside_advance.
  - apply pres_cleanup_old_snapshots, Ha.
  - apply pres_export_snapshot_to_s3, Ha.
Qed.

Lemma aside_published : aside published.
Proof. by repeat split. Qed.

Lemma aside_faults : aside faults.
Proof. by repeat split. Qed.

(** Cleanup does not take time. *)
Lemma cleanup_keeps_clock (db : string) (d : Z) :
  preserves clock (cleanup_old_snapshots db d).
Proof. by apply pres_cleanup_old_snapshots. Qed.

End FramePrograms.

(** ** What the manager's operations do to the world *)

Section ManagerEffects.
Import Py Model Cloud Spec Behaviour BackupManager.

Lemma with_status_settle (st : SnapshotStatus) (w : World) (s : DBSnapshot) :
  with_status st (settle w s) = with_status st s.
Proof.
  unfold settle. destruct (Status s); try done.
  destruct (completion w _); [|done]. by case_match.
Qed.

Lemma identities_advance (u : Z) (w : World) :
  identities (advance u w) = identities w.
Proof.
  unfold identities, advance. cbn [snapshots set_snapshots set_clock].
  rewrite <- list_fmap_compose. apply list_fmap_ext. intros _ s _. cbn.
  apply with_status_settle.
Qed.

Lemma find_snapshot_with_status (st : SnapshotStatus) (id : string)
    (l : list DBSnapshot) :
  find_snapshot id (with_status st <$> l) = with_status st <$> find_snapshot id l.
Proof.
  induction l as [|x l IH]; [done|]. cbn.
  destruct (bool_decide (DBSnapshotIdentifier x = id)); [done|]. exact IH.
Qed.

Lemma with_status_inj_up_to (a b : DBSnapshot) :
  with_status creating a = with_status creating b → a = with_status (Status a) b.
Proof. destruct a, b. cbn. intros [= -> -> -> -> -> -> ->]. done. Qed.


(** The wait moves the clock forward, by at most the delays between its
    polls. *)
Lemma waiter_wait_clock (delay : Z) (id : string) (n : nat) :
  0 ≤ delay →
  ∀ w, clock w ≤ clock (waiter_wait delay n id w).2
               ≤ clock w + Z.of_nat (pred n) * (delay * usec_per_second).
Proof.
  intros Hdelay.
  assert (0 ≤ delay * usec_per_second) by (unfold usec_per_second; lia).
  induction n as [|n IH]; intros w; [cbn; lia|].
  rewrite waiter_wait_run.
  destruct (faults w DescribeDBSnapshots) as [code|];
    [destruct (bool_decide (code = _)); cbn; nia|].
  destruct (find_snapshot id (snapshots w)) as [s|]; [|cbn; nia].
  destruct (bool_decide (Status s = available)); [cbn; nia|].
  destruct n as [|m]; [cbn; lia|].
  specialize (IH (advance (delay * usec_per_second) w)).
  change (clock (advance (delay * usec_per_second) w))
    with (clock w + delay * usec_per_second) in IH.
  cbn [pred] in *. nia.
Qed.

(** [create_snapshot] returns or raises within the poll ceiling. *)
Lemma create_snapshot_clock (db backup_type kms : string) (w : World) :
  clock w ≤ clock (create_snapshot db backup_type kms w).2
          ≤ clock w + poll_ceiling.
Proof.
  assert (0 ≤ poll_ceiling) by done.
  rewrite create_snapshot_run. cbn zeta. rewrite create_db_snapshot_run.
  destruct (faults w (CreateDBSnapshot _)); [cbn; lia|].
  destruct (instances w !! db); [|cbn; lia].
  destruct (find_snapshot _ (snapshots w)); [cbn; lia|].
  cbn beta iota zeta.
  match goal with
  | |- context [waiter_wait 30 120 ?id ?w1] =>
      pose proof (waiter_wait_clock 30 id 120 ltac:(lia) w1) as Hc;
      destruct (waiter_wait 30 120 id w1) as [[[]|e] w2]
  end; cbn [snd] in *; exact Hc.
Qed.

(** A creation call that is accepted leaves the requested snapshot in the
    catalog, whether the wait that follows returns or raises; when the wait
    returns and its polls were not answered DBSnapshotNotFound, the snapshot
    is available. *)
Lemma create_snapshot_accepted (db backup_type kms : string) (w : World) :
  let id := db +:+ "-" +:+ backup_type +:+ "-" +:+ strftime_dashed (clock w) in
  match faults w (CreateDBSnapshot id), instances w !! db,
        find_snapshot id (snapshots w) with
  | None, Some storage, None =>
      let new := requested_snapshot db backup_type (clock w) storage in
      identities (create_snapshot db backup_type kms w).2
        = (identities w ++ [new creating])%list ∧
      match create_snapshot db backup_type kms w with
      | (Ok r, w') =>
          r = {| snapshot_id := id; status := creating; size := storage |} ∧
          ∃ st, find_snapshot id (snapshots w') = Some (new st) ∧
                (faults w DescribeDBSnapshots ≠ Some "DBSnapshotNotFound" →
                 st = available)
      | (Raise e, _) =>
          ∃ reason,
            e = WaiterError ("Waiter DBSnapshotCompleted failed: " +:+ reason)
      end
  | _, _, _ =>
      ∃ code, create_snapshot db backup_type kms w
              = (Raise (ClientError "CreateDBSnapshot" code), w)
  end.
Proof.
  intros id. rewrite create_snapshot_run. cbn zeta. fold id.
  rewrite create_db_snapshot_run.
  destruct (faults w (CreateDBSnapshot id)); [by eauto|].
  destruct (instances w !! db) as [storage|]; [|by eauto].
  destruct (find_snapshot id (snapshots w)) eqn:Hfresh; [by eauto|].
  cbn beta iota zeta.
  set (new := requested_snapshot db backup_type (clock w) storage).
  change {| DBSnapshotIdentifier := id; DBSnapshotArn := snapshot_arn id;
            DBInstanceIdentifier := db; SnapshotCreateTime := clock w;
            Status := creating; AllocatedStorage := storage;
            SnapshotType := manual;
            TagList := [("BackupType", backup_type);
                        ("CreatedBy", "automated-backup-system");
                        ("Timestamp", strftime_dashed (clock w))] |}
    with (new creating).
  set (w1 := set_snapshots (snapshots w ++ [new creating]) w).
  pose proof (pres_waiter_wait identities 30 120 id identities_advance w1)
    as Hid.
  assert (Hids : identities (waiter_wait 30 120 id w1).2
                 = (identities w ++ [new creating])%list).
  { rewrite Hid. unfold identities, w1. cbn [snapshots set_snapshots].
    by rewrite fmap_app. }
  assert (Hin : find_snapshot id (snapshots w1) = Some (new creating)).
  { unfold w1. cbn [snapshots set_snapshots]. by apply find_snapshot_app_new. }
  pose proof (waiter_wait_keeps 30 id 120 w1 ltac:(by eexists)) as [s' Hfind].
  destruct (waiter_wait 30 120 id w1) as [[[]|e] w2] eqn:Hwait;
    cbn [snd] in *.
  - split; [done|]. split; [done|].
    assert (Hf : find_snapshot id (identities w2) = Some (new creating)).
    { rewrite Hids. apply find_snapshot_app_new; [|done].
      unfold identities. rewrite find_snapshot_with_status.
      by rewrite Hfresh. }
    unfold identities in Hf at 1. rewrite find_snapshot_with_status in Hf.
    rewrite Hfind in Hf. cbn [fmap option_fmap option_map] in Hf.
    assert (Hw : with_status creating s' = with_status creating (new creating))
      by (change (with_status creating (new creating)) with (new creating);
          congruence).
    apply with_status_inj_up_to in Hw.
    exists (Status s'). split; [by rewrite Hfind, Hw|].
    intros Hnf.
    destruct (waiter_wait_ok _ _ _ _ _ Hwait ltac:(by eexists) Hnf)
      as (s'' & Hs'' & Hst).
    congruence.
  - split; [done|]. by eapply waiter_wait_raises.
Qed.

(** [create_snapshot] adds at most one snapshot to the catalog and takes
    none out. *)
Lemma create_snapshot_identities (db backup_type kms : string) (w : World) :
  ∃ new, identities (create_snapshot db backup_type kms w).2
         = (identities w ++ new)%list ∧ (length new ≤ 1)%nat.
Proof.
  pose proof (create_snapshot_accepted db backup_type kms w) as H.
  cbn zeta in H.
  destruct (faults w (CreateDBSnapshot _));
    [destruct H as [code ->]; exists []; rewrite app_nil_r; split; [done|cbn; lia]|].
  destruct (instances w !! db);
    [|destruct H as [code ->]; exists []; rewrite app_nil_r; split; [done|cbn; lia]].
  destruct (find_snapshot _ (snapshots w));
    [destruct H as [code ->]; exists []; rewrite app_nil_r; split; [done|cbn; lia]|].
  destruct H as [-> _]. eexists [_]. split; [done|cbn; lia].
Qed.

(** The export starts no task. *)
Lemma export_tasks_grow (snapshot_id : option string) (s3 kms : string)
    (w : World) :
  ∃ t, export_tasks (export_snapshot_to_s3 snapshot_id s3 kms w).2
       = (export_tasks w ++ t)%list ∧ (length t ≤ 1)%nat.
Proof.
  rewrite export_run. exists []. rewrite app_nil_r. split; [done|]. cbn. lia.
Qed.

Lemma cleanup_loop_sublist (cutoff : Z) (resp : list DBSnapshot) :
  ∀ deleted w,
    snapshots (cleanup_loop cutoff resp deleted w).2 `sublist_of` snapshots w.
Proof.
  induction resp as [|s rest IH]; intros deleted w; [done|].
  cbn [cleanup_loop]. destruct (_ <? _); [|apply IH].
  rewrite bind_run, list_tags_run.
  destruct (faults w (ListTagsForResource _)); [done|].
  destruct (find_by_arn _ _); [|done].
  destruct (existsb _ _); [|apply IH].
  rewrite bind_run, delete_run.
  destruct (faults w (DeleteDBSnapshot _)); [done|].
  destruct (find_snapshot _ _); [|done].
  etrans; [apply IH|]. cbn. apply sublist_filter.
Qed.

(** Cleanup takes snapshots out of the catalog and adds none, however it
    ends. *)
Lemma cleanup_sublist (db : string) (retention_days : Z) (w : World) :
  snapshots (cleanup_old_snapshots db retention_days w).2
    `sublist_of` snapshots w.
Proof.
  rewrite cleanup_run.
  destruct (timedelta_days _); [|done].
  destruct (datetime_sub _ _) as [cutoff|]; [|done].
  destruct (faults w DescribeDBSnapshots); [done|].
  match goal with
  | |- context [cleanup_loop ?c ?l ?d w] =>
      pose proof (cleanup_loop_sublist c l d w) as Hsub;
      destruct (cleanup_loop c l d w) as [[r|e] w1]
  end; exact Hsub.
Qed.

Lemma length_filter_split {A : Type} (P : A → Prop) `{∀ x, Decision (P x)}
    (l : list A) :
  (length (filter P l) + length (filter (λ x, ¬ P x) l) = length l)%nat.
Proof.
  induction l as [|x l IH]; [done|].
  destruct (decide (P x)).
  - rewrite filter_cons_True, (filter_cons_False (λ x, ¬ P x)) by tauto.
    cbn [length Nat.add]. f_equal. exact IH.
  - rewrite filter_cons_False, (filter_cons_True (λ x, ¬ P x)) by tauto.
    cbn [length]. rewrite Nat.add_succ_r. f_equal. exact IH.
Qed.

Lemma filter_iff_elem {A : Type} (P Q : A → Prop)
    `{∀ x, Decision (P x)} `{∀ x, Decision (Q x)} (l : list A) :
  (∀ x, x ∈ l → (P x ↔ Q x)) → filter P l = filter Q l.
Proof.
  induction l as [|x l IH]; intros Hiff; [done|].
  rewrite !filter_cons.
  rewrite IH by (intros y Hy; apply Hiff; by right).
  destruct (decide (P x)) as [HP|HP], (decide (Q x)) as [HQ|HQ]; try done;
    exfalso; apply (Hiff x) in HP || apply (Hiff x) in HQ; done || left.
Qed.

Lemma own_resource_refl (action : string) (w : World) : own_resource action w w.
Proof.
  assert (0 ≤ poll_ceiling) by done.
  split; [done|]. split; [lia|]. split; [done|]. split; [done|].
  split; [|intros _; split; [done|]]; try intros _; exists [];
    rewrite app_nil_r; (split; [done|cbn; lia]).
Qed.

Lemma own_resource_dispatch (event : gmap string string)
    (action bt db s3 kms : string) (days : Z) (w : World) :
  own_resource action w (dispatch event action bt db s3 kms days w).2.
Proof.
  assert (0 ≤ poll_ceiling) by done.
  unfold dispatch.
  destruct (decide (action = "create_snapshot")) as [->|Hc].
  { rewrite bind_run.
    pose proof (pres_create_snapshot stored db bt kms ltac:(done) ltac:(done) w) as Hst.
    pose proof (pres_create_snapshot export_tasks db bt kms ltac:(done) ltac:(done) w) as Hex.
    pose proof (create_snapshot_clock db bt kms w) as Hclock.
    pose proof (create_snapshot_identities db bt kms w) as Hid.
    destruct (create_snapshot db bt kms w) as [[r|e] w1];
      unfold mret, M_ret; cbn [snd] in *;
      (split; [done|]; split; [done|]; split; [done|]; split; [done|];
       split; done). }
  destruct (decide (action = "cleanup_snapshots")) as [->|Hl].
  { rewrite bind_run.
    pose proof (pres_cleanup_old_snapshots stored db days ltac:(done) w) as Hst.
    pose proof (pres_cleanup_old_snapshots export_tasks db days ltac:(done) w) as Hex.
    pose proof (cleanup_keeps_clock db days w) as Hclock.
    pose proof (cleanup_sublist db days w) as Hsub.
    destruct (cleanup_old_snapshots db days w) as [[r|e] w1];
      unfold mret, M_ret; cbn [snd] in *;
      (split; [done|]; split; [lia|]; split; [done|]; split; [done|];
       split; done). }
  destruct (decide (action = "export_snapshot")) as [->|He].
  { cbn zeta. rewrite bind_run.
    pose proof (pres_export_snapshot_to_s3 stored (event !! "snapshot_id") s3 kms
                  ltac:(done) w) as Hst.
    pose proof (pres_export_snapshot_to_s3 snapshots (event !! "snapshot_id") s3 kms
                  ltac:(done) w) as Hsn.
    pose proof (pres_export_snapshot_to_s3 clock (event !! "snapshot_id") s3 kms
                  ltac:(done) w) as Hclock.
    pose proof (export_tasks_grow (event !! "snapshot_id") s3 kms w) as Hex.
    destruct (export_snapshot_to_s3 _ s3 kms w) as [[r|e] w1];
      unfold mret, M_ret; cbn [snd] in *;
      (split; [done|]; split; [lia|]; split; [done|];
       split; [by intros _; rewrite Hclock, Hsn|];
       split; [intros _; exists []; unfold identities; rewrite Hsn, app_nil_r;
               split; [done|cbn; lia]|done]). }
  apply own_resource_refl.
Qed.

End ManagerEffects.

(** ** Further properties of the backup manager *)

Section ManagerMore.
Import Py Model Cloud Spec Behaviour Scenario BackupManager.

(** A creation call that returns: the catalog has grown by the requested
    snapshot, which is found under the returned identifier. *)
Lemma create_snapshot_ok (db backup_type kms : string) (w w' : World)
    (r : CreateResult) :
  create_snapshot db backup_type kms w = (Ok r, w') →
  let new := requested_snapshot db backup_type (clock w) (size r) in
  instances w !! db = Some (size r) ∧
  snapshot_id r = DBSnapshotIdentifier (new creating) ∧
  identities w' = (identities w ++ [new creating])%list ∧
  ∃ st, find_snapshot (snapshot_id r) (snapshots w') = Some (new st) ∧
        (faults w DescribeDBSnapshots ≠ Some "DBSnapshotNotFound" →
         st = available).
Proof.
  intros H. pose proof (create_snapshot_accepted db backup_type kms w) as Hacc.
  cbn zeta in Hacc.
  destruct (faults w (CreateDBSnapshot _));
    [destruct Hacc as [code Hacc]; congruence|].
  destruct (instances w !! db) as [storage|];
    [|destruct Hacc as [code Hacc]; congruence].
  destruct (find_snapshot _ (snapshots w));
    [destruct Hacc as [code Hacc]; congruence|].
  rewrite H in Hacc. cbn [snd] in Hacc. destruct Hacc as (Hids & -> & Hfind).
  cbn zeta. cbn [snapshot_id size]. done.
Qed.

(** X1.  The manager's handler returns an envelope, with status code 200
    or 500, exactly when the environment binds DB_INSTANCE_ID, S3_BUCKET and
    SNS_TOPIC_ARN; when one of the three is missing, the handler raises the
    unbound-variable error of its own [except] block and changes nothing. *)
Theorem manager_handler_returns_iff_bound
    (event : gmap string string) (w : World) :
  ((∃ env w', handler event w = (Ok env, w') ∧
              (statusCode env = 200 ∨ statusCode env = 500)) ↔
   is_Some (environ w !! "DB_INSTANCE_ID") ∧ is_Some (environ w !! "S3_BUCKET")
   ∧ is_Some (environ w !! "SNS_TOPIC_ARN")) ∧
  (handler event w = (Raise (UnboundLocalError "sns_topic_arn"), w) ↔
   environ w !! "DB_INSTANCE_ID" = None ∨ environ w !! "S3_BUCKET" = None
   ∨ environ w !! "SNS_TOPIC_ARN" = None).
Proof.
  pose proof (manager_handler_outcome event w) as Hout.
  pose proof (manager_bindings_need event w) as Hneed.
  destruct (handler_bindings event w).1 as [b|e] eqn:Hb.
  - assert (Hall : ¬ (environ w !! "DB_INSTANCE_ID" = None
                      ∨ environ w !! "S3_BUCKET" = None
                      ∨ environ w !! "SNS_TOPIC_ARN" = None)).
    { intros H. apply Hneed in H as [e ?]. congruence. }
    destruct Hout as (env & w' & Hrun & Hst). split; split.
    + intros _. rewrite <- !not_eq_None_Some. tauto.
    + intros _. eauto.
    + rewrite Hrun. done.
    + done.
  - assert (Hsome : environ w !! "DB_INSTANCE_ID" = None
                    ∨ environ w !! "S3_BUCKET" = None
                    ∨ environ w !! "SNS_TOPIC_ARN" = None).
    { apply Hneed. eauto. }
    split; split.
    + intros (env & w' & Hrun & _). congruence.
    + intros (H1 & H2 & H3). rewrite <- !not_eq_None_Some in *. tauto.
    + done.
    + done.
Qed.

(** X2.  Whenever the manager's handler returns an envelope, it has sent
    exactly one notification to the configured topic, unless the publish
    request failed, in which case it has sent none; the notification agrees
    with the envelope: status SUCCESS and the operation's result for a 200
    envelope, status ERROR and the envelope's error text for a 500 envelope. *)
Theorem manager_notification_matches_envelope
    (event : gmap string string) (w w' : World) (env : Envelope) :
  handler event w = (Ok env, w') →
  ∃ topic, environ w !! "SNS_TOPIC_ARN" = Some topic ∧
    (is_Some (faults w (Publish topic)) → published w' = published w) ∧
    (faults w (Publish topic) = None →
     ∃ n, published w' = (published w ++ [n])%list ∧ TopicArn n = topic ∧
       match body env with
       | BodyResult _ result =>
           statusCode env = 200 ∧ n_status n = "SUCCESS" ∧
           n_message n = MsgResult result
       | BodyError err =>
           statusCode env = 500 ∧ n_status n = "ERROR" ∧
           n_message n = MsgText err
       | BodyResults _ _ => False
       end).
Proof.
  intros H. rewrite manager_handler_run in H.
  destruct (environ w !! "DB_INSTANCE_ID") as [db|]; [|done].
  destruct (environ w !! "S3_BUCKET") as [s3|]; [|done].
  destruct (environ w !! "SNS_TOPIC_ARN") as [sns|]; [|done].
  exists sns. split; [done|].
  set (action := default "create_snapshot" (event !! "action")) in *.
  set (bt := default "manual" (event !! "type")) in *.
  rewrite manager_handler_rest_run in H.
  pose proof (λ kms days, pres_dispatch published event action bt db s3 kms days
                aside_published w) as Hp.
  pose proof (λ kms days, pres_dispatch faults event action bt db s3 kms days
                aside_faults w) as Hf.
  destruct (environ w !! "KMS_KEY_ID") as [kms|];
    [destruct (environ w !! "RETENTION_DAYS") as [text|];
     [destruct (int_of_str text) as [days|];
      [specialize (Hp kms days); specialize (Hf kms days);
       destruct (dispatch event action bt db s3 kms days w) as [[result|e] w1];
       cbn [snd] in Hp, Hf|]|]|];
    injection H as <- <-;
    rewrite manager_send_notification_run; cbn [snd body statusCode];
    rewrite ?Hf;
    (destruct (faults w (Publish sns)) as [code|];
     [split; [done|done]
     |split; [by intros [? ?]|intros _; eexists; cbn; rewrite ?Hp; done]]).
Qed.

(** The empty event in the base scenario: one SUCCESS notification. *)
Lemma notification_scenario :
  ∃ n, published (handler ∅ world0).2 = [n] ∧ n_status n = "SUCCESS".
Proof.
  destruct (handler ∅ world0) as [[env|e] w'] eqn:Hrun;
    [|vm_compute in Hrun; discriminate].
  destruct (manager_notification_matches_envelope ∅ world0 w' env Hrun)
    as (topic & Htopic & _ & Hsent).
  vm_compute in Htopic. injection Htopic as <-.
  destruct (Hsent eq_refl) as (n & Hpub & _ & Hbody).
  exists n. split; [exact Hpub|].
  vm_compute in Hrun. injection Hrun as <- <-. cbn in Hbody. apply Hbody.
Defined.

(** X3.  With the three variables of the [except] block bound, a request
    that the manager rejects before it dispatches (KMS_KEY_ID missing,
    RETENTION_DAYS missing or not an integer literal, or an action that is
    none of the three known ones) gets the 500 envelope and leaves the
    snapshot catalog, the export tasks and the clock as they were; for an
    unknown action with a complete configuration the error text names the
    action. *)
Theorem rejected_request_touches_nothing
    (event : gmap string string) (w : World) (db s3 sns : string) :
  environ w !! "DB_INSTANCE_ID" = Some db →
  environ w !! "S3_BUCKET" = Some s3 →
  environ w !! "SNS_TOPIC_ARN" = Some sns →
  let action := default "create_snapshot" (event !! "action") in
  environ w !! "KMS_KEY_ID" = None
  ∨ environ w !! "RETENTION_DAYS" ≫= int_of_str = None
  ∨ action ∉ ["create_snapshot"; "cleanup_snapshots"; "export_snapshot"] →
  ∃ env w', handler event w = (Ok env, w') ∧ statusCode env = 500 ∧
    snapshots w' = snapshots w ∧ export_tasks w' = export_tasks w ∧
    clock w' = clock w ∧
    (is_Some (environ w !! "KMS_KEY_ID") →
     is_Some (environ w !! "RETENTION_DAYS" ≫= int_of_str) →
     body env = BodyError ("Backup operation failed: Unknown action: " +:+ action)).
Proof.
  intros Hdb Hs3 Hsns action Hbad.
  rewrite manager_handler_run, Hdb, Hs3, Hsns. fold action.
  rewrite manager_handler_rest_run.
  destruct (environ w !! "KMS_KEY_ID") as [kms|].
  2:{ eexists _, _. split; [done|]. rewrite manager_send_notification_run.
      destruct (faults w (Publish sns)); cbn; repeat split; try done;
        by intros [? ?]. }
  destruct (environ w !! "RETENTION_DAYS") as [text|]; cbn [mbind option_bind] in *.
  2:{ eexists _, _. split; [done|]. rewrite manager_send_notification_run.
      destruct (faults w (Publish sns)); cbn; repeat split; try done;
        by intros _ [? ?]. }
  destruct (int_of_str text) as [days|].
  2:{ eexists _, _. split; [done|]. rewrite manager_send_notification_run.
      destruct (faults w (Publish sns)); cbn; repeat split; try done;
        by intros _ [? ?]. }
  destruct Hbad as [?|[?|Hunknown]]; [done..|].
  rewrite dispatch_unknown by done.
  eexists _, _. split; [done|]. rewrite manager_send_notification_run.
  destruct (faults w (Publish sns)); cbn; repeat split; done.
Qed.

(** An action that is not known, in the base scenario. *)
Lemma rejected_request_scenario :
  ∃ env w', handler {[ "action" := "rotate_keys" ]} world0 = (Ok env, w') ∧
    snapshots w' = catalog0 ∧
    body env = BodyError "Backup operation failed: Unknown action: rotate_keys".
Proof.
  destruct (rejected_request_touches_nothing {[ "action" := "rotate_keys" ]}
              world0 "dhakacart-db" "dhakacart-backups"
              "arn:aws:sns:::backup-alerts")
    as (env & w' & Hrun & _ & Hsnap & _ & _ & Hbody);
    [reflexivity..| |].
  { right; right. apply (bool_decide_unpack _). vm_compute. exact I. }
  exists env, w'. split; [exact Hrun|]. split; [exact Hsnap|].
  apply Hbody; vm_compute; eauto.
Defined.

(** X4.  Whatever the event and however the run ends, one invocation of
    the manager touches only the resource of its action: it never changes
    the stored reports, publishes at most one notification, adds export
    tasks only for the export action (at most one), moves the clock and
    adds to the snapshot catalog only for the creation action (at most one
    snapshot, within the poll ceiling), and removes snapshots only for the
    cleanup action. *)
Theorem manager_action_touches_its_own_resource
    (event : gmap string string) (w : World) :
  let action := default "create_snapshot" (event !! "action") in
  let w' := (handler event w).2 in
  own_resource action w w' ∧
  ∃ pub, published w' = (published w ++ pub)%list ∧ (length pub ≤ 1)%nat.
Proof.
  intros action w'. unfold w'. rewrite manager_handler_run. fold action.
  assert (Hsame : own_resource action w w ∧
            ∃ pub, published w = (published w ++ pub)%list ∧ (length pub ≤ 1)%nat).
  { split; [apply own_resource_refl|]. exists []. rewrite app_nil_r.
    split; [done|cbn; lia]. }
  destruct (environ w !! "DB_INSTANCE_ID") as [db|]; [|done].
  destruct (environ w !! "S3_BUCKET") as [s3|]; [|done].
  destruct (environ w !! "SNS_TOPIC_ARN") as [sns|]; [|done].
  rewrite manager_handler_rest_run.
  assert (Hsend : ∀ t s m st w1,
            own_resource action w w1 → published w1 = published w →
            own_resource action w (send_notification t s m st w1).2 ∧
            ∃ pub, published (send_notification t s m st w1).2
                   = (published w ++ pub)%list ∧ (length pub ≤ 1)%nat).
  { intros t s m st w1 Hown Hpub.
    destruct (manager_send_notification_world t s m st w1) as (pub & -> & Hlen).
    split; [exact Hown|]. exists pub. cbn. by rewrite Hpub. }
  destruct (environ w !! "KMS_KEY_ID") as [kms|];
    [|apply Hsend; [apply own_resource_refl|done]].
  destruct (environ w !! "RETENTION_DAYS") as [text|];
    [|apply Hsend; [apply own_resource_refl|done]].
  destruct (int_of_str text) as [days|];
    [|apply Hsend; [apply own_resource_refl|done]].
  pose proof (own_resource_dispatch event action
                (default "manual" (event !! "type")) db s3 kms days w) as Hown.
  pose proof (pres_dispatch published event action
                (default "manual" (event !! "type")) db s3 kms days
                aside_published w) as Hpub.
  destruct (dispatch _ _ _ _ _ _ _ w) as [[r|e] w1]; cbn [snd] in *;
    by apply Hsend.
Qed.

(** X5.  When [create_snapshot] returns, the snapshot catalog has grown by
    exactly one entry and lost none: a manual snapshot of the given
    instance, created at the time of the call, named by the returned
    identifier, carrying the tags BackupType (the given type), CreatedBy
    (the ownership marker) and Timestamp; it is available by then, unless
    the polls were answered DBSnapshotNotFound, which the waiter takes for
    success; the export tasks are as they were. *)
Theorem created_snapshot_is_owned_and_manual
    (db backup_type kms : string) (w w' : World) (r : CreateResult) :
  create_snapshot db backup_type kms w = (Ok r, w') →
  let s := requested_snapshot db backup_type (clock w) (size r) available in
  instances w !! db = Some (size r) ∧
  snapshot_id r = DBSnapshotIdentifier s ∧
  (∃ st, find_snapshot (snapshot_id r) (snapshots w') = Some (with_status st s) ∧
         (faults w DescribeDBSnapshots ≠ Some "DBSnapshotNotFound" →
          st = available)) ∧
  owned s ∧
  identities w' = (identities w ++ [with_status creating s])%list ∧
  export_tasks w' = export_tasks w.
Proof.
  intros H s.
  pose proof (pres_create_snapshot export_tasks db backup_type kms
                ltac:(done) ltac:(done) w) as Hex.
  rewrite H in Hex. cbn [snd] in Hex.
  destruct (create_snapshot_ok _ _ _ _ _ _ H) as (Hinst & Hid & Hids & Hfind).
  split; [done|]. split; [done|]. split; [exact Hfind|].
  split; [|done].
  unfold owned, ownership_marker. cbn. in_list.
Qed.

(** The base scenario: the new snapshot is in the catalog, with its marker,
    and available. *)
Lemma created_snapshot_scenario :
  ∃ s, find_snapshot "dhakacart-db-manual-2023-11-14-22-13-20"
         (snapshots (create_snapshot "dhakacart-db" "manual" "kms-1" world0).2)
       = Some s ∧ owned s ∧ Status s = available.
Proof.
  destruct (create_snapshot "dhakacart-db" "manual" "kms-1" world0)
    as [[r|e] w'] eqn:Hrun; [|vm_compute in Hrun; discriminate].
  destruct (created_snapshot_is_owned_and_manual _ _ _ _ _ _ Hrun)
    as (_ & Hid & (st & Hfind & Hst) & Hown & _).
  rewrite (Hst ltac:(discriminate)) in Hfind.
  change (find_snapshot (snapshot_id r) (snapshots w') =
          Some (requested_snapshot "dhakacart-db" "manual" (clock world0)
                  (size r) available)) in Hfind.
  eexists. cbn [snd]. split; [|split; [exact Hown|reflexivity]].
  rewrite <- Hfind. f_equal.
  vm_compute in Hrun. injection Hrun as <- _. reflexivity.
Defined.



End ManagerMore.

Section ManagerMore2.
Import Py Model Cloud Spec Behaviour Scenario BackupManager.

(** X7.  [export_snapshot_to_s3] never starts an export task: every call
    raises and leaves the world as it found it.  Its call of
    [start_export_task] has no [IamRoleArn], which the operation requires,
    so that the call is rejected before any request is sent: for a snapshot
    that is in the catalog, with the lookup succeeding, the error is the
    parameter validation error that names the missing parameter; before
    that, a missing identifier, a failing lookup or an unknown snapshot
    raise their own errors.  The handler therefore answers every export
    request with the 500 envelope. *)
Theorem export_never_starts_a_task
    (snapshot_id : option string) (s3 kms : string) (w : World) :
  (∃ e, export_snapshot_to_s3 snapshot_id s3 kms w = (Raise e, w) ∧
     (∀ id, snapshot_id = Some id →
        faults w DescribeDBSnapshots = None →
        is_Some (find_snapshot id (snapshots w)) →
        e = ParamValidationError (missing_required_parameter "IamRoleArn")) ∧
     (snapshot_id = None → ∃ msg, e = ParamValidationError msg) ∧
     (∀ code, faults w DescribeDBSnapshots = Some code → is_Some snapshot_id →
        e = ClientError "DescribeDBSnapshots" code) ∧
     (∀ id, snapshot_id = Some id → faults w DescribeDBSnapshots = None →
        find_snapshot id (snapshots w) = None →
        e = ClientError "DescribeDBSnapshots" "DBSnapshotNotFound")) ∧
  (∀ event env w',
     event !! "action" = Some "export_snapshot" →
     handler event w = (Ok env, w') →
     statusCode env = 500 ∧ export_tasks w' = export_tasks w ∧
     snapshots w' = snapshots w ∧ clock w' = clock w).
Proof.
  split.
  - eexists. split; [apply export_run|].
    split; [|split; [|split]].
    + intros id -> -> [s ->]. done.
    + intros ->. by eexists.
    + intros code -> [id ->]. done.
    + intros id -> -> ->. done.
  - intros event env w' Haction H.
    rewrite manager_handler_run in H.
    destruct (environ w !! "DB_INSTANCE_ID") as [db|]; [|done].
    destruct (environ w !! "S3_BUCKET") as [bucket|]; [|done].
    destruct (environ w !! "SNS_TOPIC_ARN") as [sns|]; [|done].
    rewrite manager_handler_rest_run, Haction in H. cbn [default] in H.
    assert (Hsent : ∀ t sub m st,
              let v := (send_notification t sub m st w).2 in
              export_tasks v = export_tasks w ∧ snapshots v = snapshots w
              ∧ clock v = clock w).
    { intros t sub m st. cbn zeta. rewrite manager_send_notification_run.
      by destruct (faults w (Publish t)). }
    destruct (environ w !! "KMS_KEY_ID") as [key|];
      [|injection H as <- <-; split; [done|apply Hsent]].
    destruct (environ w !! "RETENTION_DAYS") as [text|];
      [|injection H as <- <-; split; [done|apply Hsent]].
    destruct (int_of_str text) as [days|];
      [|injection H as <- <-; split; [done|apply Hsent]].
    unfold dispatch in H. rewrite !decide_False, decide_True in H by done.
    cbn zeta in H. rewrite bind_run, export_run in H.
    injection H as <- <-. split; [done|apply Hsent].
Qed.

(** A snapshot of the base scenario's catalog: the export is rejected for
    the missing parameter. *)
Lemma export_rejected_scenario :
  export_snapshot_to_s3 (Some "old-owned") "dhakacart-backups" "kms-1" world0 =
    (Raise (ParamValidationError (missing_required_parameter "IamRoleArn")),
     world0).
Proof.
  destruct (export_never_starts_a_task (Some "old-owned") "dhakacart-backups"
              "kms-1" world0) as [(e & Hrun & Hparam & _) _].
  rewrite Hrun. f_equal. f_equal.
  apply (Hparam "old-owned"); [reflexivity|reflexivity|].
  vm_compute. by eexists.
Defined.

(** The base scenario, asked to export that snapshot. *)
Example export_scenario :
  (handler {[ "action" := "export_snapshot"; "snapshot_id" := "old-owned" ]}
     world0).1 =
    Ok {| statusCode := 500;
          body := BodyError
            ("Backup operation failed: " +:+
             missing_required_parameter "IamRoleArn") |}.
Proof. vm_compute. reflexivity. Qed.

(** X8.  When a cleanup run returns on a catalog whose identifiers and
    ARNs are unique, the count it reports is the length of the list it
    reports, that list has no duplicates, the catalog has shrunk by exactly
    that count, and every identifier in the list was in the catalog before
    the run and is not in it afterwards. *)
Theorem cleanup_count_is_catalog_shrinkage
    (db : string) (retention_days : Z) (w w' : World) (r : CleanupResult) :
  catalog_wf (snapshots w) →
  cleanup_old_snapshots db retention_days w = (Ok r, w') →
  deleted_count r = length (deleted_snapshots r) ∧
  NoDup (deleted_snapshots r) ∧
  (length (snapshots w') + deleted_count r = length (snapshots w))%nat ∧
  (∀ id, id ∈ deleted_snapshots r →
     id ∈ (DBSnapshotIdentifier <$> snapshots w) ∧
     id ∉ (DBSnapshotIdentifier <$> snapshots w')).
Proof.
  intros Hwf Hrun.
  destruct (cleanup_ok _ _ _ _ _ Hwf Hrun) as (Hlist & Hcount & Hcat & _).
  cbn zeta in *.
  set (cutoff := clock w - retention_days * usec_per_day) in *.
  set (Q := λ s : DBSnapshot,
         eligible cutoff s ∧
         (DBInstanceIdentifier s = db ∧ SnapshotType s = manual)).
  rewrite list_filter_filter in Hlist, Hcount, Hcat. fold Q in Hlist, Hcount, Hcat.
  assert (Hkept : snapshots w' = filter (λ x, ¬ Q x) (snapshots w)).
  { rewrite Hcat. apply filter_iff_elem. intros x Hx. split.
    - intros Hnot HQ. apply Hnot. by apply list_elem_of_fmap_2, list_elem_of_filter.
    - intros Hnot (y & Hid & [HQ Hy]%list_elem_of_filter)%list_elem_of_fmap.
      assert (x = y) as -> by (by eapply same_identifier). done. }
  split; [by rewrite Hcount, Hlist|]. split.
  { rewrite Hlist. apply (sublist_NoDup _ (DBSnapshotIdentifier <$> snapshots w));
      [apply Hwf|]. apply fmap_sublist, sublist_filter. }
  split.
  { rewrite Hcount, Hkept, length_fmap.
    etrans; [apply Nat.add_comm|]. apply length_filter_split. }
  intros id Hid. rewrite Hlist in Hid.
  apply list_elem_of_fmap in Hid as (y & -> & [HQ Hy]%list_elem_of_filter).
  split; [by apply list_elem_of_fmap_2|].
  rewrite Hkept.
  intros (z & Hz & [Hnot Hzin]%list_elem_of_filter)%list_elem_of_fmap.
  assert (y = z) as -> by (by eapply same_identifier). done.
Qed.

(** Retention horizon 7 days in the base scenario: five snapshots before,
    one reported, four left. *)
Lemma cleanup_count_scenario :
  (length (snapshots (cleanup_old_snapshots "dhakacart-db" 7 world0).2) + 1
   = length catalog0)%nat.
Proof.
  assert (Hwf : catalog_wf (snapshots world0))
    by (split; apply (bool_decide_unpack _); vm_compute; exact I).
  destruct (cleanup_old_snapshots "dhakacart-db" 7 world0) as [[r|e] w'] eqn:Hrun;
    [|vm_compute in Hrun; discriminate].
  destruct (cleanup_count_is_catalog_shrinkage _ _ _ _ _ Hwf Hrun)
    as (_ & _ & Hlen & _).
  assert (Hcount : deleted_count r = 1%nat)
    by (vm_compute in Hrun; injection Hrun as <- _; reflexivity).
  rewrite Hcount in Hlen. exact Hlen.
Defined.

(** X9.  Of two cleanup runs that return from the same state, the one with
    the longer retention horizon deletes no more: what it reports is a
    sublist of what the other reports, and what the other leaves in the
    catalog is a sublist of what it leaves. *)
Theorem longer_retention_deletes_no_more
    (db : string) (d1 d2 : Z) (w w1 w2 : World) (r1 r2 : CleanupResult) :
  catalog_wf (snapshots w) →
  d1 ≤ d2 →
  cleanup_old_snapshots db d1 w = (Ok r1, w1) →
  cleanup_old_snapshots db d2 w = (Ok r2, w2) →
  deleted_snapshots r2 `sublist_of` deleted_snapshots r1 ∧
  snapshots w1 `sublist_of` snapshots w2 ∧
  (deleted_count r2 ≤ deleted_count r1)%nat.
Proof.
  intros Hwf Hle H1 H2.
  destruct (cleanup_ok _ _ _ _ _ Hwf H1) as (Hl1 & Hc1 & Hcat1 & _).
  destruct (cleanup_ok _ _ _ _ _ Hwf H2) as (Hl2 & Hc2 & Hcat2 & _).
  cbn zeta in *.
  assert (Hmono : ∀ x, eligible (clock w - d2 * usec_per_day) x →
                       eligible (clock w - d1 * usec_per_day) x).
  { intros x [Hlt Ho]. split; [|done].
    assert (0 < usec_per_day) by done.
    assert (d1 * usec_per_day ≤ d2 * usec_per_day) by nia. lia. }
  set (resp := filter (λ s, DBInstanceIdentifier s = db ∧ SnapshotType s = manual)
                 (snapshots w)) in *.
  assert (Hsub : (DBSnapshotIdentifier <$>
                    filter (eligible (clock w - d2 * usec_per_day)) resp)
                 `sublist_of`
                 (DBSnapshotIdentifier <$>
                    filter (eligible (clock w - d1 * usec_per_day)) resp)).
  { apply fmap_sublist.
    rewrite <- (list_filter_filter_l _ (eligible (clock w - d1 * usec_per_day)))
      by exact Hmono. apply sublist_filter. }
  split; [by rewrite Hl1, Hl2|]. split.
  - rewrite Hcat1, Hcat2.
    match goal with
    | |- filter ?P1 _ `sublist_of` filter ?P2 _ =>
        rewrite <- (list_filter_filter_l P1 P2)
    end; [apply sublist_filter|].
    intros x Hx Hin. apply Hx. by eapply elem_of_sublist.
  - rewrite Hc1, Hc2. by apply sublist_length.
Qed.

(** Horizons of 6 and 7 days in the base scenario: the longer one deletes
    one snapshot, the shorter one two. *)
Lemma retention_scenario_6_and_7 :
  match (cleanup_old_snapshots "dhakacart-db" 6 world0).1,
        (cleanup_old_snapshots "dhakacart-db" 7 world0).1 with
  | Ok r1, Ok r2 =>
      deleted_snapshots r1 = ["old-owned"; "boundary-owned"] ∧
      deleted_snapshots r2 = ["old-owned"] ∧
      deleted_snapshots r2 `sublist_of` deleted_snapshots r1
  | _, _ => False
  end.
Proof.
  assert (Hwf : catalog_wf (snapshots world0))
    by (split; apply (bool_decide_unpack _); vm_compute; exact I).
  destruct (cleanup_old_snapshots "dhakacart-db" 6 world0) as [[r1|e] w1] eqn:H1;
    [|vm_compute in H1; discriminate].
  destruct (cleanup_old_snapshots "dhakacart-db" 7 world0) as [[r2|e] w2] eqn:H2;
    [|vm_compute in H2; discriminate].
  destruct (longer_retention_deletes_no_more "dhakacart-db" 6 7 world0 w1 w2 r1 r2
              Hwf ltac:(lia) H1 H2) as (Hsub & _).
  cbn [fst]. split; [|split; [|exact Hsub]].
  - vm_compute in H1. by injection H1 as <- _.
  - vm_compute in H2. by injection H2 as <- _.
Defined.

(** X10.  When [create_snapshot] raises, either the creation request was
    refused (the request failed, the instance is unknown, or the identifier
    is taken), the error is the [ClientError] of that request and nothing
    has changed; or the request was accepted and the wait gave up (the poll
    ceiling was reached, or a poll failed): then the error is the waiter's
    [WaiterError], and the requested snapshot has been added to the catalog
    and is left there. *)
Theorem failed_wait_leaves_the_snapshot
    (db backup_type kms : string) (w w' : World) (e : Exn) :
  create_snapshot db backup_type kms w = (Raise e, w') →
  ((∃ code, e = ClientError "CreateDBSnapshot" code) ∧ w' = w)
  ∨ ((∃ reason, e = WaiterError reason) ∧
     ∃ storage, instances w !! db = Some storage ∧
       identities w' =
         (identities w ++
          [requested_snapshot db backup_type (clock w) storage creating])%list).
Proof.
  intros H. pose proof (create_snapshot_accepted db backup_type kms w) as Hacc.
  cbn zeta in Hacc.
  destruct (faults w (CreateDBSnapshot _));
    [destruct Hacc as [code Hacc]; left; split; [exists code|]; congruence|].
  destruct (instances w !! db) as [storage|];
    [|destruct Hacc as [code Hacc]; left; split; [exists code|]; congruence].
  destruct (find_snapshot _ (snapshots w));
    [destruct Hacc as [code Hacc]; left; split; [exists code|]; congruence|].
  rewrite H in Hacc. cbn [snd] in Hacc. destruct Hacc as [Hids [reason ->]].
  right. split; [by eexists|]. by exists storage.
Qed.

(** The platform never finishes the snapshot: the call raises, and the
    catalog has six entries. *)
Lemma stuck_snapshot_scenario :
  length (identities (create_snapshot "dhakacart-db" "manual" "kms-1"
                        world_stuck).2) = 6%nat.
Proof.
  destruct (create_snapshot "dhakacart-db" "manual" "kms-1" world_stuck)
    as [[r|e] w'] eqn:Hrun; [vm_compute in Hrun; discriminate|].
  destruct (failed_wait_leaves_the_snapshot _ _ _ _ _ _ Hrun)
    as [[[code Hcode] _]|[_ (storage & _ & Hids)]].
  - vm_compute in Hrun. injection Hrun as <- _. discriminate Hcode.
  - cbn [snd]. rewrite Hids. rewrite length_app. reflexivity.
Defined.

(** A poll that is throttled ends the wait with the waiter's error; the
    snapshot is in the catalog. *)
Example throttled_poll_scenario :
  let throttled c :=
    match c with DescribeDBSnapshots => Some "Throttling" | _ => None end in
  let run := create_snapshot "dhakacart-db" "manual" "kms-1"
               (set_faults throttled world0) in
  (∃ reason, run.1 = Raise (WaiterError reason)) ∧
  is_Some (find_snapshot "dhakacart-db-manual-2023-11-14-22-13-20"
             (snapshots run.2)).
Proof. vm_compute. split; by eexists. Qed.

End ManagerMore2.

(** ** Runs of the verifier *)

Section VerifierRuns.
Import Py Model Cloud Spec Behaviour BackupVerifier.

Lemma test_database_connectivity_returns (creds : gmap string string) (w : World) :
  ∃ r, test_database_connectivity creds w = (Ok r, w).
Proof.
  pose proof (read_only_test_database_connectivity creds w) as Hw.
  unfold test_database_connectivity in *. rewrite try_except_run in *.
  match goal with
  | |- context [match ?c w with _ => _ end] => destruct (c w) as [[r|e] w1]
  end; cbn in Hw; subst w1; eauto.
Qed.

Lemma products_probe_is_tolerated (w : World) :
  ∃ product_count,
    try_except_only is_psycopg2_error (execute CountProducts)
      (λ _, mret (DbText "N/A (table may not exist)")) w
    = (Ok product_count, w).
Proof.
  unfold try_except_only. rewrite try_except_run, execute_run.
  destruct (db_execute w CountProducts); cbn; eauto.
Qed.

Lemma insert_newest_first_perm (x : S3Object) (l : list S3Object) :
  insert_newest_first x l ≡ₚ x :: l.
Proof.
  induction l as [|y l IH]; [done|]. cbn [insert_newest_first].
  destruct (_ <=? _); [done|]. rewrite IH. apply Permutation_swap.
Qed.

Lemma sorted_newest_first_perm (l : list S3Object) :
  sorted_newest_first l ≡ₚ l.
Proof.
  induction l as [|x l IH]; [done|]. unfold sorted_newest_first in *.
  cbn [foldr]. rewrite insert_newest_first_perm. by rewrite IH.
Qed.

Lemma newest_first_insert (x : S3Object) (l : list S3Object) :
  newest_first l → newest_first (insert_newest_first x l).
Proof.
  induction l as [|y l IH]; intros Hl.
  - cbn. split; [|done]. intros y Hy. by apply not_elem_of_nil in Hy.
  - destruct Hl as [Hy Hl]. cbn [insert_newest_first].
    destruct (Z.leb_spec (LastModified y) (LastModified x)) as [Hle|Hlt].
    + split; [|by split]. intros z [->|Hz]%elem_of_cons; [done|].
      specialize (Hy z Hz). lia.
    + split; [|by apply IH].
      intros z Hz. rewrite insert_newest_first_perm in Hz.
      apply elem_of_cons in Hz as [->|Hz]; [lia|by apply Hy].
Qed.

Lemma sorted_newest_first_sorted (l : list S3Object) :
  newest_first (sorted_newest_first l).
Proof.
  induction l as [|x l IH]; [done|]. by apply newest_first_insert.
Qed.

Lemma newest_first_app (l1 l2 : list S3Object) :
  newest_first (l1 ++ l2) →
  ∀ x y, x ∈ l1 → y ∈ l2 → LastModified y ≤ LastModified x.
Proof.
  induction l1 as [|z l1 IH]; intros Hs x y Hx Hy.
  - by apply not_elem_of_nil in Hx.
  - destruct Hs as [Hz Hs]. apply elem_of_cons in Hx as [->|Hx].
    + apply Hz. apply elem_of_app. by right.
    + by apply IH.
Qed.

Lemma verifier_send_notification_run (topic subject : string)
    (message : Message) (status : string) (w : World) :
  send_notification topic subject message status w =
    (Ok (),
     match faults w (Publish topic) with
     | Some _ => w
     | None =>
         set_published
           (published w ++ [verifier_notification w topic subject message status])%list w
     end).
Proof.
  unfold send_notification, utcnow, publish. rewrite try_except_run, bind_run.
  unfold gets at 1. cbn beta iota. rewrite bind_run, request_run. cbn.
  by destruct (faults w (Publish topic)).
Qed.

Lemma store_verification_results_run (bucket : string)
    (rep : VerificationReport) (w : World) :
  store_verification_results bucket rep w =
    (Ok (),
     match faults w (PutObject bucket (result_key w)) with
     | Some _ => w
     | None =>
         set_stored
           (stored w ++ [{| sr_bucket := bucket; sr_key := result_key w;
                            sr_body := rep |}])%list w
     end).
Proof.
  unfold store_verification_results, utcnow, put_object.
  rewrite try_except_run, bind_run.
  unfold gets at 1. cbn beta iota. rewrite bind_run, request_run.
  fold (result_key w). cbn.
  by destruct (faults w (PutObject bucket (result_key w))).
Qed.

Lemma get_db_credentials_run (arn : string) (w : World) :
  get_db_credentials arn w =
    match faults w (GetSecretValue arn) with
    | Some code => (Raise (ClientError "GetSecretValue" code), w)
    | None =>
        match secrets w !! arn with
        | Some creds => (Ok creds, w)
        | None =>
            (Raise (ClientError "GetSecretValue" "ResourceNotFoundException"), w)
        end
    end.
Proof.
  unfold get_db_credentials, get_secret_value.
  rewrite try_except_run, bind_run, request_run.
  destruct (faults w (GetSecretValue arn)); [done|]. cbn beta iota.
  rewrite bind_run. unfold gets at 1. cbn beta iota.
  by destruct (secrets w !! arn).
Qed.

Lemma verifier_handler_rest_ok (db s3 sns arn : string)
    (creds : gmap string string) (w : World) :
  environ w !! "SECRET_ARN" = Some arn →
  get_db_credentials arn w = (Ok creds, w) →
  ∃ rep,
    verify_recent_snapshots db w = (Ok (snapshot_verification rep), w) ∧
    test_database_connectivity creds w = (Ok (connectivity_test rep), w) ∧
    verify_s3_backups s3 w = (Ok (s3_verification rep), w) ∧
    timestamp rep = isoformat (clock w) ∧
    overall_status rep =
      overall (snapshot_verification rep) (connectivity_test rep)
              (s3_verification rep) ∧
    handler_rest db s3 sns w =
      (Ok {| statusCode := 200;
             body := BodyResults "Backup verification completed" rep |},
       (send_notification sns
          ("Backup Verification " +:+ verdict_str (overall_status rep))
          (MsgReport rep) (verdict_str (overall_status rep))
          (store_verification_results s3 rep w).2).2).
Proof.
  intros Harn Hcreds.
  destruct (test_database_connectivity_returns creds w) as [ct Hct].
  pose proof (verify_recent_run db w) as Hsv.
  pose proof (verify_s3_run s3 w) as Hxv.
  match type of Hsv with _ = (Ok ?x, _) => set (sv := x) in * end.
  match type of Hxv with _ = (Ok ?x, _) => set (xv := x) in * end.
  exists {| timestamp := isoformat (clock w); snapshot_verification := sv;
            connectivity_test := ct; s3_verification := xv;
            overall_status := overall sv ct xv |}.
  cbn [timestamp snapshot_verification connectivity_test s3_verification
       overall_status].
  repeat (split; [done|]).
  unfold handler_rest.
  rewrite bind_run, getenv_run, Harn. cbn beta iota.
  rewrite bind_run, Hcreds. cbn beta iota.
  rewrite bind_run, Hsv. cbn beta iota.
  rewrite bind_run, Hct. cbn beta iota.
  rewrite bind_run, Hxv. cbn beta iota.
  rewrite bind_run. unfold utcnow, gets at 1. cbn beta iota zeta.
  rewrite bind_run, store_verification_results_run. cbn beta iota.
  rewrite bind_run, verifier_send_notification_run. cbn beta iota.
  rewrite verifier_send_notification_run. reflexivity.
Qed.

Lemma verifier_handler_run (event : gmap string string) (w : World) :
  handler event w =
    match environ w !! "DB_INSTANCE_ID", environ w !! "S3_BUCKET",
          environ w !! "SNS_TOPIC_ARN" with
    | Some db, Some s3, Some sns =>
        match handler_rest db s3 sns w with
        | (Ok env, w1) => (Ok env, w1)
        | (Raise e, w1) =>
            (Ok {| statusCode := 500;
                   body := BodyError ("Backup verification failed: " +:+ exn_str e) |},
             (send_notification sns "Backup Verification Failed"
                (MsgText ("Backup verification failed: " +:+ exn_str e)) "ERROR" w1).2)
        end
    | _, _, _ => (Raise (UnboundLocalError "sns_topic_arn"), w)
    end.
Proof.
  unfold handler. rewrite bind_run. unfold attempt, handler_bindings.
  rewrite bind_run, getenv_run.
  destruct (environ w !! "DB_INSTANCE_ID") as [db|]; [|done].
  rewrite bind_run, getenv_run.
  destruct (environ w !! "S3_BUCKET") as [s3|]; [|done].
  rewrite bind_run, getenv_run.
  destruct (environ w !! "SNS_TOPIC_ARN") as [sns|]; [|done].
  unfold mret at 1, M_ret at 1. cbn beta iota. rewrite try_except_run.
  destruct (handler_rest _ _ _ w) as [[env|e] w1]; [done|].
  unfold on_exception. rewrite bind_run. cbn [of_option].
  unfold mret at 1, M_ret at 1. cbn beta iota.
  rewrite bind_run, verifier_send_notification_run. done.
Qed.

Lemma verifier_handler_rest_raises (db s3 sns : string) (w : World) (e : Exn)
    (w1 : World) :
  handler_rest db s3 sns w = (Raise e, w1) →
  w1 = w ∧
  ∀ arn, environ w !! "SECRET_ARN" = Some arn →
         get_db_credentials arn w = (Raise e, w).
Proof.
  intros H. unfold handler_rest in H.
  rewrite bind_run, getenv_run in H.
  destruct (environ w !! "SECRET_ARN") as [arn|] eqn:Harn.
  2:{ injection H as <- <-. done. }
  cbn beta iota in H. rewrite bind_run in H.
  pose proof (read_only_get_db_credentials arn w) as Hro.
  destruct (get_db_credentials arn w) as [[creds|e1] w2] eqn:Hc;
    cbn in Hro; subst w2.
  - destruct (verifier_handler_rest_ok db s3 sns arn creds w Harn Hc)
      as (rep & _ & _ & _ & _ & _ & Hrun).
    unfold handler_rest in Hrun.
    rewrite bind_run, getenv_run, Harn in Hrun. cbn beta iota in Hrun.
    rewrite bind_run, Hc in Hrun. cbn beta iota in Hrun, H. congruence.
  - injection H as <- <-. split; [done|]. by intros ? [= <-].
Qed.

Lemma verifier_handler_rest_inv (db s3 sns : string) (w : World)
    (env : Envelope) (w1 : World) :
  handler_rest db s3 sns w = (Ok env, w1) →
  ∃ arn creds, environ w !! "SECRET_ARN" = Some arn ∧
               get_db_credentials arn w = (Ok creds, w).
Proof.
  intros Hrest. unfold handler_rest in Hrest.
  bind_inv Hrest arn w2 E1. rewrite getenv_run in E1.
  destruct (environ w !! "SECRET_ARN") as [arn'|] eqn:Harn; [|done].
  injection E1 as <- <-.
  bind_inv Hrest creds w3 E2.
  pose proof (read_only_run _ _ _ _ (read_only_get_db_credentials _) E2) as ->.
  eauto.
Qed.

Lemma only_the_sink_refl (w : World) :
  w = set_published (published w ++ []) (set_stored (stored w ++ []) w).
Proof. destruct w. unfold set_published, set_stored. cbn. by rewrite !app_nil_r. Qed.

Lemma verifier_send_notification_appends (topic subject : string)
    (message : Message) (status : string) (w v : World)
    (st : list StoredReport) :
  v = set_published (published w ++ []) (set_stored (stored w ++ st) w) →
  ∃ pub,
    (send_notification topic subject message status v).2
    = set_published (published w ++ pub) (set_stored (stored w ++ st) w)
    ∧ (length pub ≤ 1)%nat.
Proof.
  intros ->.
  rewrite verifier_send_notification_run. cbn [snd faults set_published set_stored].
  destruct (faults w (Publish topic)).
  - exists []. split; [done|]. cbn. lia.
  - eexists [_]. split; [|cbn; lia].
    unfold set_published, set_stored. cbn. by rewrite app_nil_r.
Qed.

End VerifierRuns.

(** One statement of the probe, and the verdict when it fails. *)
Ltac probe_fails :=
  eexists; split; [reflexivity|]; cbn [Model.connectivity_status];
  split; [split; [done|]|by eauto].

Ltac probe_step Hq :=
  rewrite bind_run, execute_run;
  match goal with
  | |- context [match Cloud.db_execute ?w ?q with _ => _ end] =>
      destruct (Cloud.db_execute w q) eqn:Hq
  end; cbn beta iota.

(** ** Further properties of the backup verifier *)

Section VerifierMore.
Import Py Model Cloud Spec Behaviour Scenario BackupVerifier.

(** X11.  The outcome of the verifier's handler follows from the
    configuration alone.  It raises the unbound-variable error of its own
    [except] block, leaving the world as it was, exactly when one of
    DB_INSTANCE_ID, S3_BUCKET and SNS_TOPIC_ARN is missing.  It returns the
    200 envelope with a report exactly when the three are bound and the
    secret named by SECRET_ARN can be read; no outcome of the three checks
    turns this into an error.  It returns the 500 envelope exactly when the
    three are bound and the secret cannot be read. *)
Theorem verifier_status_follows_configuration
    (event : gmap string string) (w : World) :
  let bound :=
    is_Some (environ w !! "DB_INSTANCE_ID") ∧ is_Some (environ w !! "S3_BUCKET")
    ∧ is_Some (environ w !! "SNS_TOPIC_ARN") in
  let secret_readable :=
    ∃ arn, environ w !! "SECRET_ARN" = Some arn ∧
           faults w (GetSecretValue arn) = None ∧ is_Some (secrets w !! arn) in
  (handler event w = (Raise (UnboundLocalError "sns_topic_arn"), w) ↔ ¬ bound) ∧
  ((∃ rep w', handler event w =
       (Ok {| statusCode := 200;
              body := BodyResults "Backup verification completed" rep |}, w'))
   ↔ bound ∧ secret_readable) ∧
  ((∃ err w', handler event w =
       (Ok {| statusCode := 500;
              body := BodyError ("Backup verification failed: " +:+ err) |}, w'))
   ↔ bound ∧ ¬ secret_readable).
Proof.
  intros bound secret_readable. rewrite verifier_handler_run.
  unfold bound.
  destruct (environ w !! "DB_INSTANCE_ID") as [db|].
  2:{ split; [|split]; split; try done.
      - by intros _ ([? ?] & _).
      - by intros (? & ? & ?).
      - by intros (([? ?] & _) & _).
      - by intros (? & ? & ?).
      - by intros (([? ?] & _) & _). }
  destruct (environ w !! "S3_BUCKET") as [s3|].
  2:{ split; [|split]; split; try done.
      - by intros _ (_ & [? ?] & _).
      - by intros (? & ? & ?).
      - by intros ((_ & [? ?] & _) & _).
      - by intros (? & ? & ?).
      - by intros ((_ & [? ?] & _) & _). }
  destruct (environ w !! "SNS_TOPIC_ARN") as [sns|].
  2:{ split; [|split]; split; try done.
      - by intros _ (_ & _ & [? ?]).
      - by intros (? & ? & ?).
      - by intros ((_ & _ & [? ?]) & _).
      - by intros (? & ? & ?).
      - by intros ((_ & _ & [? ?]) & _). }
  assert (Hb : is_Some (Some db) ∧ is_Some (Some s3) ∧ is_Some (Some sns))
    by (by repeat split).
  assert (Hcase :
    (secret_readable ∧ ∃ arn creds, environ w !! "SECRET_ARN" = Some arn ∧
                        get_db_credentials arn w = (Ok creds, w))
    ∨ (¬ secret_readable ∧ ∃ e, handler_rest db s3 sns w = (Raise e, w))).
  { unfold secret_readable, handler_rest.
    setoid_rewrite bind_run. rewrite getenv_run.
    destruct (environ w !! "SECRET_ARN") as [arn|]; cbn beta iota.
    2:{ right. split; [by intros (? & ? & _)|eauto]. }
    setoid_rewrite bind_run. rewrite !get_db_credentials_run.
    destruct (faults w (GetSecretValue arn)) eqn:Hf.
    { right. split; [|eauto]. intros (? & [= <-] & ? & _). congruence. }
    destruct (secrets w !! arn) as [creds|] eqn:Hs.
    - left. split; [exists arn; by rewrite Hf, Hs|].
      exists arn, creds. split; [done|].
      change (get_db_credentials arn w = (Ok creds, w)).
      by rewrite get_db_credentials_run, Hf, Hs.
    - right. split; [|eauto]. intros (? & [= <-] & _ & [? ?]). congruence. }
  destruct Hcase as [[Hsr (arn & creds & Harn & Hc)]|[Hsr [e Hrest]]].
  - destruct (verifier_handler_rest_ok db s3 sns arn creds w Harn Hc)
      as (rep & _ & _ & _ & _ & _ & ->).
    split; [|split].
    + split; [done|]. intros Hn. by destruct Hn.
    + split; [done|]. intros _. eauto.
    + split; [by intros (? & ? & ?)|]. intros [_ Hn]. by destruct Hn.
  - rewrite Hrest.
    split; [|split].
    + split; [done|]. intros Hn. by destruct Hn.
    + split; [by intros (? & ? & ?)|]. by intros [_ ?].
    + split; [done|]. intros _. eauto.
Qed.

(** X12.  The snapshot-freshness check always returns, changes nothing,
    and never reports WARN.  It reports PASS exactly when the listing
    succeeds, the cutoff is a valid date, and one of the listed snapshots
    (the first 20 automated and the first 20 manual ones of the instance)
    was created within the last 48 hours and is available.  Its counts are
    the number of listed snapshots of the last 48 hours and the number of
    available ones among them; its evidence describes the first five of the
    latter in the order of the listing, each of them listed, recent and
    available. *)
Theorem snapshot_freshness_verdict (db : string) (w : World) :
  let cutoff_time := clock w - timedelta_hours 48 in
  let fresh := λ s : DBSnapshot,
    s ∈ listed_for_freshness db w ∧ cutoff_time < SnapshotCreateTime s in
  ∃ r, verify_recent_snapshots db w = (Ok r, w) ∧
    snapshot_status r ≠ WARN ∧
    (snapshot_status r = PASS ↔
       faults w DescribeDBSnapshots = None ∧
       datetime_min ≤ cutoff_time ≤ datetime_max ∧
       ∃ s, fresh s ∧ Status s = available) ∧
    match r with
    | SnapshotChecked _ total_recent n_available evidence =>
        total_recent =
          length (filter (λ s, cutoff_time < SnapshotCreateTime s)
                         (listed_for_freshness db w)) ∧
        n_available =
          length (filter (λ s, cutoff_time < SnapshotCreateTime s
                               ∧ Status s = available)
                         (listed_for_freshness db w)) ∧
        evidence =
          snapshot_evidence <$>
            take 5 (filter (λ s, cutoff_time < SnapshotCreateTime s
                                 ∧ Status s = available)
                           (listed_for_freshness db w)) ∧
        (n_available ≤ total_recent)%nat ∧
        length evidence = (n_available `min` 5)%nat ∧
        (∀ e, e ∈ evidence →
           ∃ s, fresh s ∧ Status s = available ∧ e = snapshot_evidence s) ∧
        (total_recent = 0%nat ↔ ∀ s, ¬ fresh s)
    | SnapshotCheckFailed _ _ =>
        is_Some (faults w DescribeDBSnapshots)
        ∨ ¬ datetime_min ≤ cutoff_time ≤ datetime_max
    end.
Proof.
  intros cutoff_time fresh. eexists. split; [apply verify_recent_run|].
  destruct (datetime_sub _ _) as [c|] eqn:Hc.
  2:{ cbn. split; [done|]. split.
      - split; [done|]. intros (_ & Hr & _).
        by rewrite datetime_sub_in_range in Hc.
      - right. intros Hr. by rewrite datetime_sub_in_range in Hc. }
  apply datetime_sub_Some in Hc as [-> Hrange]. fold cutoff_time.
  destruct (faults w DescribeDBSnapshots) as [code|].
  { cbn. split; [done|]. split; [|by left; eexists].
    split; [done|]. by intros (? & _). }
  cbn zeta.
  set (recent := recent_snapshots cutoff_time (listed_for_freshness db w)).
  set (avail := available_snapshots recent).
  assert (Hrecent : ∀ s, s ∈ recent ↔ fresh s).
  { intros s. unfold recent, recent_snapshots, fresh.
    rewrite list_elem_of_filter. tauto. }
  assert (Havail : ∀ s, s ∈ avail ↔ fresh s ∧ Status s = available).
  { intros s. unfold avail, available_snapshots.
    rewrite list_elem_of_filter, Hrecent. tauto. }
  cbn [snapshot_status]. split; [by destruct (0 <? length avail)%nat|].
  split.
  - split.
    + intros Hpass. split; [done|]. split; [done|].
      destruct avail as [|s l] eqn:E; [done|].
      exists s. apply Havail. left.
    + intros (_ & _ & s & Hs). apply Havail in Hs.
      destruct avail; [by apply not_elem_of_nil in Hs|done].
  - assert (Hboth : avail =
              filter (λ s, cutoff_time < SnapshotCreateTime s
                           ∧ Status s = available)
                     (listed_for_freshness db w)).
    { unfold avail, available_snapshots, recent, recent_snapshots.
      rewrite list_filter_filter. apply list_filter_iff. intros s. tauto. }
    split; [done|]. split; [by rewrite <- Hboth|].
    split; [by rewrite <- Hboth|].
    split; [apply length_filter|]. split.
    { rewrite length_fmap, length_take. lia. }
    split.
    + intros e (s & -> & Hs%subseteq_take)%list_elem_of_fmap.
      exists s. by apply Havail in Hs as [? ?].
    + split.
      * intros Hz%nil_length_inv s Hs%Hrecent. rewrite Hz in Hs.
        by apply not_elem_of_nil in Hs.
      * intros Hnone. rewrite (elem_of_nil_inv recent); [done|].
        intros s Hs%Hrecent. by apply (Hnone s).
Qed.

(** X13.  The connectivity check always returns and changes nothing.  Its
    sub-verdict is PASS exactly when the credentials have the five keys
    host, port, dbname, username and password, the connection succeeds, and
    every statement of the probe other than the count of the products table
    succeeds; a failure of that count alone is tolerated.  Otherwise the
    result is a FAIL with an error text. *)
Theorem connectivity_verdict_iff (creds : gmap string string) (w : World) :
  ∃ r, test_database_connectivity creds w = (Ok r, w) ∧
    (connectivity_status r = PASS ↔
       ∃ c, credentials_of creds = Some c ∧ db_connect w c = None ∧
            ∀ q, q ∈ probe_script w → succeeds w q) ∧
    (connectivity_status r ≠ PASS →
       ∃ error, r = ConnectivityFailed FAIL error).
Proof.
  unfold test_database_connectivity, utcnow, credentials_of.
  rewrite try_except_run.
  rewrite bind_run, subscript_run.
  destruct (creds !! "host") as [h|]; cbn beta iota;
    [|probe_fails; by intros (c & ? & _)].
  rewrite bind_run, subscript_run.
  destruct (creds !! "port") as [p|]; cbn beta iota;
    [|probe_fails; by intros (c & ? & _)].
  rewrite bind_run, subscript_run.
  destruct (creds !! "dbname") as [d|]; cbn beta iota;
    [|probe_fails; by intros (c & ? & _)].
  rewrite bind_run, subscript_run.
  destruct (creds !! "username") as [u|]; cbn beta iota;
    [|probe_fails; by intros (c & ? & _)].
  rewrite bind_run, subscript_run.
  destruct (creds !! "password") as [pw|]; cbn beta iota;
    [|probe_fails; by intros (c & ? & _)].
  cbn [mbind option_bind].
  rewrite bind_run, connect_run.
  destruct (db_connect w _) as [msg|] eqn:Hconn; cbn beta iota.
  { probe_fails. intros (c & [= <-] & ? & _). congruence. }
  assert (Hno : ∀ q msg, db_execute w q = DbFailure msg → q ∈ probe_script w →
                  ¬ ∃ c, Some {| host := h; port := p; dbname := d;
                                 username := u; password := pw |} = Some c ∧
                         db_connect w c = None ∧
                         ∀ q, q ∈ probe_script w → succeeds w q).
  { intros q m Hq Hin (c & _ & _ & Hall). destruct (Hall q Hin) as [v Hv].
    congruence. }
  unfold probe_script, test_table_name in *.
  probe_step Hq1; [|probe_fails; intros Hex; exfalso; revert Hex; apply (Hno _ _ Hq1); in_list].
  probe_step Hq2; [|probe_fails; intros Hex; exfalso; revert Hex; apply (Hno _ _ Hq2); in_list].
  rewrite bind_run.
  destruct (products_probe_is_tolerated w) as [product_count ->].
  cbn beta iota. rewrite bind_run. unfold gets at 1. cbn beta iota.
  probe_step Hq3; [|probe_fails; intros Hex; exfalso; revert Hex; apply (Hno _ _ Hq3); in_list].
  probe_step Hq4; [|probe_fails; intros Hex; exfalso; revert Hex; apply (Hno _ _ Hq4); in_list].
  probe_step Hq5; [|probe_fails; intros Hex; exfalso; revert Hex; apply (Hno _ _ Hq5); in_list].
  probe_step Hq6; [|probe_fails; intros Hex; exfalso; revert Hex; apply (Hno _ _ Hq6); in_list].
  probe_step Hq7; [|probe_fails; intros Hex; exfalso; revert Hex; apply (Hno _ _ Hq7); in_list].
  eexists. split; [reflexivity|]. cbn [connectivity_status].
  split; [|done]. split; [|done]. intros _. eexists. split; [done|].
  split; [done|]. intros q Hq.
  repeat (apply elem_of_cons in Hq as [->|Hq]; [by eexists|]).
  by apply not_elem_of_nil in Hq.
Qed.

(** X14.  When the export check reports on the objects under the export
    prefix, its count and total size are those of the objects modified
    within the last 7 days, and its evidence lists at most three of them,
    newest first: no recent object that is left out is newer than a listed
    one. *)
Theorem export_evidence_lists_the_newest
    (bucket : string) (w : World) (st : Verdict) (n : nat) (total : Z)
    (evidence : list ExportEvidence) :
  verify_s3_backups bucket w = (Ok (S3Checked st n total evidence), w) →
  ∃ objs top rest,
    buckets w !! bucket = Some objs ∧
    let recent := filter (λ o, clock w - 7 * usec_per_day < LastModified o)
                         (exports_under objs) in
    n = length recent ∧
    total = foldr Z.add 0 (Size <$> recent) ∧
    evidence = export_evidence <$> top ∧
    length top = (n `min` 3)%nat ∧
    recent ≡ₚ top ++ rest ∧
    newest_first top ∧
    (∀ x y, x ∈ top → y ∈ rest → LastModified y ≤ LastModified x).
Proof.
  rewrite verify_s3_run. intros H.
  destruct (datetime_sub _ _) as [c|] eqn:Hc; [|done].
  apply datetime_sub_Some in Hc as [-> _].
  destruct (faults w _); [done|].
  destruct (buckets w !! bucket) as [objs|]; [|done].
  destruct (exports_under objs) as [|o l] eqn:Hex; [done|].
  cbn zeta in H. injection H as <- <- <- <-.
  set (recent := recent_exports _ _).
  exists objs, (take 3 (sorted_newest_first recent)),
    (drop 3 (sorted_newest_first recent)).
  split; [done|]. rewrite Hex. cbn zeta. fold recent.
  split; [done|]. split; [done|]. split; [done|].
  split.
  { rewrite length_take. rewrite (Permutation_length (sorted_newest_first_perm recent)).
    lia. }
  rewrite take_drop.
  split; [by rewrite sorted_newest_first_perm|].
  pose proof (sorted_newest_first_sorted recent) as Hs.
  rewrite <- (take_drop 3 (sorted_newest_first recent)) in Hs.
  split; [|by apply newest_first_app].
  revert Hs. generalize (take 3 (sorted_newest_first recent)),
    (drop 3 (sorted_newest_first recent)).
  intros l1 l2. induction l1 as [|x l1 IH]; [done|].
  intros [Hx Hs]. split; [|by apply IH].
  intros y Hy. apply Hx. apply elem_of_app. by left.
Qed.

(** The base scenario has one export of the last 7 days: it is the
    evidence. *)
Lemma export_evidence_scenario :
  ∃ top : list S3Object,
    length top = 1%nat ∧
    [{| ev_key := "exports/2023/11/12/dump.parquet"; ev_size := 4096;
        ev_last_modified := isoformat_utc (t0 - 2 * usec_per_day) |}]
      = export_evidence <$> top.
Proof.
  assert (H : verify_s3_backups "dhakacart-backups" world0 =
              (Ok (S3Checked PASS 1 4096
                     [{| ev_key := "exports/2023/11/12/dump.parquet";
                         ev_size := 4096;
                         ev_last_modified :=
                           isoformat_utc (t0 - 2 * usec_per_day) |}]), world0))
    by (vm_compute; reflexivity).
  destruct (export_evidence_lists_the_newest _ _ _ _ _ _ H)
    as (objs & top & rest & _ & _ & _ & Hev & Hlen & _).
  exists top. split; [exact Hlen|exact Hev].
Defined.

(** X15.  When the verifier returns a report, the object it has written
    to the bucket under verification-results/YYYY/MM/DD/HH-MM-SS.json and
    the message of the notification it has published are that same report,
    stamped with the time of the run; the notification's status and subject
    carry the report's overall verdict.  A failing write or publish request
    leaves out that one record and nothing else. *)
Theorem verification_report_is_stored_and_published
    (event : gmap string string) (w w' : World) (env : Envelope)
    (msg : string) (rep : VerificationReport) :
  handler event w = (Ok env, w') →
  body env = BodyResults msg rep →
  ∃ s3 sns,
    environ w !! "S3_BUCKET" = Some s3 ∧
    environ w !! "SNS_TOPIC_ARN" = Some sns ∧
    timestamp rep = isoformat (clock w) ∧
    stored w' =
      match faults w (PutObject s3 (result_key w)) with
      | Some _ => stored w
      | None =>
          (stored w ++ [{| sr_bucket := s3; sr_key := result_key w;
                           sr_body := rep |}])%list
      end ∧
    published w' =
      match faults w (Publish sns) with
      | Some _ => published w
      | None =>
          (published w ++
           [verifier_notification w sns
              ("Backup Verification " +:+ verdict_str (overall_status rep))
              (MsgReport rep) (verdict_str (overall_status rep))])%list
      end.
Proof.
  intros H Hbody. rewrite verifier_handler_run in H.
  destruct (environ w !! "DB_INSTANCE_ID") as [db|]; [|done].
  destruct (environ w !! "S3_BUCKET") as [s3|]; [|done].
  destruct (environ w !! "SNS_TOPIC_ARN") as [sns|]; [|done].
  exists s3, sns. split; [done|]. split; [done|].
  destruct (handler_rest db s3 sns w) as [[env1|e] w1] eqn:Hrest.
  2:{ injection H as <- <-. done. }
  injection H as <- <-.
  destruct (verifier_handler_rest_inv _ _ _ _ _ _ Hrest)
    as (arn & creds & Harn & Hc).
  destruct (verifier_handler_rest_ok db s3 sns arn creds w Harn Hc)
    as (rep' & _ & _ & _ & Hts & _ & Hrun).
  rewrite Hrun in Hrest. injection Hrest as <- <-.
  cbn in Hbody. injection Hbody as <- <-.
  split; [done|].
  rewrite store_verification_results_run, verifier_send_notification_run.
  cbn [snd].
  destruct (faults w (PutObject s3 (result_key w)));
    cbn [faults set_stored];
    destruct (faults w (Publish sns)); done.
Qed.

(** The base scenario: the returned report is the one stored. *)
Lemma stored_report_scenario :
  match handler ∅ world0 with
  | (Ok env, w') =>
      ∃ m rep, body env = BodyResults m rep ∧ sr_body <$> stored w' = [rep]
  | (Raise _, _) => False
  end.
Proof.
  destruct (handler ∅ world0) as [[env|e] w'] eqn:Hrun;
    [|vm_compute in Hrun; discriminate].
  destruct (body env) as [m r|m rep|err] eqn:Hbody;
    [vm_compute in Hrun; injection Hrun as <- <-; vm_compute in Hbody;
     discriminate| |
     vm_compute in Hrun; injection Hrun as <- <-; vm_compute in Hbody;
     discriminate].
  destruct (verification_report_is_stored_and_published _ _ _ _ _ _ Hrun Hbody)
    as (s3 & sns & _ & _ & _ & Hstored & _).
  exists m, rep. split; [reflexivity|].
  change (faults world0 (PutObject s3 (result_key world0)))
    with (@None string) in Hstored.
  rewrite Hstored. reflexivity.
Defined.

(** X16.  Whatever the event and however the run ends, the verifier
    changes nothing but the sink: the world after the run is the world
    before it with at most one report appended to the stored objects and at
    most one notification appended to the published ones; the snapshot
    catalog, the export tasks and the clock are as they were. *)
Theorem verifier_changes_only_the_sink (event : gmap string string) (w : World) :
  ∃ st pub,
    (handler event w).2 =
      set_published (published w ++ pub)%list (set_stored (stored w ++ st)%list w)
    ∧ (length st ≤ 1)%nat ∧ (length pub ≤ 1)%nat.
Proof.
  rewrite verifier_handler_run.
  assert (Hsame : ∃ st pub,
            w = set_published (published w ++ pub)%list
                  (set_stored (stored w ++ st)%list w)
            ∧ (length st ≤ 1)%nat ∧ (length pub ≤ 1)%nat).
  { exists [], []. split; [apply only_the_sink_refl|]. cbn. lia. }
  destruct (environ w !! "DB_INSTANCE_ID") as [db|]; [|done].
  destruct (environ w !! "S3_BUCKET") as [s3|]; [|done].
  destruct (environ w !! "SNS_TOPIC_ARN") as [sns|]; [|done].
  destruct (handler_rest db s3 sns w) as [[env|e] w1] eqn:Hrest; cbn [snd].
  - destruct (verifier_handler_rest_inv _ _ _ _ _ _ Hrest)
      as (arn & creds & Harn & Hc).
    destruct (verifier_handler_rest_ok db s3 sns arn creds w Harn Hc)
      as (rep & _ & _ & _ & _ & _ & Hrun).
    rewrite Hrun in Hrest. injection Hrest as _ <-.
    rewrite store_verification_results_run. cbn [snd].
    destruct (faults w (PutObject s3 (result_key w))).
    + match goal with
      | |- context [send_notification ?a ?b ?c ?d w] =>
          destruct (verifier_send_notification_appends a b c d w w []
                      (only_the_sink_refl w)) as (pub & -> & Hpub)
      end.
      exists [], pub. split; [done|]. cbn. lia.
    + match goal with
      | |- context [send_notification ?a ?b ?c ?d
                      (set_stored (stored w ++ ?st)%list w)] =>
          destruct (verifier_send_notification_appends a b c d w
                      (set_stored (stored w ++ st)%list w) st)
            as (pub & -> & Hpub);
            [unfold set_published, set_stored; cbn; by rewrite app_nil_r|];
          exists st, pub
      end.
      split; [done|]. cbn. lia.
  - apply verifier_handler_rest_raises in Hrest as [-> _].
    match goal with
    | |- context [send_notification ?a ?b ?c ?d w] =>
        destruct (verifier_send_notification_appends a b c d w w []
                    (only_the_sink_refl w)) as (pub & -> & Hpub)
    end.
    exists [], pub. split; [done|]. cbn. lia.
Qed.

End VerifierMore.
